(** * yep: a shallow embedding of the pack-file engine (libyep.c)

    The development follows the C source function by function.  Bytes are
    [Byte.byte], C strings are byte lists read up to their first NUL,
    machine integers are [Z] with the wrap-around of their width written
    out, heap and stack buffers are lists of cells that may still be
    indeterminate, and the global variables of libyep.c are the fields of
    explicit state records. *)

From Stdlib Require Import Strings.String.
From Stdlib Require Import ZArith List Lia Bool Strings.Byte.
Import ListNotations.
Open Scope Z_scope.

(** ** Outcomes of a C computation *)

Inductive outcome (A : Type) : Type :=
| Done (a : A)        (* the call returns *)
| Undefined           (* the C program has no defined behaviour from here on *)
| Exited (code : Z)   (* the process called exit(code) *)
| OutOfFuel.          (* the recursion is deeper than the fuel given to the model *)

Arguments Done {A} a.
Arguments Undefined {A}.
Arguments Exited {A} code.
Arguments OutOfFuel {A}.

Definition obind {A B : Type} (m : outcome A) (k : A -> outcome B) : outcome B :=
  match m with
  | Done a => k a
  | Undefined => Undefined
  | Exited c => Exited c
  | OutOfFuel => OutOfFuel
  end.

Notation "x <- m ;; k" := (obind m (fun x => k))
  (at level 61, m at next level, right associativity).
Notation "' p <- m ;; k" := (obind m (fun x => let 'p := x in k))
  (at level 61, p pattern, m at next level, right associativity).

(** ** Machine integers, bytes, buffers *)

Definition u8 (z : Z) : Z := z mod 256.
Definition u16 (z : Z) : Z := z mod 65536.
Definition u32 (z : Z) : Z := z mod 4294967296.

Definition byte_of_Z (z : Z) : byte :=
  match Byte.of_N (Z.to_N (z mod 256)) with
  | Some b => b
  | None => x00
  end.

Definition Z_of_byte (b : byte) : Z := Z.of_N (Byte.to_N b).

(* Native byte order of the object representation: little-endian. *)
Fixpoint le_bytes (width : nat) (z : Z) : list byte :=
  match width with
  | O => []
  | S w => byte_of_Z z :: le_bytes w (z / 256)
  end.

Fixpoint le_value (bs : list byte) : Z :=
  match bs with
  | [] => 0
  | b :: bs' => Z_of_byte b + 256 * le_value bs'
  end.

Definition zlen {A : Type} (l : list A) : Z := Z.of_nat (length l).

(* A byte of memory: [None] while nothing has been stored in it. *)
Abbreviation cell := (option byte) (only parsing).

Definition malloc (n : Z) : list cell := repeat None (Z.to_nat n).

(* Copy [src] over the beginning of [dst]. *)
Definition store (dst : list cell) (src : list byte) : list cell :=
  map Some src ++ skipn (length src) dst.

Fixpoint load (src : list cell) : option (list byte) :=
  match src with
  | [] => Some []
  | None :: _ => None
  | Some b :: src' =>
      match load src' with
      | Some bs => Some (b :: bs)
      | None => None
      end
  end.

(** ** C strings *)

Abbreviation cstring := (list byte) (only parsing).

(* The string a char pointer denotes: the bytes before the first NUL. *)
Fixpoint c_str (s : list byte) : cstring :=
  match s with
  | [] => []
  | b :: s' => if Byte.eqb b x00 then [] else b :: c_str s'
  end.

Definition strlen (s : list byte) : Z := zlen (c_str s).

Fixpoint bytes_eqb (a b : list byte) : bool :=
  match a, b with
  | [], [] => true
  | x :: a', y :: b' => Byte.eqb x y && bytes_eqb a' b'
  | _, _ => false
  end.

(* strcmp(a, b) == 0 on two NUL-terminated strings. *)
Definition strcmp_eq (a b : list byte) : bool := bytes_eqb (c_str a) (c_str b).

(* strcmp(handle, name) == 0 where [name] is a char array on the stack:
   the comparison walks both until they differ or the handle ends.  [None]
   when it reads an indeterminate byte or runs past the end of the array. *)
Fixpoint strcmp_cells (handle : cstring) (name : list cell) : option bool :=
  match name with
  | [] => None
  | None :: _ => None
  | Some b :: name' =>
      match handle with
      | [] => Some (Byte.eqb b x00)
      | c :: handle' =>
          if Byte.eqb b c then strcmp_cells handle' name' else Some false
      end
  end.

Definition s2b (s : string) : cstring := list_byte_of_string s.

(** ** Logging (yep_logf)

    Every format string of the source is one constructor, carrying the
    arguments it prints. *)

Inductive yep_log_level :=
| yep_log_debug | yep_log_info | yep_log_warning | yep_log_error.

Inductive log_text :=
(* yepfs.c, yep_get_path_info *)
| RetrievedFileInfo (path : cstring)
| FailedToRetrieveFileInfo (path : cstring)
(* decompress_data *)
| InflateInitError (status : Z)
| ErrorDecompressingData
| DecompressedSizeMismatch
(* is_dir_outofdate *)
| DirectoryDoesNotExist (dir : cstring)
| IsNotADirectory (dir : cstring)
| YepFileDoesNotExist (file : cstring)
| IsNotAFile (file : cstring)
| DirectoryIsNewer (dir file : cstring)
| DirectoryIsNotNewer (dir file : cstring)
(* _yep_open_file *)
| ErrorOpeningYepFile
| VersionMismatch (found expected : Z)
(* yep_extract_data, yep_item_exists *)
| ErrorOpeningYepFileNamed (file : cstring)
| HandleDoesNotExist (handle file : cstring)
| ErrorDecompressingWarning
(* _recurse_dir_callback, _yep_walk_directory_v2 *)
| TraverseErrorFileInfo (path : cstring)
| NotWithinRoot (path root : cstring)
| RelativePathTooLong (path : cstring)
| TraverseSkippingNonFile (path : cstring)
| TraverseErrorDirInfo (path : cstring)
| TraverseNotADirectory (path : cstring)
(* write_pack_file, _yep_pack_directory *)
| ErrorOpeningFileToPack (path : cstring)
| PackingDirectory (dir : cstring)
| BuiltPackList
| DetectedEntries (count : Z)
| ErrorOpeningOutput (file : cstring)
| WritingHeaders
| WritingData
| PackDone.

Definition log_line : Type := yep_log_level * log_text.

Definition yep_logf (level : yep_log_level) (text : log_text) : list log_line :=
  [(level, text)].

(** ** Constants of libyep.h *)

(** Modelled from the spec: libyep.h is not among the sources; the spec
    fixes the entry record at 78 bytes. *)
Definition YEP_HEADER_SIZE_BYTES : Z := 78.

(** Modelled from the spec: libyep.h is not among the sources; the spec
    gives compression kind 0 = none, 1 = deflate and data kind 0 = misc. *)
Definition YEP_COMPRESSION_NONE : Z := 0.
Definition YEP_COMPRESSION_ZLIB : Z := 1.
Definition YEP_DATATYPE_MISC : Z := 0.

(** ** zlib, as seen through the calls libyep.c makes

    [z_deflate input avail_out] and [z_inflate input avail_out] stand for one
    call with Z_FINISH on a fresh stream whose output buffer has
    [avail_out] bytes: they give the returned status and the bytes produced
    (so total_out is their number). *)

Definition Z_OK : Z := 0.
Definition Z_STREAM_END : Z := 1.

Record zlib := {
  z_deflateInit : Z;
  z_deflate : list byte -> Z -> Z * list byte;
  z_inflateInit : Z;
  z_inflate : list byte -> Z -> Z * list byte
}.

(* zlib never writes more than avail_out bytes. *)
Definition zlib_in_bounds (zl : zlib) : Prop :=
  forall input avail,
    0 <= avail ->
    zlen (snd (z_deflate zl input avail)) <= avail /\
    zlen (snd (z_inflate zl input avail)) <= avail.

Section Codec.

Variable zl : zlib.

(* int compress_data(input, input_size, &output, &output_size):
   the return value, the output buffer and *output_size.  After a failed
   call the buffer is freed (or was never allocated): [None]. *)
Definition compress_data (input : list byte) (input_size : Z)
  : Z * option (list cell) * option Z :=
  if negb (z_deflateInit zl =? Z_OK) then (-1, None, None)
  else
    let output_size := input_size + input_size / 10 + 12 in
    let output := malloc output_size in
    let '(status, produced) :=
      z_deflate zl (firstn (Z.to_nat (u32 input_size)) input) (u32 output_size) in
    if negb (status =? Z_STREAM_END) then (-1, None, Some output_size)
    else (0, Some (store output produced), Some (zlen produced)).

(* int decompress_data(input, input_size, &output, output_size):
   the return value, the output buffer (None once freed or never
   allocated) and the lines logged. *)
Definition decompress_data (input : list byte) (input_size : Z) (output_size : Z)
  : Z * option (list cell) * list log_line :=
  let inflate_result := z_inflateInit zl in
  if negb (inflate_result =? Z_OK) then
    (-1, None, yep_logf yep_log_error (InflateInitError inflate_result))
  else
    let output := malloc output_size in
    let '(status, produced) :=
      z_inflate zl (firstn (Z.to_nat (u32 input_size)) input) (u32 output_size) in
    let res := negb (status =? Z_STREAM_END) in
    if res then (-1, None, yep_logf yep_log_error ErrorDecompressingData)
    else if negb (output_size =? zlen produced) then
      (-1, Some (store output produced),
       yep_logf yep_log_error DecompressedSizeMismatch)
    else (0, Some (store output produced), []).

End Codec.

(** ** The file system, as seen through SDL and stdio *)

Module SDL.

Inductive SDL_PathType :=
| SDL_PATHTYPE_NONE | SDL_PATHTYPE_FILE | SDL_PATHTYPE_DIRECTORY | SDL_PATHTYPE_OTHER.

Definition SDL_PathType_eqb (a b : SDL_PathType) : bool :=
  match a, b with
  | SDL_PATHTYPE_NONE, SDL_PATHTYPE_NONE
  | SDL_PATHTYPE_FILE, SDL_PATHTYPE_FILE
  | SDL_PATHTYPE_DIRECTORY, SDL_PATHTYPE_DIRECTORY
  | SDL_PATHTYPE_OTHER, SDL_PATHTYPE_OTHER => true
  | _, _ => false
  end.

Record SDL_PathInfo := {
  type : SDL_PathType;
  size : Z;
  create_time : Z;
  modify_time : Z;
  access_time : Z
}.

End SDL.
Import SDL(SDL_PathType(..), SDL_PathType_eqb, SDL_PathInfo).

(* Paths are the strings the C code passes; the model keeps no notion of
   two different strings naming one file.

   [partly_written content pos] is what fopen(path, rb) and the reads that
   follow obtain from a file that a stream of the process, opened with
   fopen(path, wb) and not yet closed, is writing, when that stream holds
   [content] and stands at [pos]: the part of it that stdio has passed on
   to the file by then, which its buffering decides.  None: the call
   fails. *)
Record filesys := {
  SDL_GetPathInfo : cstring -> option SDL_PathInfo;  (* None: the call fails *)
  dir_entries : cstring -> list cstring;  (* names, in enumeration order *)
  file_bytes : cstring -> option (list byte);  (* None: fopen(path, rb) fails *)
  creatable : cstring -> bool;  (* fopen(path, wb) succeeds *)
  partly_written : list byte -> Z -> option (list byte)
}.

(* yepfs.c: bool yep_get_path_info(path, &info) *)
Definition yep_get_path_info (fs : filesys) (path : list byte)
  : option SDL_PathInfo * list log_line :=
  match SDL_GetPathInfo fs (c_str path) with
  | Some info => (Some info, yep_logf yep_log_debug (RetrievedFileInfo (c_str path)))
  | None => (None, yep_logf yep_log_error (FailedToRetrieveFileInfo (c_str path)))
  end.

(** ** Timestamp tracking *)

Definition is_dir_outofdate (fs : filesys) (target_directory yep_file_path : list byte)
  : bool * list log_line :=
  match yep_get_path_info fs target_directory with
  | (None, l1) =>
      (false, l1 ++ yep_logf yep_log_error (DirectoryDoesNotExist (c_str target_directory)))
  | (Some dir_info, l1) =>
      if negb (SDL_PathType_eqb (SDL.type dir_info) SDL_PATHTYPE_DIRECTORY) then
        (false, l1 ++ yep_logf yep_log_error (IsNotADirectory (c_str target_directory)))
      else
        match yep_get_path_info fs yep_file_path with
        | (None, l2) =>
            (false, l1 ++ l2 ++
                    yep_logf yep_log_error (YepFileDoesNotExist (c_str yep_file_path)))
        | (Some yep_info, l2) =>
            if negb (SDL_PathType_eqb (SDL.type yep_info) SDL_PATHTYPE_FILE) then
              (false, l1 ++ l2 ++
                      yep_logf yep_log_error (IsNotAFile (c_str yep_file_path)))
            else if SDL.modify_time dir_info >? SDL.modify_time yep_info then
              (true, l1 ++ l2 ++
                     yep_logf yep_log_debug
                       (DirectoryIsNewer (c_str target_directory) (c_str yep_file_path)))
            else
              (false, l1 ++ l2 ++
                      yep_logf yep_log_debug
                        (DirectoryIsNotNewer (c_str target_directory) (c_str yep_file_path)))
        end
  end.

(** ** stdio streams *)

Record FILE := {
  fd : nat;              (* which open stream of the process this is *)
  content : list byte;   (* the bytes of the file *)
  pos : Z                (* the file position indicator *)
}.

Definition fseek (f : FILE) (offset : Z) : FILE :=
  {| fd := fd f; content := content f; pos := offset |}.

(* The bytes a read of up to [n] bytes obtains, and the stream after it. *)
Definition fread (n : Z) (f : FILE) : list byte * FILE :=
  let got := firstn (Z.to_nat n) (skipn (Z.to_nat (pos f)) (content f)) in
  (got, {| fd := fd f; content := content f; pos := pos f + zlen got |}).

(* fread into an integer object of [width] bytes holding [old]: the bytes
   obtained replace its first bytes, the others keep their value. *)
Definition fread_int (width : nat) (old : Z) (f : FILE) : Z * FILE :=
  let '(got, f') := fread (Z.of_nat width) f in
  (le_value (got ++ skipn (length got) (le_bytes width old)), f').

(* fread into a buffer of cells. *)
Definition fread_cells (n : Z) (dst : list cell) (f : FILE) : list cell * FILE :=
  let '(got, f') := fread n f in
  (store dst got, f').

(* fwrite at the file position; a gap behind the end reads as zeros. *)
Definition fwrite (data : list byte) (f : FILE) : FILE :=
  let p := Z.to_nat (pos f) in
  {| fd := fd f;
     content := firstn p (content f) ++ repeat x00 (p - length (content f))
                ++ data ++ skipn (p + length data) (content f);
     pos := pos f + zlen data |}.

(** ** The archive reader

    The globals of libyep.c that hold the currently open yep file, the
    table of streams the process has open, and what was logged. *)

(* A char pointer that is NULL, points to a live string, or was freed. *)
Inductive char_ptr :=
| NULL
| Live (s : cstring)
| Freed.

Record reader := {
  yep_file_path : char_ptr;
  yep_file : option FILE;
  file_entry_count : Z;      (* uint16_t *)
  file_version_number : Z;   (* uint16_t *)
  open_streams : list nat;   (* streams opened with fopen and not yet closed *)
  next_fd : nat;
  out : list log_line
}.

Definition reader_init : reader :=
  {| yep_file_path := NULL; yep_file := None;
     file_entry_count := 0; file_version_number := 0;
     open_streams := []; next_fd := O; out := [] |}.

Definition logged (st : reader) (lines : list log_line) : reader :=
  {| yep_file_path := yep_file_path st; yep_file := yep_file st;
     file_entry_count := file_entry_count st;
     file_version_number := file_version_number st;
     open_streams := open_streams st; next_fd := next_fd st;
     out := out st ++ lines |}.

Definition with_file (st : reader) (f : option FILE) : reader :=
  {| yep_file_path := yep_file_path st; yep_file := f;
     file_entry_count := file_entry_count st;
     file_version_number := file_version_number st;
     open_streams := open_streams st; next_fd := next_fd st;
     out := out st |}.

(* fopen(file, rb): a new stream, entered in the process's table. *)
Definition fopen_rb (fs : filesys) (file : list byte) (st : reader)
  : option FILE * reader :=
  match file_bytes fs (c_str file) with
  | None => (None, st)
  | Some bytes =>
      (Some {| fd := next_fd st; content := bytes; pos := 0 |},
       {| yep_file_path := yep_file_path st; yep_file := yep_file st;
          file_entry_count := file_entry_count st;
          file_version_number := file_version_number st;
          open_streams := next_fd st :: open_streams st;
          next_fd := S (next_fd st);
          out := out st |})
  end.

(* fclose(f) *)
Definition fclose (f : FILE) (st : reader) : reader :=
  {| yep_file_path := yep_file_path st; yep_file := yep_file st;
     file_entry_count := file_entry_count st;
     file_version_number := file_version_number st;
     open_streams := filter (fun d => negb (Nat.eqb d (fd f))) (open_streams st);
     next_fd := next_fd st;
     out := out st |}.

Section Reader.

Variable zl : zlib.
Variable fs : filesys.

(** Modelled from the spec: libyep.h is not among the sources and the spec
    gives the supported format version no value; it is a parameter. *)
Variable YEP_CURRENT_FORMAT_VERSION : Z.

Definition _yep_open_file (file : list byte) (st : reader) : outcome (bool * reader) :=
  match yep_file_path st with
  | Freed => Undefined   (* strcmp reads the freed string *)
  | _ =>
      if match yep_file_path st with
         | Live p => strcmp_eq p file
         | _ => false
         end
      then Done (true, st)
      else
        match fopen_rb fs file st with
        | (None, st1) =>
            Done (false, logged (with_file st1 None) (yep_logf yep_log_error ErrorOpeningYepFile))
        | (Some f, st1) =>
            (* free(yep_file_path); yep_file_path = strdup(file); *)
            let '(version, f1) := fread_int 1 (file_version_number st1 mod 256) f in
            let version := 256 * (file_version_number st1 / 256) + version in
            let '(count, f2) := fread_int 2 (file_entry_count st1) f1 in
            let st2 :=
              {| yep_file_path := Live (c_str file); yep_file := Some f2;
                 file_entry_count := count;
                 file_version_number := version;
                 open_streams := open_streams st1; next_fd := next_fd st1;
                 out := out st1 |} in
            if negb (version =? YEP_CURRENT_FORMAT_VERSION) then
              Done (false,
                    logged st2 (yep_logf yep_log_error
                                  (VersionMismatch version YEP_CURRENT_FORMAT_VERSION)))
            else Done (true, st2)
        end
  end.

Definition _yep_close_file (st : reader) : outcome reader :=
  match yep_file st with
  | None => Done st
  | Some f =>
      let st1 := fclose f st in
      match yep_file_path st1 with
      | Freed => Undefined   (* free of a pointer already freed *)
      | p =>
          Done {| yep_file_path := match p with NULL => NULL | _ => Freed end;
                  yep_file := None;
                  file_entry_count := 0;
                  file_version_number := 0;
                  open_streams := open_streams st1; next_fd := next_fd st1;
                  out := out st1 |}
      end
  end.

(* The locals of the caller that _yep_seek_header fills through pointers. *)
Record header_vars := {
  v_name : list cell;               (* char name[64] *)
  v_offset : list cell;             (* uint32_t *)
  v_size : list cell;              (* uint32_t size *)
  v_compression_type : list cell;   (* uint8_t *)
  v_uncompressed_size : list cell;  (* uint32_t *)
  v_data_type : list cell           (* uint8_t *)
}.

Definition header_vars_uninit : header_vars :=
  {| v_name := malloc 64; v_offset := malloc 4; v_size := malloc 4;
     v_compression_type := malloc 1; v_uncompressed_size := malloc 4;
     v_data_type := malloc 1 |}.

(* The loop of _yep_seek_header, [n] iterations left. *)
Fixpoint seek_loop (n : nat) (handle : cstring) (v : header_vars) (f : FILE)
  : outcome (bool * header_vars * FILE) :=
  match n with
  | O => Done (false, v, f)
  | S n' =>
      let '(name', f) := fread_cells 64 (v_name v) f in
      let '(offset', f) := fread_cells 4 (v_offset v) f in
      let '(size', f) := fread_cells 4 (v_size v) f in
      let '(compression_type', f) := fread_cells 1 (v_compression_type v) f in
      let '(uncompressed_size', f) := fread_cells 4 (v_uncompressed_size v) f in
      let '(data_type', f) := fread_cells 1 (v_data_type v) f in
      let v' := {| v_name := name'; v_offset := offset'; v_size := size';
                   v_compression_type := compression_type';
                   v_uncompressed_size := uncompressed_size';
                   v_data_type := data_type' |} in
      match strcmp_cells handle name' with
      | None => Undefined
      | Some true => Done (true, v', f)
      | Some false => seek_loop n' handle v' f
      end
  end.

Definition _yep_seek_header (handle : list byte) (v : header_vars) (st : reader)
  : outcome (bool * header_vars * reader) :=
  match yep_file st with
  | None => Undefined   (* fseek on a NULL stream *)
  | Some f =>
      let f := fseek f 3 in
      ' (found, v', f') <- seek_loop (Z.to_nat (file_entry_count st)) (c_str handle) v f ;;
      Done (found, v', with_file st (Some f'))
  end.

(* The value of an integer local; [None] while part of it is indeterminate. *)
Definition int_of_cells (c : list cell) : option Z :=
  match load c with
  | Some bs => Some (le_value bs)
  | None => None
  end.

Definition use_int (c : list cell) : outcome Z :=
  match int_of_cells c with
  | Some z => Done z
  | None => Undefined
  end.

(* struct yep_data_info: [data] is None for a NULL pointer. *)
Record yep_data_info := {
  data : option (list cell);
  size : Z
}.

Definition no_data : yep_data_info := {| data := None; size := 0 |}.

(* yep_extract_data once the header is found: seek to the offset, read the
   data, terminate or decompress it. *)
Definition extract_found (v : header_vars) (st : reader)
  : outcome (yep_data_info * reader) :=
  match yep_file st with
  | None => Undefined
  | Some f =>
      offset <- use_int (v_offset v) ;;
      size <- use_int (v_size v) ;;
      let f := fseek f offset in
      let data := malloc (u32 (size + 1)) in
      let '(got, f) := fread size f in
      (* fread stores what it got: past the end of the block if it is
         too small *)
      if zlen data <? zlen got then Undefined else
      let data := store data got in
      let st := with_file st (Some f) in
      compression_type <- use_int (v_compression_type v) ;;
      data <-
        (if compression_type =? YEP_COMPRESSION_NONE then
           (* data[size] = 0 *)
           if zlen data <=? size then Undefined
           else Done (firstn (Z.to_nat size) data ++ [Some x00]
                      ++ skipn (S (Z.to_nat size)) data)
         else Done data) ;;
      if compression_type =? YEP_COMPRESSION_ZLIB then
        uncompressed_size <- use_int (v_uncompressed_size v) ;;
        (* zlib reads [size] bytes of [data] *)
        match (if zlen data <? size then None
               else load (firstn (Z.to_nat size) data)) with
        | None => Undefined
        | Some input =>
            let '(status, decompressed_data, lines) :=
              decompress_data zl input size uncompressed_size in
            let st := logged st lines in
            if negb (status =? 0) then
              Done (no_data,
                    logged st (yep_logf yep_log_warning ErrorDecompressingWarning))
            else
              Done ({| data := decompressed_data; size := uncompressed_size |}, st)
        end
      else
        Done ({| data := Some data; size := size |}, st)
  end.

Definition yep_extract_data (file handle : list byte) (st : reader)
  : outcome (yep_data_info * reader) :=
  ' (opened, st) <- _yep_open_file file st ;;
  if negb opened then
    Done (no_data, logged st (yep_logf yep_log_warning (ErrorOpeningYepFileNamed (c_str file))))
  else
    ' (found, v, st) <- _yep_seek_header handle header_vars_uninit st ;;
    if negb found then
      Done (no_data,
            logged st (yep_logf yep_log_warning
                         (HandleDoesNotExist (c_str handle) (c_str file))))
    else extract_found v st.

Definition yep_item_exists (file handle : list byte) (st : reader)
  : outcome (bool * reader) :=
  ' (opened, st) <- _yep_open_file file st ;;
  if negb opened then
    Done (false, logged st (yep_logf yep_log_warning (ErrorOpeningYepFileNamed (c_str file))))
  else
    ' (found, v, st) <- _yep_seek_header handle header_vars_uninit st ;;
    Done (found, st).

End Reader.

(** ** The pack list builder *)

(* struct yep_header_node; the next pointers are the list structure. *)
Record yep_header_node := {
  name : list byte;     (* char name[64] *)
  fullpath : cstring
}.

(** Modelled from the spec: libyep.h, which declares struct yep_pack_list,
    is not among the sources. The field entry_count counts without a bound
    here; _yep_pack_directory narrows it to uint16_t for the header, so a
    16-bit field would give the same header. *)
Record yep_pack_list_t := {
  entry_count : Z;
  head : list yep_header_node
}.

Record packer := {
  yep_pack_list : yep_pack_list_t;
  yep_pack_root_path : option cstring;
  printed : list log_line
}.

Definition packer_init : packer :=
  {| yep_pack_list := {| entry_count := 0; head := [] |};
     yep_pack_root_path := None;
     printed := [] |}.

Definition plog (st : packer) (lines : list log_line) : packer :=
  {| yep_pack_list := yep_pack_list st;
     yep_pack_root_path := yep_pack_root_path st;
     printed := printed st ++ lines |}.

Definition with_root (st : packer) (root : option cstring) : packer :=
  {| yep_pack_list := yep_pack_list st;
     yep_pack_root_path := root;
     printed := printed st |}.

Definition with_list (st : packer) (l : yep_pack_list_t) : packer :=
  {| yep_pack_list := l;
     yep_pack_root_path := yep_pack_root_path st;
     printed := printed st |}.

(* char full_path[4096], char normalized_root[4096]: snprintf and strncpy
   keep at most 4095 bytes; char normalized_relative_path[256]: 255. *)
Definition full_path_chars : nat := 4095.
Definition relative_path_chars : nat := 255.

Definition slash : byte := x2f.
Definition backslash : byte := x5c.

Definition is_separator (b : byte) : bool := Byte.eqb b slash || Byte.eqb b backslash.

Definition normalize_path_separators (path : cstring) : cstring :=
  map (fun b => if Byte.eqb b backslash then slash else b) path.

(* The while loop that advances a pointer over leading separators. *)
Fixpoint skip_separators (p : cstring) : cstring :=
  match p with
  | b :: p' => if is_separator b then skip_separators p' else p
  | [] => []
  end.

Inductive SDL_EnumerationResult :=
| SDL_ENUM_CONTINUE | SDL_ENUM_SUCCESS | SDL_ENUM_FAILURE.

Section Packer.

Variable fs : filesys.

(* The pointer relative_path of the callback: [Done None] when the file is
   not within the root directory. *)
Definition relative_path_of (root : option cstring) (dirname full_path : cstring)
  : outcome (option cstring) :=
  match root with
  | Some yep_pack_root_path =>
      let normalized_root :=
        normalize_path_separators (firstn full_path_chars yep_pack_root_path) in
      let root_len := length normalized_root in
      if bytes_eqb (firstn root_len full_path) normalized_root then
        let relative_path := skipn root_len full_path in
        Done (Some match relative_path with
                   | b :: rest => if is_separator b then rest else relative_path
                   | [] => relative_path
                   end)
      else Done None
  | None =>
      (* full_path + strlen(dirname) + 1 *)
      if (length full_path <? length dirname + 1)%nat then Undefined
      else Done (Some (skipn (length dirname + 1) full_path))
  end.

(* final_relative_path, from relative_path. *)
Definition final_relative_path_of (relative_path : cstring) : cstring :=
  let normalized_relative_path :=
    normalize_path_separators (firstn relative_path_chars relative_path) in
  skip_separators normalized_relative_path.

(* The node the callback allocates. *)
Definition new_node (final_relative_path full_path : cstring) : yep_header_node :=
  {| name := final_relative_path ++ repeat x00 (64 - length final_relative_path);
     fullpath := full_path |}.

Definition push_node (node : yep_header_node) (st : packer) : packer :=
  with_list st {| entry_count := entry_count (yep_pack_list st) + 1;
                  head := node :: head (yep_pack_list st) |}.

(* [walk] is _yep_walk_directory_v2, which the callback calls back. *)
Definition _recurse_dir_callback (walk : list byte -> packer -> outcome packer)
    (dirname fname : list byte) (st : packer)
  : outcome (SDL_EnumerationResult * packer) :=
  let full_path := firstn full_path_chars (c_str dirname ++ c_str fname) in
  let full_path := normalize_path_separators full_path in
  match yep_get_path_info fs full_path with
  | (None, lines) =>
      Done (SDL_ENUM_CONTINUE,
            plog st (lines ++ yep_logf yep_log_error (TraverseErrorFileInfo full_path)))
  | (Some path_info, lines) =>
      let st := plog st lines in
      match SDL.type path_info with
      | SDL_PATHTYPE_FILE =>
          relative_path <-
            relative_path_of (yep_pack_root_path st) (c_str dirname) full_path ;;
          match relative_path with
          | None =>
              Done (SDL_ENUM_CONTINUE,
                    plog st (yep_logf yep_log_error
                               (NotWithinRoot full_path
                                  (normalize_path_separators
                                     (firstn full_path_chars
                                        (match yep_pack_root_path st with
                                         | Some r => r
                                         | None => []
                                         end))))))
          | Some relative_path =>
              let final_relative_path := final_relative_path_of relative_path in
              if strlen final_relative_path + 1 >? 64 then
                Done (SDL_ENUM_CONTINUE,
                      plog st (yep_logf yep_log_error (RelativePathTooLong full_path)))
              else
                Done (SDL_ENUM_CONTINUE,
                      push_node (new_node final_relative_path full_path) st)
          end
      | SDL_PATHTYPE_DIRECTORY =>
          st <- walk full_path st ;;
          Done (SDL_ENUM_CONTINUE, st)
      | _ =>
          Done (SDL_ENUM_CONTINUE,
                plog st (yep_logf yep_log_debug (TraverseSkippingNonFile full_path)))
      end
  end.

(* SDL passes the directory name with a trailing separator. *)
Definition with_trailing_separator (path : cstring) : cstring :=
  match rev path with
  | b :: _ => if Byte.eqb b slash then path else path ++ [slash]
  | [] => path ++ [slash]
  end.

(* The calls SDL_EnumerateDirectory makes for the entries [names]: it stops
   at the first callback that does not answer SDL_ENUM_CONTINUE. *)
Fixpoint enumerate (callback : list byte -> list byte -> packer ->
                               outcome (SDL_EnumerationResult * packer))
    (dirname : cstring) (names : list cstring) (st : packer) : outcome packer :=
  match names with
  | [] => Done st
  | fname :: names' =>
      ' (r, st) <- callback dirname fname st ;;
      match r with
      | SDL_ENUM_CONTINUE => enumerate callback dirname names' st
      | _ => Done st
      end
  end.

Definition SDL_EnumerateDirectory (path : list byte)
    (callback : list byte -> list byte -> packer ->
                outcome (SDL_EnumerationResult * packer))
    (st : packer) : outcome packer :=
  enumerate callback (with_trailing_separator (c_str path))
            (dir_entries fs (c_str path)) st.

(* Recursively walk the target pack directory; [fuel] bounds the depth. *)
Fixpoint _yep_walk_directory_v2 (fuel : nat) (dir_path : list byte) (st : packer)
  : outcome packer :=
  match fuel with
  | O => OutOfFuel
  | S fuel' =>
      match yep_get_path_info fs dir_path with
      | (None, lines) =>
          Done (plog st (lines ++ yep_logf yep_log_error
                                    (TraverseErrorDirInfo (c_str dir_path))))
      | (Some path_info, lines) =>
          let st := plog st lines in
          if negb (SDL_PathType_eqb (SDL.type path_info) SDL_PATHTYPE_DIRECTORY) then
            Done (plog st (yep_logf yep_log_error (TraverseNotADirectory (c_str dir_path))))
          else
            SDL_EnumerateDirectory dir_path
              (_recurse_dir_callback (_yep_walk_directory_v2 fuel')) st
      end
  end.

(** ** The archive writer *)

(* uint32_t get_file_size(FILE *file) *)
Definition get_file_size (bytes : list byte) : Z := u32 (zlen bytes).

(* char* read_file_data(FILE *file, uint32_t size) *)
Definition read_file_data (bytes : list byte) (size : Z) : list cell :=
  store (malloc size) (firstn (Z.to_nat size) bytes).

Definition write_data_to_pack (pack_file : FILE) (offset : Z) (data : list byte)
  : FILE :=
  fwrite data (fseek pack_file offset).

Definition update_header (pack_file : FILE) (entry_index : Z)
    (offset size compression_type uncompressed_size data_type : Z) : FILE :=
  let header_start := 3 in
  let header_offset := header_start + entry_index * YEP_HEADER_SIZE_BYTES + 64 in
  let f := fseek pack_file header_offset in
  let f := fwrite (le_bytes 4 offset) f in
  let f := fwrite (le_bytes 4 size) f in
  let f := fwrite (le_bytes 1 compression_type) f in
  let f := fwrite (le_bytes 4 uncompressed_size) f in
  fwrite (le_bytes 1 data_type) f.

(* The bytes of a buffer that a write of [size] bytes takes from it. *)
Definition bytes_to_write (data : list cell) (size : Z) : outcome (list byte) :=
  if zlen data <? size then Undefined
  else match load (firstn (Z.to_nat size) data) with
       | Some bs => Done bs
       | None => Undefined
       end.

End Packer.

Section Writer.

Variable zl : zlib.

(* The file system in which a source is opened, which depends on how far
   the stream of the pack file has got: fopen(output_name, wb) came first,
   so a source that is the pack file itself is read while it is written. *)
Variable sources : FILE -> filesys.

(* The while loop of write_pack_file over the nodes from [itr] on. *)
Fixpoint write_pack_loop (itr : list yep_header_node) (pack_file : FILE)
    (data_end : Z) (current_entry : Z) : outcome FILE :=
  match itr with
  | [] => Done pack_file
  | node :: next =>
      match file_bytes (sources pack_file) (fullpath node) with
      | None => Exited 1
      | Some bytes =>
          let data_size := get_file_size bytes in
          let uncompressed_size := data_size in
          let data := read_file_data bytes data_size in
          let compression_type := u8 YEP_COMPRESSION_NONE in
          let data_type := u8 YEP_DATATYPE_MISC in
          let compression_type :=
            if data_size >? 256 then u8 YEP_COMPRESSION_ZLIB else compression_type in
          ' (data, data_size) <-
            (if compression_type =? YEP_COMPRESSION_ZLIB then
               input <- bytes_to_write data data_size ;;
               match compress_data zl input data_size with
               | (_, Some compressed_data, Some compressed_size) =>
                   Done (compressed_data, u32 compressed_size)
               | _ => Undefined   (* the result is not checked *)
               end
             else Done (data, data_size)) ;;
          written <- bytes_to_write data data_size ;;
          let pack_file := write_data_to_pack pack_file data_end written in
          let pack_file :=
            update_header pack_file current_entry data_end data_size
                          compression_type uncompressed_size data_type in
          write_pack_loop next pack_file (u32 (data_end + data_size)) (current_entry + 1)
      end
  end.

(* write_pack_file: the bytes of the closed pack file and the state with
   the pack list released.  The progress bar, a printf, is left out. *)
Definition write_pack_file (pack_file : FILE) (st : packer)
  : outcome (list byte * packer) :=
  let data_start :=
    u32 (3 + entry_count (yep_pack_list st) * YEP_HEADER_SIZE_BYTES) in
  let data_end := data_start in
  let current_entry := 0 in
  pack_file <- write_pack_loop (head (yep_pack_list st)) pack_file data_end current_entry ;;
  Done (content pack_file, with_list st {| entry_count := 0; head := [] |}).

End Writer.

Section Pack.

Variable zl : zlib.
Variable fs : filesys.
Variable YEP_CURRENT_FORMAT_VERSION : Z.

(* The file system once the stream of the output is closed. *)
Definition with_file_bytes (path : cstring) (bytes : list byte) : filesys :=
  {| SDL_GetPathInfo := SDL_GetPathInfo fs;
     dir_entries := dir_entries fs;
     file_bytes := fun p => if bytes_eqb p path then Some bytes else file_bytes fs p;
     creatable := creatable fs;
     partly_written := partly_written fs |}.

(* The file system while [pack_file], the stream opened on [path] with
   fopen(path, wb), is open: the file holds what has reached it of the
   stream, the other files are as they were. *)
Definition while_writing (path : cstring) (pack_file : FILE) : filesys :=
  {| SDL_GetPathInfo := SDL_GetPathInfo fs;
     dir_entries := dir_entries fs;
     file_bytes := fun p =>
       if bytes_eqb p path then partly_written fs (content pack_file) (pos pack_file)
       else file_bytes fs p;
     creatable := creatable fs;
     partly_written := partly_written fs |}.

(* The loop of _yep_pack_directory that writes the headers. *)
Fixpoint write_headers (itr : list yep_header_node) (file : FILE) : FILE :=
  match itr with
  | [] => file
  | node :: next =>
      let file := fwrite (firstn 64 (name node)) file in
      let file := fwrite (le_bytes 4 0) file in
      let file := fwrite (le_bytes 4 0) file in
      let file := fwrite (le_bytes 1 0) file in
      let file := fwrite (le_bytes 4 0) file in
      let file := fwrite (le_bytes 1 0) file in
      write_headers next file
  end.

(* The walk reads the file system as it is before the output is opened;
   the sources are opened after fopen(output_name, wb). *)
Definition _yep_pack_directory (fuel : nat) (directory_path output_name : list byte)
    (st : packer) : outcome (bool * packer * filesys) :=
  let st := plog st (yep_logf yep_log_debug (PackingDirectory (c_str directory_path))) in
  let st := with_root st (Some (normalize_path_separators (c_str directory_path))) in
  st <- _yep_walk_directory_v2 fs fuel directory_path st ;;
  let st := with_root st None in
  let st := plog st (yep_logf yep_log_debug BuiltPackList) in
  let st := plog st (yep_logf yep_log_debug
                       (DetectedEntries (entry_count (yep_pack_list st)))) in
  if negb (creatable fs (c_str output_name)) then
    Done (false,
          plog st (yep_logf yep_log_error (ErrorOpeningOutput (c_str output_name))),
          fs)
  else
    let file := {| fd := O; content := []; pos := 0 |} in
    let version_number := u8 YEP_CURRENT_FORMAT_VERSION in
    let file := fwrite (le_bytes 1 version_number) file in
    let entry_count := u16 (entry_count (yep_pack_list st)) in
    let file := fwrite (le_bytes 2 entry_count) file in
    let st := plog st (yep_logf yep_log_debug WritingHeaders) in
    let file := write_headers (head (yep_pack_list st)) file in
    let st := plog st (yep_logf yep_log_debug WritingData) in
    ' (bytes, st) <- write_pack_file zl (while_writing (c_str output_name)) file st ;;
    let st := plog st (yep_logf yep_log_debug PackDone) in
    Done (true, st, with_file_bytes (c_str output_name) bytes).

End Pack.

(** ** The entry points of libyep.c and the command line tool of yep.c

    These functions work on the reader and on the packer together.  The
    lines they print themselves are kept in a list of their own, beside
    the lines of the reader and those of the packer. *)

Inductive entry_text :=
(* yep_initialize, yep_shutdown *)
| InitializingYep
| ShuttingDownYep
(* yep_force_pack_directory, yep_pack_directory *)
| ForcingPack (dir : cstring)
| TargetOutOfDate (dir : cstring)
| TargetUpToDate (dir : cstring)
(* _yep_misc *)
| CouldNotGetMisc (handle : cstring)
(* yep.c, main *)
| PackingDirectoryInto (dir file : cstring)
| FailedToPackDirectory (dir file : cstring).

Inductive entry_line :=
| Logf (level : yep_log_level) (text : entry_text)   (* yep_logf *)
| Usage.                                             (* print_usage *)

Record engine := {
  the_reader : reader;
  the_packer : packer;
  nodes_freed : bool;   (* yep_shutdown has freed the nodes the head points to *)
  said : list entry_line
}.

Definition engine_init : engine :=
  {| the_reader := reader_init; the_packer := packer_init;
     nodes_freed := false; said := [] |}.

Definition say (e : engine) (line : entry_line) : engine :=
  {| the_reader := the_reader e; the_packer := the_packer e;
     nodes_freed := nodes_freed e; said := said e ++ [line] |}.

Definition with_reader (e : engine) (st : reader) : engine :=
  {| the_reader := st; the_packer := the_packer e;
     nodes_freed := nodes_freed e; said := said e |}.

Definition with_packer (e : engine) (st : packer) : engine :=
  {| the_reader := the_reader e; the_packer := st;
     nodes_freed := nodes_freed e; said := said e |}.


(* yep_shutdown frees the nodes and leaves the head as it is. *)
Definition yep_shutdown (e : engine) : outcome engine :=
  st <- _yep_close_file (the_reader e) ;;
  let e := with_reader e st in
  e <-
    match head (yep_pack_list (the_packer e)) with
    | [] => Done e
    | _ :: _ =>
        if nodes_freed e then Undefined   (* the loop reads a freed node *)
        else Done {| the_reader := the_reader e; the_packer := the_packer e;
                     nodes_freed := true; said := said e |}
    end ;;
  Done (say e (Logf yep_log_info ShuttingDownYep)).

Section Entry.

Variable zl : zlib.
Variable fs : filesys.
Variable YEP_CURRENT_FORMAT_VERSION : Z.

(* _yep_pack_directory on the packer of the engine.  While the head points
   to freed nodes, the callback links each node it pushes to them, and the
   loops that write the headers and the data follow them: only a call that
   pushes nothing and fails to open its output stays clear of them. *)
Definition pack_in_engine (fuel : nat) (directory_path output_name : list byte)
    (e : engine) : outcome (bool * engine * filesys) :=
  let run := _yep_pack_directory zl fs YEP_CURRENT_FORMAT_VERSION fuel
                                 directory_path output_name (the_packer e) in
  if nodes_freed e then
    match run with
    | Done (false, st, fs') =>
        if entry_count (yep_pack_list st) =? entry_count (yep_pack_list (the_packer e))
        then Done (false, with_packer e st, fs')
        else Undefined
    | OutOfFuel => OutOfFuel
    | _ => Undefined
    end
  else
    ' (packed, st, fs') <- run ;;
    Done (packed, with_packer e st, fs').

Definition yep_force_pack_directory (fuel : nat) (directory_path output_name : list byte)
    (e : engine) : outcome (bool * engine * filesys) :=
  let e := say e (Logf yep_log_debug (ForcingPack (c_str directory_path))) in
  pack_in_engine fuel directory_path output_name e.

Definition yep_pack_directory (fuel : nat) (directory_path output_name : list byte)
    (e : engine) : outcome (bool * engine * filesys) :=
  let '(outofdate, lines) := is_dir_outofdate fs directory_path output_name in
  let e := with_packer e (plog (the_packer e) lines) in
  if outofdate then
    let e := say e (Logf yep_log_debug (TargetOutOfDate (c_str directory_path))) in
    pack_in_engine fuel directory_path output_name e
  else
    Done (true, say e (Logf yep_log_debug (TargetUpToDate (c_str directory_path))), fs).

Definition _yep_misc (handle file : list byte) (e : engine)
  : outcome (yep_data_info * engine) :=
  ' (info, st) <-
    yep_extract_data zl fs YEP_CURRENT_FORMAT_VERSION file handle (the_reader e) ;;
  let e := with_reader e st in
  match data info with
  | None => Done (info, say e (Logf yep_log_error (CouldNotGetMisc (c_str handle))))
  | Some _ => Done (info, e)
  end.


End Entry.

(** ** yepfs.c: the helpers that change the file system

    SDL_CreateDirectory is taken as given: it answers with its result and
    the file system after the call. *)

Inductive fs_text :=
| CreatedDirectory (path : cstring)
| FailedToCreateDirectory (path : cstring)
| TouchedFile (path : cstring)
| FailedToTouchFile (path : cstring).

Definition fs_line : Type := yep_log_level * fs_text.

(* strrchr(s, c): the index of the last [c] in the string. *)
Fixpoint strrchr (s : cstring) (c : byte) : option nat :=
  match s with
  | [] => None
  | b :: s' =>
      match strrchr s' c with
      | Some i => Some (S i)
      | None => if Byte.eqb b c then Some O else None
      end
  end.

Section Yepfs.

Variable SDL_CreateDirectory : filesys -> cstring -> bool * filesys.

Definition yep_mkdir (fs : filesys) (path : list byte) : bool * filesys * list fs_line :=
  let '(res, fs') := SDL_CreateDirectory fs (c_str path) in
  (res, fs',
   if res then [(yep_log_info, CreatedDirectory (c_str path))]
   else [(yep_log_error, FailedToCreateDirectory (c_str path))]).

(* void yep_touch_file(file_path, content); [content] is None for a null
   pointer.  The stream is opened in text mode, which writes the bytes as
   they are on POSIX systems. *)
Definition yep_touch_file (fs : filesys) (file_path : list byte)
    (content : option (list byte)) : filesys * list fs_line :=
  let dir := c_str file_path in
  let '(fs1, lines) :=
    match strrchr dir slash with
    | Some last_slash =>
        let '(_, fs1, lines) := yep_mkdir fs (firstn last_slash dir) in (fs1, lines)
    | None => (fs, [])
    end in
  if creatable fs1 (c_str file_path) then
    (with_file_bytes fs1 (c_str file_path)
       (match content with
        | Some text => c_str text
        | None => []
        end),
     lines ++ [(yep_log_debug, TouchedFile (c_str file_path))])
  else
    (fs1, lines ++ [(yep_log_error, FailedToTouchFile (c_str file_path))]).

End Yepfs.

(** ** Concrete inputs

    A small codec and small file systems on which the model is run. *)

(* Run-length coding, standing in for zlib on concrete inputs: the stream
   is a sequence of (count, byte) pairs. *)
Fixpoint rle_encode (l : list byte) : list (nat * byte) :=
  match l with
  | [] => []
  | b :: l' =>
      match rle_encode l' with
      | (n, c) :: runs =>
          if Byte.eqb b c && Nat.ltb n 255 then (S n, c) :: runs
          else (1%nat, b) :: (n, c) :: runs
      | [] => [(1%nat, b)]
      end
  end.

Definition rle_bytes (runs : list (nat * byte)) : list byte :=
  flat_map (fun '(n, c) => [byte_of_Z (Z.of_nat n); c]) runs.

Fixpoint rle_decode (l : list byte) : option (list byte) :=
  match l with
  | [] => Some []
  | n :: c :: l' =>
      match rle_decode l' with
      | Some o => Some (repeat c (Z.to_nat (Z_of_byte n)) ++ o)
      | None => None
      end
  | _ => None
  end.

Definition rle_zlib : zlib :=
  {| z_deflateInit := Z_OK;
     z_deflate := fun input avail_out =>
       let o := rle_bytes (rle_encode input) in
       if zlen o <=? avail_out then (Z_STREAM_END, o)
       else (Z_OK, firstn (Z.to_nat avail_out) o);
     z_inflateInit := Z_OK;
     z_inflate := fun input avail_out =>
       match rle_decode input with
       | Some o =>
           if zlen o <=? avail_out then (Z_STREAM_END, o)
           else (-5, firstn (Z.to_nat avail_out) o)
       | None => (-3, [])
       end |}.

Definition path_info (t : SDL_PathType) (mtime : Z) : SDL_PathInfo :=
  {| SDL.type := t; SDL.size := 0; SDL.create_time := 0;
     SDL.modify_time := mtime; SDL.access_time := 0 |}.

(* The directory d with a.txt (10 bytes) and sub/b.bin (500 bytes), listed
   in this order. *)
Definition example_fs : filesys :=
  {| SDL_GetPathInfo := fun p =>
       if bytes_eqb p (s2b "d") then Some (path_info SDL_PATHTYPE_DIRECTORY 20)
       else if bytes_eqb p (s2b "d/a.txt") then Some (path_info SDL_PATHTYPE_FILE 10)
       else if bytes_eqb p (s2b "d/sub") then Some (path_info SDL_PATHTYPE_DIRECTORY 10)
       else if bytes_eqb p (s2b "d/sub/b.bin") then Some (path_info SDL_PATHTYPE_FILE 10)
       else None;
     dir_entries := fun p =>
       if bytes_eqb p (s2b "d") then [s2b "a.txt"; s2b "sub"]
       else if bytes_eqb p (s2b "d/sub") then [s2b "b.bin"]
       else [];
     file_bytes := fun p =>
       if bytes_eqb p (s2b "d/a.txt") then Some (s2b "helloworld")
       else if bytes_eqb p (s2b "d/sub/b.bin") then Some (repeat xaa 500)
       else None;
     creatable := fun _ => true;
     partly_written := fun _ _ => Some [] |}.

(* The file system after d is packed into the named file by an engine whose
   format version is [version]. *)
Definition packed_into (fs : filesys) (version : Z) (output_name : cstring) : filesys :=
  match _yep_pack_directory rle_zlib fs version 8 (s2b "d") output_name packer_init with
  | Done (_, _, fs') => fs'
  | _ => fs
  end.

(* out.yep and other.yep written with format version 1, old.yep with
   format version 2. *)
Definition example_disk : filesys :=
  packed_into
    (packed_into (packed_into example_fs 1 (s2b "out.yep")) 1 (s2b "other.yep"))
    2 (s2b "old.yep").

(** ** The contracts of the spec, for comparison with the code *)

(** The staleness check in the words of the spec: not stale when either
    path is missing or of the wrong type, otherwise stale exactly when the
    modification time of the source directory is strictly greater than
    that of the archive file. *)
Definition is_stale (fs : filesys) (source_dir archive_path : list byte) : bool :=
  match SDL_GetPathInfo fs (c_str source_dir),
        SDL_GetPathInfo fs (c_str archive_path) with
  | Some dir_info, Some archive_info =>
      match SDL.type dir_info, SDL.type archive_info with
      | SDL_PATHTYPE_DIRECTORY, SDL_PATHTYPE_FILE =>
          SDL.modify_time archive_info <? SDL.modify_time dir_info
      | _, _ => false
      end
  | _, _ => false
  end.

(** The files a recursive enumeration of [dir_path] yields, in the order
    in which it yields them, each as the node the pack list builder makes
    of it (files it rejects are left out): the entries of a directory in
    the order of the enumeration, a subdirectory being descended into at
    its place. *)
Fixpoint traversal (fs : filesys) (fuel : nat) (root : option cstring)
    (dir_path : list byte) : list yep_header_node :=
  match fuel with
  | O => []
  | S fuel' =>
      match SDL_GetPathInfo fs (c_str dir_path) with
      | Some dir_info =>
          match SDL.type dir_info with
          | SDL_PATHTYPE_DIRECTORY =>
              let dirname := with_trailing_separator (c_str dir_path) in
              flat_map
                (fun fname =>
                   let full_path :=
                     normalize_path_separators (firstn full_path_chars (dirname ++ c_str fname)) in
                   match SDL_GetPathInfo fs full_path with
                   | Some path_info =>
                       match SDL.type path_info with
                       | SDL_PATHTYPE_FILE =>
                           match relative_path_of root dirname full_path with
                           | Done (Some relative_path) =>
                               let final_relative_path :=
                                 final_relative_path_of relative_path in
                               if zlen final_relative_path <=? 63
                               then [new_node final_relative_path full_path]
                               else []
                           | _ => []
                           end
                       | SDL_PATHTYPE_DIRECTORY => traversal fs fuel' root full_path
                       | _ => []
                       end
                   | None => []
                   end)
                (dir_entries fs (c_str dir_path))
          | _ => []
          end
      | None => []
      end
  end.

(** The path the walk asks for the entry [fname] of the directory
    [dir_path]. *)
Definition entry_path (dir_path fname : list byte) : cstring :=
  normalize_path_separators
    (firstn full_path_chars (with_trailing_separator (c_str dir_path) ++ c_str fname)).

(** The source files of a pack of the directory [root], in the words of
    the spec: the regular files that lie in [dir_path] or in a directory
    below it and whose derived name fits the name field, each as the node
    that stands for it: the derived name and the path it is read from. *)
Inductive source_file (fs : filesys) (root : cstring)
  : list byte -> yep_header_node -> Prop :=
| source_here dir_path dir_info fname path_info relative_path :
    SDL_GetPathInfo fs (c_str dir_path) = Some dir_info ->
    SDL.type dir_info = SDL_PATHTYPE_DIRECTORY ->
    In fname (dir_entries fs (c_str dir_path)) ->
    SDL_GetPathInfo fs (entry_path dir_path fname) = Some path_info ->
    SDL.type path_info = SDL_PATHTYPE_FILE ->
    relative_path_of (Some root) (with_trailing_separator (c_str dir_path))
                     (entry_path dir_path fname)
    = Done (Some relative_path) ->
    zlen (final_relative_path_of relative_path) <= 63 ->
    source_file fs root dir_path
      (new_node (final_relative_path_of relative_path) (entry_path dir_path fname))
| source_below dir_path dir_info fname path_info node :
    SDL_GetPathInfo fs (c_str dir_path) = Some dir_info ->
    SDL.type dir_info = SDL_PATHTYPE_DIRECTORY ->
    In fname (dir_entries fs (c_str dir_path)) ->
    SDL_GetPathInfo fs (entry_path dir_path fname) = Some path_info ->
    SDL.type path_info = SDL_PATHTYPE_DIRECTORY ->
    source_file fs root (entry_path dir_path fname) node ->
    source_file fs root dir_path node.

(** The names in the entry table of an archive, in table order: the count
    of the header, then the name field of each 78-byte record from byte 3
    on. *)
Definition table_names (archive : list byte) : list cstring :=
  map (fun i => c_str (firstn 64 (skipn (3 + 78 * i) archive)))
      (seq 0 (Z.to_nat (le_value (firstn 2 (skipn 1 archive))))).

(** The bytes of a file after [data] is written at byte [offset] of
    [content]; a gap behind the end is filled with zeros. *)
Definition pwrite (offset : Z) (data content : list byte) : list byte :=
  let p := Z.to_nat offset in
  firstn p content ++ repeat x00 (p - length content)
  ++ data ++ skipn (p + length data) content.

(** The archive file format in the words of the spec: the format version
    in one byte, the entry count in two, one 78-byte record per entry
    (name in 64 bytes, payload offset, stored size, compression kind,
    uncompressed size, data kind) from byte 3 on, then the payloads one
    after the other in entry order, the first one right behind the
    table. *)
Record entry := {
  entry_name : list byte;
  entry_payload : list byte;
  entry_compression : Z;
  entry_uncompressed_size : Z
}.

Definition entry_record (e : entry) (payload_offset : Z) : list byte :=
  entry_name e ++ le_bytes 4 payload_offset ++ le_bytes 4 (zlen (entry_payload e))
  ++ le_bytes 1 (entry_compression e) ++ le_bytes 4 (entry_uncompressed_size e)
  ++ le_bytes 1 YEP_DATATYPE_MISC.

Fixpoint entry_table (entries : list entry) (payload_offset : Z) : list byte :=
  match entries with
  | [] => []
  | e :: entries' =>
      entry_record e payload_offset
      ++ entry_table entries' (payload_offset + zlen (entry_payload e))
  end.

Definition payloads (entries : list entry) : list byte :=
  concat (map entry_payload entries).

Definition archive_bytes (version : Z) (entries : list entry) : list byte :=
  le_bytes 1 version ++ le_bytes 2 (zlen entries)
  ++ entry_table entries (3 + 78 * zlen entries) ++ payloads entries.

(** The entry the spec has the writer store for a source file: files over
    256 bytes deflated, the others as they are. *)
Definition stored_entry (zl : zlib) (fs : filesys) (node : yep_header_node) : entry :=
  let bytes := match file_bytes fs (fullpath node) with
               | Some bytes => bytes
               | None => []
               end in
  if zlen bytes >? 256 then
    {| entry_name := firstn 64 (name node);
       entry_payload :=
         snd (z_deflate zl bytes (u32 (zlen bytes + zlen bytes / 10 + 12)));
       entry_compression := YEP_COMPRESSION_ZLIB;
       entry_uncompressed_size := zlen bytes |}
  else
    {| entry_name := firstn 64 (name node);
       entry_payload := bytes;
       entry_compression := YEP_COMPRESSION_NONE;
       entry_uncompressed_size := zlen bytes |}.

(** Lookup in the words of the spec: a linear scan of the entry table from
    its start, the first entry whose name is the query wins; the result is
    the entry and the offset of its payload, the payloads lying one after
    the other from [payload_offset] on. *)
Fixpoint find_entry (handle : cstring) (entries : list entry) (payload_offset : Z)
  : option (entry * Z) :=
  match entries with
  | [] => None
  | e :: entries' =>
      if bytes_eqb handle (c_str (entry_name e)) then Some (e, payload_offset)
      else find_entry handle entries' (payload_offset + zlen (entry_payload e))
  end.

(** The node a lookup of [handle] resolves to in a pack list: the first one
    in list order whose name is the handle. *)
Definition first_named (handle : list byte) (nodes : list yep_header_node)
  : option yep_header_node :=
  find (fun node => bytes_eqb (c_str handle) (c_str (name node))) nodes.

(** What extraction hands back for a source file: its bytes, with the NUL
    libyep appends when the entry is stored uncompressed. *)
Definition extracted_buffer (bytes : list byte) : list cell :=
  map Some bytes ++ (if zlen bytes >? 256 then [] else [Some x00]).

(** ** Invariants used in the proofs *)

(* A byte string without NUL: a C string all of whose bytes count. *)
Definition no_nul (s : list byte) : Prop := ~ In x00 s.

(* The locals keep the sizes of their types. *)
Definition vars_shaped (v : header_vars) : Prop :=
  length (v_name v) = 64%nat /\ length (v_offset v) = 4%nat /\
  length (v_size v) = 4%nat /\ length (v_compression_type v) = 1%nat /\
  length (v_uncompressed_size v) = 4%nat /\ length (v_data_type v) = 1%nat.

(* The name array of a node: a string of at most 63 bytes, NUL-padded. *)
Definition node_wf (node : yep_header_node) : Prop :=
  exists s, name node = s ++ repeat x00 (64 - length s) /\
            (length s <= 63)%nat /\ no_nul s.

(* What a walk has done to the pack list when it added [added], in this
   order. *)
Definition pushed (st st' : packer) (added : list yep_header_node) : Prop :=
  head (yep_pack_list st') = rev added ++ head (yep_pack_list st) /\
  entry_count (yep_pack_list st') = entry_count (yep_pack_list st) + zlen added /\
  yep_pack_root_path st' = yep_pack_root_path st.

(* The source of a node can be read, is smaller than 4 GiB, and when it is
   over the threshold zlib deflates it within the buffer compress_data
   provides. *)
Definition source_ok (zl : zlib) (fs : filesys) (node : yep_header_node) : Prop :=
  exists bytes,
    file_bytes fs (fullpath node) = Some bytes /\
    zlen bytes < 4294967296 /\
    (256 < zlen bytes ->
     fst (z_deflate zl bytes (u32 (zlen bytes + zlen bytes / 10 + 12))) = Z_STREAM_END).

(* The pack list fits the format: every source is readable, there are at
   most 65535 entries and the archive is smaller than 4 GiB. *)
Definition packable (zl : zlib) (fs : filesys) (nodes : list yep_header_node) : Prop :=
  z_deflateInit zl = Z_OK /\
  Forall (source_ok zl fs) nodes /\
  zlen nodes <= 65535 /\
  zlen (archive_bytes 0 (map (stored_entry zl fs) nodes)) < 4294967296.

(* The output is none of the files the pack list names. *)
Definition not_a_source (output_name : list byte) (nodes : list yep_header_node)
  : Prop :=
  Forall (fun node => fullpath node <> c_str output_name) nodes.

(* The writer finds the sources of [nodes] as they are in [fs], however far
   the stream of the pack file has got. *)
Definition reads_as (src : FILE -> filesys) (fs : filesys)
    (nodes : list yep_header_node) : Prop :=
  forall pack_file node,
    In node nodes ->
    file_bytes (src pack_file) (fullpath node) = file_bytes fs (fullpath node).

(* The record written before the data is known: the name and zeros. *)
Definition placeholder (node : yep_header_node) : list byte :=
  firstn 64 (name node) ++ le_bytes 4 0 ++ le_bytes 4 0 ++ le_bytes 1 0
  ++ le_bytes 4 0 ++ le_bytes 1 0.

(* The stream stands at the end of the file. *)
Definition at_end (f : FILE) : Prop := pos f = zlen (content f).

(* The state in which _yep_pack_directory starts the walk. *)
Definition walk_start (directory_path : list byte) : packer :=
  with_root (plog packer_init
               (yep_logf yep_log_debug (PackingDirectory (c_str directory_path))))
            (Some (normalize_path_separators (c_str directory_path))).

(* The pack list a run of _yep_pack_directory builds: the traversal of the
   directory, last file first. *)
Definition pack_list_of (fs : filesys) (fuel : nat) (directory_path : list byte)
  : list yep_header_node :=
  rev (traversal fs fuel (Some (normalize_path_separators (c_str directory_path)))
                 directory_path).

(* The name field of an entry: a string of at most 63 bytes, NUL-padded. *)
Definition entry_wf (e : entry) : Prop :=
  exists s, entry_name e = s ++ repeat x00 (64 - length s) /\
            (length s <= 63)%nat /\ no_nul s.

(* The locals of the caller once _yep_seek_header has read the record of
   [e], whose payload is at [payload_offset]. *)
Definition vars_of (e : entry) (payload_offset : Z) : header_vars :=
  {| v_name := map Some (entry_name e);
     v_offset := map Some (le_bytes 4 payload_offset);
     v_size := map Some (le_bytes 4 (zlen (entry_payload e)));
     v_compression_type := map Some (le_bytes 1 (entry_compression e));
     v_uncompressed_size := map Some (le_bytes 4 (entry_uncompressed_size e));
     v_data_type := map Some (le_bytes 1 YEP_DATATYPE_MISC) |}.

(* The reader holds the archive [archive] of the path [file] in its cache. *)
Definition holds_archive (st : reader) (file : cstring) (archive : list byte)
    (count : Z) : Prop :=
  yep_file_path st = Live file /\
  (exists f, yep_file st = Some f /\ content f = archive) /\
  file_entry_count st = count.

(* The reader can take up the archive of [file]: it holds it already, or
   its cache holds no path or another one. *)
Definition reader_ready (st : reader) (file : list byte) (archive : list byte)
    (count : Z) : Prop :=
  holds_archive st (c_str file) archive count \/
  (yep_file_path st <> Freed /\
   (forall p, yep_file_path st = Live p -> strcmp_eq p file = false) /\
   0 <= file_version_number st < 256).

(* inflate gives back the source of a node from what deflate made of it. *)
Definition restorable (zl : zlib) (fs : filesys) (node : yep_header_node) : Prop :=
  forall bytes,
    file_bytes fs (fullpath node) = Some bytes ->
    256 < zlen bytes ->
    z_inflate zl (snd (z_deflate zl bytes (u32 (zlen bytes + zlen bytes / 10 + 12))))
              (zlen bytes)
    = (Z_STREAM_END, bytes).

(** ** More concrete inputs *)

(* The pack list and the archive of packing d of [example_fs] into out.yep
   with format version 1. *)
Definition example_nodes : list yep_header_node := pack_list_of example_fs 8 (s2b "d").

Definition example_archive : list byte :=
  archive_bytes 1 (map (stored_entry rle_zlib example_fs) example_nodes).

Definition example_packed : filesys :=
  with_file_bytes example_fs (s2b "out.yep") example_archive.

Definition a_txt_node : yep_header_node := new_node (s2b "a.txt") (s2b "d/a.txt").
Definition b_bin_node : yep_header_node := new_node (s2b "sub/b.bin") (s2b "d/sub/b.bin").

(* Path resolution takes a run of slashes for one slash. *)
Fixpoint squeeze_slashes (path : cstring) : cstring :=
  match path with
  | [] => []
  | a :: rest =>
      match rest with
      | b :: _ =>
          if Byte.eqb a slash && Byte.eqb b slash then squeeze_slashes rest
          else a :: squeeze_slashes rest
      | [] => [a]
      end
  end.

(* A file name of 250 backslashes and the letter s. *)
Definition odd_name : cstring := repeat backslash 250 ++ s2b "s".

(* The path the walk makes of the entry [odd_name] of d. *)
Definition long_way : cstring := s2b "d/" ++ repeat slash 250 ++ s2b "s".

(* A directory d that holds the directory s, with the files abc and abcd,
   and a file named [odd_name].  The walk turns the backslashes of that
   name into slashes and asks for [long_way], which path resolution takes
   for d/s: it comes to s a second time, by a path so long that a name
   derived there is cut to 255 bytes before the slashes in front are
   skipped, and abcd loses its last letter. *)
Definition long_way_fs : filesys :=
  {| SDL_GetPathInfo := fun p =>
       let q := squeeze_slashes p in
       if bytes_eqb q (s2b "d") then Some (path_info SDL_PATHTYPE_DIRECTORY 20)
       else if bytes_eqb q (s2b "d/s") then Some (path_info SDL_PATHTYPE_DIRECTORY 10)
       else if bytes_eqb q (s2b "d/s/abc") then Some (path_info SDL_PATHTYPE_FILE 10)
       else if bytes_eqb q (s2b "d/s/abcd") then Some (path_info SDL_PATHTYPE_FILE 10)
       else if bytes_eqb q (s2b "d/" ++ odd_name) then Some (path_info SDL_PATHTYPE_FILE 10)
       else None;
     dir_entries := fun p =>
       let q := squeeze_slashes p in
       if bytes_eqb q (s2b "d") then [s2b "s"; odd_name]
       else if bytes_eqb q (s2b "d/s") then [s2b "abc"; s2b "abcd"]
       else [];
     file_bytes := fun p =>
       let q := squeeze_slashes p in
       if bytes_eqb q (s2b "d/s/abc") then Some (s2b "first")
       else if bytes_eqb q (s2b "d/s/abcd") then Some (s2b "second")
       else if bytes_eqb q (s2b "d/" ++ odd_name) then Some []
       else None;
     creatable := fun _ => true;
     partly_written := fun _ _ => Some [] |}.



(* A directory d whose only file, big, holds 4 GiB and five bytes. *)
Definition huge_bytes : list byte := repeat x61 (Z.to_nat 4294967301).

Definition huge_fs : filesys :=
  {| SDL_GetPathInfo := fun p =>
       if bytes_eqb p (s2b "d") then Some (path_info SDL_PATHTYPE_DIRECTORY 20)
       else if bytes_eqb p (s2b "d/big") then Some (path_info SDL_PATHTYPE_FILE 10)
       else None;
     dir_entries := fun p => if bytes_eqb p (s2b "d") then [s2b "big"] else [];
     file_bytes := fun p => if bytes_eqb p (s2b "d/big") then Some huge_bytes else None;
     creatable := fun _ => true;
     partly_written := fun _ _ => Some [] |}.

Definition huge_node : yep_header_node := new_node (s2b "big") (s2b "d/big").

(* A directory with a name of 64 bytes, one of 63 bytes and a short one. *)
Definition name64 : cstring := repeat x61 64.
Definition name63 : cstring := repeat x62 63.

Definition long_names_fs : filesys :=
  {| SDL_GetPathInfo := fun p =>
       if bytes_eqb p (s2b "r") then Some (path_info SDL_PATHTYPE_DIRECTORY 20)
       else Some (path_info SDL_PATHTYPE_FILE 10);
     dir_entries := fun p =>
       if bytes_eqb p (s2b "r") then [name64; name63; s2b "z"] else [];
     file_bytes := fun _ => Some (s2b "data");
     creatable := fun _ => true;
     partly_written := fun _ _ => Some [] |}.



(* An archive with two deflated entries that claim an uncompressed size of
   four: y, whose stream is sound and decodes to five bytes, and z, whose
   stream is cut off in the middle of a pair. *)
Definition long_entry : entry :=
  {| entry_name := s2b "y" ++ repeat x00 63;
     entry_payload := [x05; x61];
     entry_compression := YEP_COMPRESSION_ZLIB;
     entry_uncompressed_size := 4 |}.

Definition torn_entry : entry :=
  {| entry_name := s2b "z" ++ repeat x00 63;
     entry_payload := [x05];
     entry_compression := YEP_COMPRESSION_ZLIB;
     entry_uncompressed_size := 4 |}.

Definition long_disk : filesys :=
  with_file_bytes example_fs (s2b "long.yep") (archive_bytes 1 [long_entry; torn_entry]).

(* An archive of 81 bytes whose only record, x, is stored uncompressed
   and gives 0xFFFFFFFF as its size. *)
Definition wide_archive : list byte :=
  [x01; x01; x00] ++ (s2b "x" ++ repeat x00 63) ++ le_bytes 4 81
  ++ [xff; xff; xff; xff] ++ [x00] ++ le_bytes 4 0 ++ [x00].

Definition wide_disk : filesys :=
  with_file_bytes example_fs (s2b "wide.yep") wide_archive.







(* The reader once out.yep of [example_disk] is open. *)
Definition opened_reader : reader :=
  match _yep_open_file example_disk 1 (s2b "out.yep") reader_init with
  | Done (_, st) => st
  | _ => reader_init
  end.

(* [example_disk] with a file of no bytes beside the archives. *)
Definition empty_file_disk : filesys :=
  with_file_bytes example_disk (s2b "empty.yep") [].

(* A directory d whose only file, k, cannot be opened for reading. *)
Definition locked_fs : filesys :=
  {| SDL_GetPathInfo := fun p =>
       if bytes_eqb p (s2b "d") then Some (path_info SDL_PATHTYPE_DIRECTORY 20)
       else if bytes_eqb p (s2b "d/k") then Some (path_info SDL_PATHTYPE_FILE 10)
       else None;
     dir_entries := fun p => if bytes_eqb p (s2b "d") then [s2b "k"] else [];
     file_bytes := fun _ => None;
     creatable := fun _ => true;
     partly_written := fun _ _ => Some [] |}.

(* [example_fs] with no file that can be opened for writing, and the
   engine after a forced pack of d that failed there. *)
Definition sealed_fs : filesys :=
  {| SDL_GetPathInfo := SDL_GetPathInfo example_fs;
     dir_entries := dir_entries example_fs;
     file_bytes := file_bytes example_fs;
     creatable := fun _ => false;
     partly_written := partly_written example_fs |}.

Definition failed_engine : engine :=
  match yep_force_pack_directory rle_zlib sealed_fs 1 8 (s2b "d") (s2b "out.yep")
                                 engine_init with
  | Done (_, e, _) => e
  | _ => engine_init
  end.


(* A codec whose deflateInit fails. *)
Definition broken_zlib : zlib :=
  {| z_deflateInit := -2;
     z_deflate := z_deflate rle_zlib;
     z_inflateInit := Z_OK;
     z_inflate := z_inflate rle_zlib |}.

(* What the callback makes of a file below the root [root]. *)
Definition relative_to (root : cstring) (node : yep_header_node) : Prop :=
  let normalized_root := normalize_path_separators (firstn full_path_chars root) in
  let derived := c_str (name node) in
  ~ In backslash derived /\
  (forall rest, derived <> slash :: rest) /\
  zlen derived <= 63 /\
  ~ In backslash (fullpath node) /\
  exists seps cut,
    fullpath node = normalized_root ++ seps ++ derived ++ cut /\
    Forall (fun b => b = slash) seps /\
    ((length (fullpath node) <= length normalized_root + relative_path_chars)%nat ->
     cut = []).

(* The archive of [example_fs] cut off after 170 bytes, in the middle of
   the ten bytes of a.txt, which begin at byte 163. *)
Definition cut_disk : filesys :=
  with_file_bytes example_fs (s2b "cut.yep") (firstn 170 example_archive).

(** * Properties *)

(** ** Bytes and little-endian integers *)

Lemma Z_of_byte_range b : 0 <= Z_of_byte b < 256.
Proof.
  unfold Z_of_byte. pose proof (Byte.to_N_bounded b). lia.
Qed.

Lemma byte_of_Z_of_byte b : byte_of_Z (Z_of_byte b) = b.
Proof.
  unfold byte_of_Z. rewrite Z.mod_small by apply Z_of_byte_range.
  unfold Z_of_byte. rewrite N2Z.id, Byte.of_to_N. reflexivity.
Qed.

Lemma Z_of_byte_of_Z z : Z_of_byte (byte_of_Z z) = z mod 256.
Proof.
  unfold byte_of_Z, Z_of_byte.
  pose proof (Z.mod_pos_bound z 256 ltac:(lia)) as Hb.
  destruct (Byte.of_N (Z.to_N (z mod 256))) as [b|] eqn:E.
  - apply Byte.to_of_N in E. rewrite E. lia.
  - apply Byte.of_N_None_iff in E. lia.
Qed.

Lemma length_le_bytes w z : length (le_bytes w z) = w.
Proof. revert z. induction w; simpl; intros; auto. Qed.

Lemma le_value_le_bytes w z : le_value (le_bytes w z) = z mod 256 ^ Z.of_nat w.
Proof.
  revert z. induction w; intros z.
  - simpl. now rewrite Z.mod_1_r.
  - cbn [le_bytes le_value]. rewrite IHw, Z_of_byte_of_Z.
    rewrite Nat2Z.inj_succ, Z.pow_succ_r by lia.
    rewrite Z.rem_mul_r by lia. lia.
Qed.

Lemma le_value_le_bytes_small w z :
  0 <= z < 256 ^ Z.of_nat w -> le_value (le_bytes w z) = z.
Proof. intros H. rewrite le_value_le_bytes. now apply Z.mod_small. Qed.

Lemma byte_eqb_refl b : Byte.eqb b b = true.
Proof. now apply Byte.byte_dec_lb. Qed.

Lemma byte_eqb_eq a b : Byte.eqb a b = true <-> a = b.
Proof. split; [apply Byte.byte_dec_bl | apply Byte.byte_dec_lb]. Qed.

Lemma byte_eqb_neq a b : Byte.eqb a b = false <-> a <> b.
Proof.
  split.
  - apply Byte.eqb_false.
  - intros H. destruct (Byte.eqb a b) eqn:E; auto.
    apply byte_eqb_eq in E. contradiction.
Qed.

Lemma byte_eqb_sym a b : Byte.eqb a b = Byte.eqb b a.
Proof.
  destruct (Byte.eqb b a) eqn:E.
  - apply byte_eqb_eq in E. subst. apply byte_eqb_refl.
  - apply byte_eqb_neq in E. apply byte_eqb_neq. congruence.
Qed.

Lemma bytes_eqb_eq a b : bytes_eqb a b = true <-> a = b.
Proof.
  revert b. induction a as [|x a IH]; intros [|y b]; simpl; split; intros H;
    try reflexivity; try discriminate.
  - apply andb_true_iff in H. destruct H as [H1 H2].
    apply byte_eqb_eq in H1. apply IH in H2. congruence.
  - inversion H; subst. rewrite byte_eqb_refl. simpl. now apply IH.
Qed.

Lemma bytes_eqb_refl a : bytes_eqb a a = true.
Proof. now apply bytes_eqb_eq. Qed.

Lemma bytes_eqb_neq a b : bytes_eqb a b = false <-> a <> b.
Proof.
  split; intros H.
  - intros E. apply bytes_eqb_eq in E. congruence.
  - destruct (bytes_eqb a b) eqn:E; auto. apply bytes_eqb_eq in E. contradiction.
Qed.

Lemma bytes_eqb_sym a b : bytes_eqb a b = bytes_eqb b a.
Proof.
  destruct (bytes_eqb b a) eqn:E.
  - apply bytes_eqb_eq in E. subst. apply bytes_eqb_refl.
  - apply bytes_eqb_neq in E. apply bytes_eqb_neq. congruence.
Qed.

(** ** Buffers *)

Lemma zlen_app {A} (a b : list A) : zlen (a ++ b) = zlen a + zlen b.
Proof. unfold zlen. rewrite length_app. lia. Qed.

Lemma zlen_nonneg {A} (a : list A) : 0 <= zlen a.
Proof. unfold zlen. lia. Qed.

Lemma load_map_Some l : load (map Some l) = Some l.
Proof. induction l as [|b l IH]; simpl; [reflexivity | now rewrite IH]. Qed.


Lemma length_malloc n : length (malloc n) = Z.to_nat n.
Proof. unfold malloc. apply repeat_length. Qed.

Lemma length_store dst src :
  length (store dst src) = Nat.max (length dst) (length src).
Proof.
  unfold store. rewrite length_app, length_map, length_skipn. lia.
Qed.

Lemma store_exact dst src :
  length dst = length src -> store dst src = map Some src.
Proof.
  intros H. unfold store. rewrite <- H, skipn_all. apply app_nil_r.
Qed.

Lemma firstn_store dst src :
  firstn (length src) (store dst src) = map Some src.
Proof.
  unfold store. rewrite firstn_app, length_map, Nat.sub_diag. simpl.
  rewrite app_nil_r. apply firstn_all2. rewrite length_map. lia.
Qed.

(** ** C strings *)

Lemma no_nul_cons b s : no_nul (b :: s) <-> b <> x00 /\ no_nul s.
Proof.
  unfold no_nul. simpl. split.
  - intros H. split; intros E; apply H; auto.
  - intros [H1 H2] [E|E]; auto.
Qed.

Lemma no_nul_app a b : no_nul (a ++ b) <-> no_nul a /\ no_nul b.
Proof.
  unfold no_nul. split.
  - intros H. split; intros E; apply H, in_or_app; auto.
  - intros [H1 H2] E. apply in_app_or in E. tauto.
Qed.

Lemma c_str_no_nul s : no_nul (c_str s).
Proof.
  induction s as [|b s IH]; simpl.
  - intros [].
  - destruct (Byte.eqb b x00) eqn:E.
    + intros [].
    + apply no_nul_cons. split; [now apply byte_eqb_neq | assumption].
Qed.

Lemma c_str_id s : no_nul s -> c_str s = s.
Proof.
  induction s as [|b s IH]; simpl; intros H; [reflexivity|].
  apply no_nul_cons in H. destruct H as [H1 H2].
  apply byte_eqb_neq in H1. rewrite H1. f_equal. now apply IH.
Qed.

Lemma c_str_idem s : c_str (c_str s) = c_str s.
Proof. apply c_str_id, c_str_no_nul. Qed.

Lemma c_str_padded s k : no_nul s -> c_str (s ++ repeat x00 k) = s.
Proof.
  induction s as [|b s IH]; simpl; intros H.
  - destruct k; reflexivity.
  - apply no_nul_cons in H. destruct H as [H1 H2].
    apply byte_eqb_neq in H1. rewrite H1. f_equal. now apply IH.
Qed.

Lemma no_nul_firstn n s : no_nul s -> no_nul (firstn n s).
Proof.
  intros H E. apply H. rewrite <- (firstn_skipn n s). apply in_or_app. auto.
Qed.

Lemma no_nul_skipn n s : no_nul s -> no_nul (skipn n s).
Proof.
  intros H E. apply H. rewrite <- (firstn_skipn n s). apply in_or_app. auto.
Qed.

Lemma strcmp_cells_padded s h k :
  no_nul s -> no_nul h -> (1 <= k)%nat ->
  strcmp_cells h (map Some (s ++ repeat x00 k)) = Some (bytes_eqb h s).
Proof.
  intros Hs. revert h. induction s as [|b s IH]; intros h Hh Hk.
  - destruct k as [|k]; [lia|].
    destruct h as [|c h]; [reflexivity|].
    cbn [app repeat map strcmp_cells bytes_eqb].
    apply no_nul_cons in Hh. destruct Hh as [Hc _].
    assert (E : Byte.eqb x00 c = false) by (apply byte_eqb_neq; congruence).
    now rewrite E.
  - apply no_nul_cons in Hs. destruct Hs as [Hb Hs].
    destruct h as [|c h]; cbn [app repeat map strcmp_cells bytes_eqb].
    + apply byte_eqb_neq in Hb. now rewrite Hb.
    + apply no_nul_cons in Hh. destruct Hh as [_ Hh].
      rewrite (byte_eqb_sym c b).
      destruct (Byte.eqb b c); cbn [andb]; [now apply IH | reflexivity].
Qed.

(** ** Staleness *)

(** C7: is_dir_outofdate answers true exactly when the source path is an
    existing directory, the archive path is an existing regular file, and
    the modification time of the directory is strictly greater than that of
    the file; in every other case (a path missing or of the wrong type, or
    the directory not newer, equal timestamps included) it answers false. *)
Theorem is_dir_outofdate_is_stale (fs : filesys) (target_directory yep_file_path : list byte) :
  fst (is_dir_outofdate fs target_directory yep_file_path)
  = is_stale fs target_directory yep_file_path
  /\ (is_stale fs target_directory yep_file_path = true <->
      exists dir_info yep_info,
        SDL_GetPathInfo fs (c_str target_directory) = Some dir_info /\
        SDL.type dir_info = SDL_PATHTYPE_DIRECTORY /\
        SDL_GetPathInfo fs (c_str yep_file_path) = Some yep_info /\
        SDL.type yep_info = SDL_PATHTYPE_FILE /\
        SDL.modify_time dir_info > SDL.modify_time yep_info).
Proof.
  split.
  - unfold is_dir_outofdate, is_stale, yep_get_path_info.
    destruct (SDL_GetPathInfo fs (c_str target_directory)) as [di|]; [|reflexivity].
    destruct (SDL.type di) eqn:Td; cbn [SDL_PathType_eqb negb fst];
      try (destruct (SDL_GetPathInfo fs (c_str yep_file_path)); reflexivity).
    destruct (SDL_GetPathInfo fs (c_str yep_file_path)) as [yi|]; [|reflexivity].
    destruct (SDL.type yi) eqn:Ty; cbn [SDL_PathType_eqb negb fst]; try reflexivity.
    rewrite Z.gtb_ltb.
    destruct (SDL.modify_time yi <? SDL.modify_time di); reflexivity.
  - unfold is_stale. split.
    + destruct (SDL_GetPathInfo fs (c_str target_directory)) as [di|]; [|discriminate].
      destruct (SDL_GetPathInfo fs (c_str yep_file_path)) as [yi|];
        [|destruct (SDL.type di); discriminate].
      destruct (SDL.type di) eqn:Td; try discriminate.
      destruct (SDL.type yi) eqn:Ty; try discriminate.
      intros H. apply Z.ltb_lt in H. exists di, yi. repeat split; auto. lia.
    + intros (di & yi & -> & Td & -> & Ty & H). rewrite Td, Ty.
      apply Z.ltb_lt. lia.
Qed.

(** ** The codec adapter *)

Lemma decompress_data_cases (zl : zlib) (input : list byte) (input_size output_size : Z) :
  let r := z_inflate zl (firstn (Z.to_nat (u32 input_size)) input) (u32 output_size) in
  (z_inflateInit zl <> Z_OK /\
   decompress_data zl input input_size output_size
   = (-1, None, [(yep_log_error, InflateInitError (z_inflateInit zl))])) \/
  (z_inflateInit zl = Z_OK /\ fst r <> Z_STREAM_END /\
   decompress_data zl input input_size output_size
   = (-1, None, [(yep_log_error, ErrorDecompressingData)])) \/
  (z_inflateInit zl = Z_OK /\ fst r = Z_STREAM_END /\ zlen (snd r) <> output_size /\
   decompress_data zl input input_size output_size
   = (-1, Some (store (malloc output_size) (snd r)),
      [(yep_log_error, DecompressedSizeMismatch)])) \/
  (z_inflateInit zl = Z_OK /\ fst r = Z_STREAM_END /\ zlen (snd r) = output_size /\
   decompress_data zl input input_size output_size = (0, Some (map Some (snd r)), [])).
Proof.
  intros r. unfold decompress_data. fold r.
  destruct (z_inflateInit zl =? Z_OK) eqn:Ei; cbn [negb].
  - apply Z.eqb_eq in Ei. right.
    destruct r as [status produced] eqn:Er. cbn [fst snd].
    destruct (status =? Z_STREAM_END) eqn:Es; cbn [negb].
    + apply Z.eqb_eq in Es. right.
      destruct (output_size =? zlen produced) eqn:Eo; cbn [negb].
      * apply Z.eqb_eq in Eo. right. repeat split; auto.
        rewrite store_exact; [reflexivity|].
        rewrite length_malloc. unfold zlen in Eo. lia.
      * apply Z.eqb_neq in Eo. left. repeat split; auto.
    + apply Z.eqb_neq in Es. left. repeat split; auto.
  - apply Z.eqb_neq in Ei. left. split; auto.
Qed.

Lemma seek_header_file (handle : list byte) (v v' : header_vars) (st st' : reader) b :
  _yep_seek_header handle v st = Done (b, v', st') ->
  exists f, yep_file st' = Some f.
Proof.
  unfold _yep_seek_header. destruct (yep_file st) as [f|]; [|discriminate].
  destruct (seek_loop _ _ _ _) as [[[b' v''] f']| | |]; cbn [obind]; try discriminate.
  intros H. inversion H; subst. exists f'. reflexivity.
Qed.

Lemma yep_extract_data_found zl fs V file handle st st1 v st2 :
  _yep_open_file fs V file st = Done (true, st1) ->
  _yep_seek_header handle header_vars_uninit st1 = Done (true, v, st2) ->
  yep_extract_data zl fs V file handle st = extract_found zl v st2.
Proof.
  intros Ho Hs. unfold yep_extract_data. rewrite Ho. cbn [obind negb].
  rewrite Hs. reflexivity.
Qed.

Lemma use_int_Some c z : int_of_cells c = Some z -> use_int c = Done z.
Proof. unfold use_int. now intros ->. Qed.

Lemma use_int_Done c z : use_int c = Done z -> int_of_cells c = Some z.
Proof. unfold use_int. destruct (int_of_cells c); congruence. Qed.





Lemma header_vars_uninit_shaped : vars_shaped header_vars_uninit.
Proof. repeat split. Qed.





(** ** Extraction *)

Lemma length_firstn_le {A} n (l : list A) : (length (firstn n l) <= n)%nat.
Proof. rewrite length_firstn. lia. Qed.

(** ** The cached handle *)

Lemma strcmp_eq_c_str file : strcmp_eq (c_str file) file = true.
Proof. unfold strcmp_eq. rewrite c_str_idem. apply bytes_eqb_refl. Qed.

(* An open of the path the cache holds returns at once. *)
Lemma open_cached fs V file st :
  yep_file_path st = Live (c_str file) ->
  _yep_open_file fs V file st = Done (true, st).
Proof.
  intros H. unfold _yep_open_file. rewrite H, strcmp_eq_c_str. reflexivity.
Qed.

Lemma skipn_zlen_app {A} (a b : list A) : skipn (Z.to_nat (zlen a)) (a ++ b) = b.
Proof.
  unfold zlen. rewrite Nat2Z.id, skipn_app, skipn_all, Nat.sub_diag. reflexivity.
Qed.

Lemma firstn_zlen_app {A} (a b : list A) : firstn (Z.to_nat (zlen a)) (a ++ b) = a.
Proof.
  unfold zlen. rewrite Nat2Z.id, firstn_app, firstn_all, Nat.sub_diag. simpl.
  apply app_nil_r.
Qed.

(* Reading a block that lies within the file. *)
Lemma fread_within f a b c n :
  content f = a ++ b ++ c -> pos f = zlen a -> n = zlen b ->
  fread n f = (b, {| fd := fd f; content := content f; pos := zlen a + zlen b |}).
Proof.
  intros Hc Hp ->. unfold fread. rewrite Hc, Hp, skipn_zlen_app, firstn_zlen_app.
  reflexivity.
Qed.

Lemma fread_int_within width old f a b c :
  content f = a ++ b ++ c -> pos f = zlen a -> length b = width ->
  fread_int width old f
  = (le_value b, {| fd := fd f; content := content f; pos := zlen a + zlen b |}).
Proof.
  intros Hc Hp Hl. unfold fread_int.
  rewrite (fread_within f a b c) by (auto; unfold zlen; now rewrite Hl).
  rewrite skipn_all2 by (rewrite length_le_bytes; lia).
  rewrite app_nil_r. reflexivity.
Qed.

Lemma fread_cells_within dst f a b c n :
  content f = a ++ b ++ c -> pos f = zlen a -> n = zlen b ->
  length dst = length b ->
  fread_cells n dst f
  = (map Some b, {| fd := fd f; content := content f; pos := zlen a + zlen b |}).
Proof.
  intros Hc Hp Hn Hl. unfold fread_cells.
  rewrite (fread_within f a b c) by auto. now rewrite store_exact.
Qed.

(* What an open that reaches the header reads from a file of at least
   three bytes. *)
Lemma open_reads_header fs V file st v c0 c1 rest :
  match yep_file_path st with
  | NULL => True
  | Live p => strcmp_eq p file = false
  | Freed => False
  end ->
  file_bytes fs (c_str file) = Some (v :: c0 :: c1 :: rest) ->
  let version := 256 * (file_version_number st / 256) + Z_of_byte v in
  let st2 :=
    {| yep_file_path := Live (c_str file);
       yep_file := Some {| fd := next_fd st; content := v :: c0 :: c1 :: rest; pos := 3 |};
       file_entry_count := Z_of_byte c0 + 256 * Z_of_byte c1;
       file_version_number := version;
       open_streams := next_fd st :: open_streams st;
       next_fd := S (next_fd st);
       out := out st |} in
  _yep_open_file fs V file st
  = if negb (version =? V) then
      Done (false, logged st2 (yep_logf yep_log_error (VersionMismatch version V)))
    else Done (true, st2).
Proof.
  intros Hp Hb version st2. unfold _yep_open_file.
  assert (Hcache : match yep_file_path st with
                   | Live p => strcmp_eq p file
                   | _ => false
                   end = false).
  { destruct (yep_file_path st); auto; contradiction. }
  rewrite Hcache.
  destruct (yep_file_path st) eqn:Ep; try contradiction.
  all: unfold fopen_rb; rewrite Hb.
  all: rewrite (fread_int_within 1 _ _ [] [v] (c0 :: c1 :: rest)) by reflexivity.
  all: rewrite (fread_int_within 2 _ _ [v] [c0; c1] rest) by reflexivity.
  all: cbn [le_value fd content pos file_version_number file_entry_count
            open_streams next_fd out].
  all: replace (256 * (file_version_number st / 256) + (Z_of_byte v + 256 * 0))
         with version by (unfold version; lia).
  all: replace (Z_of_byte c0 + 256 * (Z_of_byte c1 + 256 * 0))
         with (Z_of_byte c0 + 256 * Z_of_byte c1) by lia.
  all: reflexivity.
Qed.

(** C9: the open of an archive whose version byte differs from the
    supported version returns false but leaves the path, the stream and the
    entry count of that archive in the cache; from then on every open of
    the path returns true without reading the header again, and
    yep_item_exists and yep_extract_data go on to search the table of the
    archive. *)
Theorem failed_open_stays_cached zl fs V file st v c0 c1 rest :
  yep_file_path st <> Freed ->
  (forall p, yep_file_path st = Live p -> strcmp_eq p file = false) ->
  0 <= file_version_number st < 256 ->
  file_bytes fs (c_str file) = Some (v :: c0 :: c1 :: rest) ->
  Z_of_byte v <> V ->
  exists st1,
    _yep_open_file fs V file st = Done (false, st1) /\
    yep_file_path st1 = Live (c_str file) /\
    file_entry_count st1 = Z_of_byte c0 + 256 * Z_of_byte c1 /\
    file_version_number st1 = Z_of_byte v /\
    (exists f, yep_file st1 = Some f /\ content f = v :: c0 :: c1 :: rest) /\
    (forall st', yep_file_path st' = Live (c_str file) ->
                 _yep_open_file fs V file st' = Done (true, st')) /\
    (forall handle,
       yep_item_exists fs V file handle st1
       = (' (found, v, st2) <- _yep_seek_header handle header_vars_uninit st1 ;;
          Done (found, st2))) /\
    (forall handle,
       yep_extract_data zl fs V file handle st1
       = (' (found, v, st2) <- _yep_seek_header handle header_vars_uninit st1 ;;
          if negb found then
            Done (no_data,
                  logged st2 (yep_logf yep_log_warning
                                (HandleDoesNotExist (c_str handle) (c_str file))))
          else extract_found zl v st2)).
Proof.
  intros Hp Hq Hv Hb Hne.
  rewrite (open_reads_header fs V file st v c0 c1 rest)
    by (auto; destruct (yep_file_path st); auto).
  rewrite (Z.div_small (file_version_number st)) by lia.
  replace (256 * 0 + Z_of_byte v) with (Z_of_byte v) by lia.
  destruct (Z_of_byte v =? V) eqn:E; [apply Z.eqb_eq in E; contradiction|].
  cbn [negb]. eexists. split; [reflexivity|].
  cbn [logged yep_file_path file_entry_count file_version_number yep_file].
  repeat split; try reflexivity.
  - eexists. split; [reflexivity|]. reflexivity.
  - intros st' H'. now apply open_cached.
  - intros handle. unfold yep_item_exists. rewrite open_cached by reflexivity.
    reflexivity.
  - intros handle. unfold yep_extract_data. rewrite open_cached by reflexivity.
    reflexivity.
Qed.

(* Opening another archive enters a new stream in the table of the process
   and takes none out of it. *)
Lemma open_other_keeps_streams fs V file st v c0 c1 rest r st' :
  yep_file_path st <> Freed ->
  (forall p, yep_file_path st = Live p -> strcmp_eq p file = false) ->
  file_bytes fs (c_str file) = Some (v :: c0 :: c1 :: rest) ->
  _yep_open_file fs V file st = Done (r, st') ->
  open_streams st' = next_fd st :: open_streams st.
Proof.
  intros Hp Hq Hb.
  rewrite (open_reads_header fs V file st v c0 c1 rest)
    by (auto; destruct (yep_file_path st); auto).
  destruct (negb _); intros H; inversion H; reflexivity.
Qed.

(** C3: with out.yep open and cached, the open of other.yep succeeds and
    leaves two streams in the table of the process: the stream of out.yep
    (number 0) is not closed, the new one (number 1) is added. *)
Theorem second_open_keeps_first_stream :
  match _yep_open_file example_disk 1 (s2b "out.yep") reader_init with
  | Done (true, st1) =>
      open_streams st1 = [0%nat] /\
      match _yep_open_file example_disk 1 (s2b "other.yep") st1 with
      | Done (true, st2) =>
          open_streams st2 = [1%nat; 0%nat] /\
          option_map fd (yep_file st2) = Some 1%nat /\
          yep_file_path st2 = Live (s2b "other.yep")
      | _ => False
      end
  | _ => False
  end.
Proof. vm_compute. repeat split. Qed.

(** C6: old.yep carries version byte 2 and the engine supports version 1.
    The first open fails with the version line logged; the second open of
    the same path returns true, with no further line logged. *)
Theorem mismatched_version_opens_second_time :
  match _yep_open_file example_disk 1 (s2b "old.yep") reader_init with
  | Done (false, st1) =>
      out st1 = [(yep_log_error, VersionMismatch 2 1)] /\
      _yep_open_file example_disk 1 (s2b "old.yep") st1 = Done (true, st1)
  | _ => False
  end.
Proof. vm_compute. repeat split. Qed.

(** ** The pack list builder *)

Lemma no_nul_normalize s : no_nul s -> no_nul (normalize_path_separators s).
Proof.
  unfold no_nul, normalize_path_separators. intros H E.
  apply in_map_iff in E. destruct E as (b & Eb & Hb).
  destruct (Byte.eqb b backslash) eqn:Ebs.
  - discriminate.
  - subst b. contradiction.
Qed.

Lemma no_nul_with_trailing_separator s :
  no_nul s -> no_nul (with_trailing_separator s).
Proof.
  intros H. unfold with_trailing_separator.
  assert (Ha : no_nul (s ++ [slash])).
  { apply no_nul_app. split; [assumption|]. intros [E|[]]. discriminate. }
  destruct (rev s) as [|b r]; [assumption|].
  destruct (Byte.eqb b slash); assumption.
Qed.

Lemma no_nul_full_path dirname fname :
  no_nul (normalize_path_separators (firstn full_path_chars (c_str dirname ++ c_str fname))).
Proof.
  apply no_nul_normalize, no_nul_firstn, no_nul_app. split; apply c_str_no_nul.
Qed.

Lemma no_nul_skip_separators s : no_nul s -> no_nul (skip_separators s).
Proof.
  induction s as [|b s IH]; simpl; intros H; [assumption|].
  destruct (is_separator b); [|assumption].
  apply IH. apply no_nul_cons in H. tauto.
Qed.

Lemma relative_path_no_nul root dirname full_path r :
  no_nul full_path ->
  relative_path_of root dirname full_path = Done (Some r) -> no_nul r.
Proof.
  intros Hf. unfold relative_path_of. destruct root as [root|].
  - generalize (normalize_path_separators (firstn full_path_chars root)) as nroot.
    intros nroot.
    destruct (bytes_eqb (firstn (length nroot) full_path) nroot); [|discriminate].
    pose proof (no_nul_skipn (length nroot) full_path Hf) as Hs.
    destruct (skipn (length nroot) full_path) as [|b rest].
    + intros H. inversion H. assumption.
    + apply no_nul_cons in Hs.
      destruct (is_separator b); intros H; inversion H; subst.
      * tauto.
      * apply no_nul_cons. assumption.
  - destruct (_ <? _)%nat; [discriminate|].
    intros H. inversion H. now apply no_nul_skipn.
Qed.

(* With the root path set the callback always has a relative path or
   finds the file outside the root. *)
Lemma relative_path_of_root root dirname full_path :
  exists r, relative_path_of (Some root) dirname full_path = Done r.
Proof.
  unfold relative_path_of.
  generalize (normalize_path_separators (firstn full_path_chars root)) as nroot.
  intros nroot.
  destruct (bytes_eqb (firstn (length nroot) full_path) nroot); eexists; reflexivity.
Qed.

Lemma final_relative_path_no_nul r : no_nul r -> no_nul (final_relative_path_of r).
Proof.
  intros H. unfold final_relative_path_of.
  now apply no_nul_skip_separators, no_nul_normalize, no_nul_firstn.
Qed.

Lemma new_node_wf final full_path :
  no_nul final -> zlen final <= 63 -> node_wf (new_node final full_path).
Proof.
  intros H1 H2. exists final. unfold zlen in H2. repeat split; auto. lia.
Qed.

Lemma strlen_no_nul s : no_nul s -> strlen s = zlen s.
Proof. intros H. unfold strlen. now rewrite c_str_id. Qed.

(* The callback on a regular file, with the root path set. *)
Lemma callback_on_file fs walk dirname fname st root path_info :
  let full_path :=
    normalize_path_separators (firstn full_path_chars (c_str dirname ++ c_str fname)) in
  yep_pack_root_path st = Some root ->
  SDL_GetPathInfo fs full_path = Some path_info ->
  SDL.type path_info = SDL_PATHTYPE_FILE ->
  let st1 := plog st (yep_logf yep_log_debug (RetrievedFileInfo full_path)) in
  _recurse_dir_callback fs walk dirname fname st
  = match relative_path_of (Some root) (c_str dirname) full_path with
    | Done (Some relative_path) =>
        let final_relative_path := final_relative_path_of relative_path in
        if zlen final_relative_path <=? 63 then
          Done (SDL_ENUM_CONTINUE, push_node (new_node final_relative_path full_path) st1)
        else
          Done (SDL_ENUM_CONTINUE,
                plog st1 (yep_logf yep_log_error (RelativePathTooLong full_path)))
    | _ =>
        Done (SDL_ENUM_CONTINUE,
              plog st1 (yep_logf yep_log_error
                          (NotWithinRoot full_path
                             (normalize_path_separators (firstn full_path_chars root)))))
    end.
Proof.
  intros full_path Hroot Hinfo Htype st1.
  unfold _recurse_dir_callback. fold full_path.
  unfold yep_get_path_info.
  assert (Hf : no_nul full_path) by apply no_nul_full_path.
  rewrite (c_str_id full_path) by assumption.
  rewrite Hinfo, Htype. fold st1.
  replace (yep_pack_root_path st1) with (Some root) by (symmetry; exact Hroot).
  clearbody full_path.
  destruct (relative_path_of_root root (c_str dirname) full_path) as [r Er].
  rewrite Er. cbn [obind]. destruct r as [r|]; [|reflexivity].
  rewrite strlen_no_nul.
  2:{ apply final_relative_path_no_nul.
      eapply relative_path_no_nul; [|exact Er]. assumption. }
  destruct (zlen (final_relative_path_of r) <=? 63) eqn:E1;
    destruct (zlen (final_relative_path_of r) + 1 >? 64) eqn:E2;
    try reflexivity.
  - apply Z.leb_le in E1. apply Z.gtb_lt in E2. lia.
  - apply Z.leb_gt in E1. rewrite Z.gtb_ltb in E2. apply Z.ltb_ge in E2. lia.
Qed.

(** C5: when the callback meets a regular file under the root whose derived
    name has 64 bytes or more, it logs the error that the relative path is
    too long, behind the line of yep_get_path_info, leaves the pack list as
    it is and answers SDL_ENUM_CONTINUE, so the enumeration goes on with
    the remaining entries; when the derived name has at most 63 bytes (63
    included) the file is put on the pack list under that name, no error is
    logged, and the enumeration goes on as well. *)
Theorem too_long_name_is_skipped fs walk dirname fname names st root path_info relative_path :
  let full_path :=
    normalize_path_separators (firstn full_path_chars (c_str dirname ++ c_str fname)) in
  let final_relative_path := final_relative_path_of relative_path in
  yep_pack_root_path st = Some root ->
  SDL_GetPathInfo fs full_path = Some path_info ->
  SDL.type path_info = SDL_PATHTYPE_FILE ->
  relative_path_of (Some root) (c_str dirname) full_path = Done (Some relative_path) ->
  (64 <= zlen final_relative_path ->
   exists st2,
     _recurse_dir_callback fs walk dirname fname st = Done (SDL_ENUM_CONTINUE, st2) /\
     printed st2
     = printed st ++ [(yep_log_debug, RetrievedFileInfo full_path);
                      (yep_log_error, RelativePathTooLong full_path)] /\
     yep_pack_list st2 = yep_pack_list st /\
     yep_pack_root_path st2 = yep_pack_root_path st /\
     enumerate (_recurse_dir_callback fs walk) dirname (fname :: names) st
     = enumerate (_recurse_dir_callback fs walk) dirname names st2)
  /\ (zlen final_relative_path <= 63 ->
      exists st2,
        _recurse_dir_callback fs walk dirname fname st = Done (SDL_ENUM_CONTINUE, st2) /\
        printed st2 = printed st ++ [(yep_log_debug, RetrievedFileInfo full_path)] /\
        head (yep_pack_list st2)
        = new_node final_relative_path full_path :: head (yep_pack_list st) /\
        entry_count (yep_pack_list st2) = entry_count (yep_pack_list st) + 1 /\
        c_str (name (new_node final_relative_path full_path)) = final_relative_path /\
        yep_pack_root_path st2 = yep_pack_root_path st /\
        enumerate (_recurse_dir_callback fs walk) dirname (fname :: names) st
        = enumerate (_recurse_dir_callback fs walk) dirname names st2).
Proof.
  intros full_path final Hroot Hinfo Htype Hrel.
  pose proof (callback_on_file fs walk dirname fname st root path_info
                Hroot Hinfo Htype) as Hcb.
  cbn zeta in Hcb. fold full_path in Hcb. rewrite Hrel in Hcb. fold final in Hcb.
  split; intros Hlen.
  - assert (E : (zlen final <=? 63) = false) by (apply Z.leb_gt; lia).
    rewrite E in Hcb. eexists. split; [exact Hcb|].
    split; [|split; [|split]].
    + cbn [plog printed yep_logf]. now rewrite <- app_assoc.
    + reflexivity.
    + reflexivity.
    + cbn [enumerate]. rewrite Hcb. reflexivity.
  - assert (E : (zlen final <=? 63) = true) by (apply Z.leb_le; lia).
    rewrite E in Hcb. eexists. split; [exact Hcb|].
    split; [|split; [|split; [|split; [|split]]]].
    + reflexivity.
    + reflexivity.
    + reflexivity.
    + unfold new_node. cbn [name]. apply c_str_padded.
      apply final_relative_path_no_nul.
      eapply relative_path_no_nul; [|exact Hrel]. apply no_nul_full_path.
    + reflexivity.
    + cbn [enumerate]. rewrite Hcb. reflexivity.
Qed.

(** *** The pack list is the reverse of the traversal *)

Lemma pushed_refl st : pushed st st [].
Proof. unfold pushed. cbn [rev app zlen length Z.of_nat]. repeat split. lia. Qed.

Lemma pushed_plog st lines : pushed st (plog st lines) [].
Proof. unfold pushed. cbn [rev app zlen length Z.of_nat plog yep_pack_list yep_pack_root_path].
  repeat split. lia. Qed.

Lemma pushed_trans st st1 st2 a b :
  pushed st st1 a -> pushed st1 st2 b -> pushed st st2 (a ++ b).
Proof.
  intros (H1 & H2 & H3) (K1 & K2 & K3). unfold pushed.
  rewrite K1, H1, K2, H2, K3, H3, rev_app_distr, zlen_app, app_assoc.
  repeat split. lia.
Qed.

Lemma pushed_push_node st node : pushed st (push_node node st) [node].
Proof.
  unfold pushed, push_node. cbn. repeat split.
Qed.

Lemma callback_pushed fs fuel' dirname fname st r st1 :
  (forall dir s s', _yep_walk_directory_v2 fs fuel' dir s = Done s' ->
                    pushed s s' (traversal fs fuel' (yep_pack_root_path s) dir)) ->
  no_nul dirname ->
  _recurse_dir_callback fs (_yep_walk_directory_v2 fs fuel') dirname fname st
  = Done (r, st1) ->
  r = SDL_ENUM_CONTINUE /\
  pushed st st1
    (let full_path :=
       normalize_path_separators (firstn full_path_chars (dirname ++ c_str fname)) in
     match SDL_GetPathInfo fs full_path with
     | Some path_info =>
         match SDL.type path_info with
         | SDL_PATHTYPE_FILE =>
             match relative_path_of (yep_pack_root_path st) dirname full_path with
             | Done (Some relative_path) =>
                 let final_relative_path := final_relative_path_of relative_path in
                 if zlen final_relative_path <=? 63
                 then [new_node final_relative_path full_path]
                 else []
             | _ => []
             end
         | SDL_PATHTYPE_DIRECTORY =>
             traversal fs fuel' (yep_pack_root_path st) full_path
         | _ => []
         end
     | None => []
     end).
Proof.
  intros IH Hd. unfold _recurse_dir_callback, yep_get_path_info.
  rewrite (c_str_id dirname) by assumption.
  set (full_path := normalize_path_separators (firstn full_path_chars (dirname ++ c_str fname))).
  assert (Hf : no_nul full_path).
  { apply no_nul_normalize, no_nul_firstn, no_nul_app.
    split; [assumption | apply c_str_no_nul]. }
  rewrite (c_str_id full_path) by assumption. cbn zeta.
  destruct (SDL_GetPathInfo fs full_path) as [info|].
  2:{ intros H. inversion H; subst. split; [reflexivity | apply pushed_plog]. }
  set (st0 := plog st (yep_logf yep_log_debug (RetrievedFileInfo full_path))).
  assert (P0 : pushed st st0 []) by apply pushed_plog.
  change (yep_pack_root_path st0) with (yep_pack_root_path st).
  destruct (SDL.type info).
  - intros H. inversion H; subst. split; [reflexivity|].
    apply (pushed_trans st st0 _ [] []); [assumption | apply pushed_plog].
  - destruct (relative_path_of (yep_pack_root_path st) dirname full_path)
      as [[rel|]| | |] eqn:Er; cbn [obind]; try discriminate.
    + rewrite strlen_no_nul.
      2:{ apply final_relative_path_no_nul.
          eapply relative_path_no_nul; [|exact Er]. assumption. }
      destruct (zlen (final_relative_path_of rel) <=? 63) eqn:E1;
        destruct (zlen (final_relative_path_of rel) + 1 >? 64) eqn:E2.
      * apply Z.leb_le in E1. apply Z.gtb_lt in E2. lia.
      * intros H. inversion H; subst. split; [reflexivity|].
        apply (pushed_trans st st0 _ [] [_]); [assumption | apply pushed_push_node].
      * intros H. inversion H; subst. split; [reflexivity|].
        apply (pushed_trans st st0 _ [] []); [assumption | apply pushed_plog].
      * apply Z.leb_gt in E1. rewrite Z.gtb_ltb in E2. apply Z.ltb_ge in E2. lia.
    + intros H. inversion H; subst. split; [reflexivity|].
      apply (pushed_trans st st0 _ [] []); [assumption | apply pushed_plog].
  - destruct (_yep_walk_directory_v2 fs fuel' full_path st0) as [st2| | |] eqn:Ew;
      cbn [obind]; try discriminate.
    intros H. inversion H; subst. split; [reflexivity|].
    apply (pushed_trans st st0 _ [] _); [assumption|].
    apply IH in Ew. exact Ew.
  - intros H. inversion H; subst. split; [reflexivity|].
    apply (pushed_trans st st0 _ [] []); [assumption | apply pushed_plog].
Qed.

Lemma pushed_root st st' a : pushed st st' a -> yep_pack_root_path st' = yep_pack_root_path st.
Proof. now intros (_ & _ & H). Qed.

Lemma walk_pushed fs fuel :
  forall dir st st',
    _yep_walk_directory_v2 fs fuel dir st = Done st' ->
    pushed st st' (traversal fs fuel (yep_pack_root_path st) dir).
Proof.
  induction fuel as [|fuel' IH]; intros dir st st' H; [discriminate|].
  cbn [_yep_walk_directory_v2 traversal] in *. unfold yep_get_path_info in H.
  destruct (SDL_GetPathInfo fs (c_str dir)) as [info|].
  2:{ inversion H; subst. apply pushed_plog. }
  destruct (SDL.type info); cbn [SDL_PathType_eqb negb] in H;
    try (inversion H; subst;
         eapply (pushed_trans _ _ _ [] []); apply pushed_plog).
  unfold SDL_EnumerateDirectory in H.
  set (st0 := plog st (yep_logf yep_log_debug (RetrievedFileInfo (c_str dir)))) in *.
  assert (P0 : pushed st st0 []) by apply pushed_plog.
  apply (pushed_trans st st0 _ [] _); [assumption|].
  change (yep_pack_root_path st) with (yep_pack_root_path st0).
  assert (Hd : no_nul (with_trailing_separator (c_str dir)))
    by apply no_nul_with_trailing_separator, c_str_no_nul.
  revert H. generalize st0 as s. clear P0 st0.
  induction (dir_entries fs (c_str dir)) as [|fname names IHn]; intros s H.
  - cbn [enumerate] in H. inversion H; subst. apply pushed_refl.
  - cbn [enumerate] in H.
    destruct (_recurse_dir_callback fs (_yep_walk_directory_v2 fs fuel')
                (with_trailing_separator (c_str dir)) fname s)
      as [[r s1]| | |] eqn:Ec; cbn [obind] in H; try discriminate.
    destruct (callback_pushed _ _ _ _ _ _ _ IH Hd Ec) as [-> P1].
    cbn [flat_map]. eapply pushed_trans; [exact P1|].
    rewrite <- (pushed_root _ _ _ P1). apply IHn. exact H.
Qed.

Lemma traversal_wf fs fuel root dir : Forall node_wf (traversal fs fuel root dir).
Proof.
  revert dir. induction fuel as [|fuel' IH]; intros dir; cbn [traversal].
  - constructor.
  - destruct (SDL_GetPathInfo fs (c_str dir)) as [info|]; [|constructor].
    destruct (SDL.type info); try constructor.
    apply Forall_forall. intros node Hin. apply in_flat_map in Hin.
    destruct Hin as (fname & _ & Hin).
    set (dirname := with_trailing_separator (c_str dir)) in *.
    set (full_path := normalize_path_separators (firstn full_path_chars (dirname ++ c_str fname))) in *.
    assert (Hf : no_nul full_path).
    { apply no_nul_normalize, no_nul_firstn, no_nul_app. split.
      - apply no_nul_with_trailing_separator, c_str_no_nul.
      - apply c_str_no_nul. }
    destruct (SDL_GetPathInfo fs full_path) as [pi|]; [|contradiction].
    destruct (SDL.type pi); try contradiction.
    + destruct (relative_path_of root dirname full_path) as [[rel|]| | |] eqn:Er;
        try contradiction.
      destruct (zlen (final_relative_path_of rel) <=? 63) eqn:E; [|contradiction].
      destruct Hin as [<-|[]]. apply Z.leb_le in E.
      apply new_node_wf; [|assumption].
      apply final_relative_path_no_nul. eapply relative_path_no_nul; eauto.
    + pose proof (IH full_path) as Hw. rewrite Forall_forall in Hw. now apply Hw.
Qed.

(** ** The archive writer *)

Lemma content_fwrite data f : content (fwrite data f) = pwrite (pos f) data (content f).
Proof. reflexivity. Qed.

Lemma length_pwrite_prefix p (c : list byte) :
  length (firstn p c ++ repeat x00 (p - length c)) = p.
Proof. rewrite length_app, length_firstn, repeat_length. lia. Qed.

(* Two writes in a row are one write of the two blocks. *)
Lemma fwrite_app d1 d2 f :
  0 <= pos f -> fwrite d2 (fwrite d1 f) = fwrite (d1 ++ d2) f.
Proof.
  intros Hp. unfold fwrite. cbn [fd content pos].
  set (p := Z.to_nat (pos f)). set (c := content f).
  assert (Ep : Z.to_nat (pos f + zlen d1) = (p + length d1)%nat).
  { unfold zlen, p. lia. }
  rewrite Ep. f_equal.
  - set (A := firstn p c ++ repeat x00 (p - length c)).
    assert (LA : length A = p) by apply length_pwrite_prefix.
    replace (firstn p c ++ repeat x00 (p - length c) ++ d1 ++ skipn (p + length d1) c)
      with ((A ++ d1) ++ skipn (p + length d1) c)
      by (unfold A; now rewrite <- !app_assoc).
    assert (LAd : length (A ++ d1) = (p + length d1)%nat)
      by (rewrite length_app; lia).
    rewrite <- LAd at 1. rewrite firstn_app, firstn_all, Nat.sub_diag. cbn [firstn].
    rewrite app_nil_r.
    replace (p + length d1 - length ((A ++ d1) ++ skipn (p + length d1) c))%nat
      with 0%nat by (rewrite length_app; lia).
    cbn [repeat app].
    replace (p + length d1 + length d2)%nat with (length (A ++ d1) + length d2)%nat
      by lia.
    rewrite skipn_app. rewrite (skipn_all2 (A ++ d1)) by lia.
    replace (length (A ++ d1) + length d2 - length (A ++ d1))%nat with (length d2) by lia.
    rewrite skipn_skipn. cbn [app].
    rewrite length_app. unfold A. rewrite <- !app_assoc.
    replace (length d2 + (p + length d1))%nat with (p + (length d1 + length d2))%nat
      by lia.
    reflexivity.
  - unfold zlen. rewrite length_app. lia.
Qed.

Lemma pos_fwrite data f : pos (fwrite data f) = pos f + zlen data.
Proof. reflexivity. Qed.

Lemma content_write_data_to_pack f offset data :
  content (write_data_to_pack f offset data) = pwrite offset data (content f).
Proof. reflexivity. Qed.

Lemma update_header_fwrite f entry_index offset size compression_type uncompressed_size data_type :
  0 <= entry_index ->
  update_header f entry_index offset size compression_type uncompressed_size data_type
  = fwrite (le_bytes 4 offset ++ le_bytes 4 size ++ le_bytes 1 compression_type
            ++ le_bytes 4 uncompressed_size ++ le_bytes 1 data_type)
           (fseek f (3 + entry_index * 78 + 64)).
Proof.
  intros Hk. unfold update_header.
  change YEP_HEADER_SIZE_BYTES with 78.
  set (g := fseek f (3 + entry_index * 78 + 64)).
  assert (Hg : 0 <= pos g) by (unfold g, fseek; cbn [pos]; lia).
  rewrite (fwrite_app (le_bytes 4 offset) _ g) by assumption.
  rewrite (fwrite_app _ _ g) by assumption.
  rewrite (fwrite_app _ _ g) by assumption.
  rewrite (fwrite_app _ _ g) by assumption.
  now rewrite <- !app_assoc.
Qed.

Lemma u32_small z : 0 <= z < 4294967296 -> u32 z = z.
Proof. intros H. unfold u32. now apply Z.mod_small. Qed.

Lemma u32_range z : 0 <= u32 z < 4294967296.
Proof. unfold u32. apply Z.mod_pos_bound. lia. Qed.

Lemma firstn_zlen {A} (l : list A) : firstn (Z.to_nat (zlen l)) l = l.
Proof. unfold zlen. rewrite Nat2Z.id. apply firstn_all. Qed.

Lemma bytes_to_write_store dst data n :
  0 <= n <= zlen data ->
  bytes_to_write (store dst data) n = Done (firstn (Z.to_nat n) data).
Proof.
  intros Hn. unfold bytes_to_write.
  assert (L : (zlen (store dst data) <? n) = false).
  { apply Z.ltb_ge. unfold zlen in *. rewrite length_store. lia. }
  rewrite L. unfold store. rewrite firstn_app, length_map.
  replace (Z.to_nat n - length data)%nat with 0%nat by (unfold zlen in Hn; lia).
  cbn [firstn]. rewrite app_nil_r, firstn_map, load_map_Some. reflexivity.
Qed.

Lemma get_file_size_small bytes : zlen bytes < 4294967296 -> get_file_size bytes = zlen bytes.
Proof. intros H. apply u32_small. split; [apply zlen_nonneg | assumption]. Qed.

Lemma bytes_to_write_read_file_data bytes :
  zlen bytes < 4294967296 ->
  bytes_to_write (read_file_data bytes (zlen bytes)) (zlen bytes) = Done bytes.
Proof.
  intros H. unfold read_file_data. rewrite firstn_zlen.
  rewrite bytes_to_write_store by (pose proof (zlen_nonneg bytes); lia).
  now rewrite firstn_zlen.
Qed.

(* One iteration of the loop of write_pack_file on a source whose size,
   as get_file_size measures it, is at or below the threshold. *)
Lemma write_pack_loop_measured zl src node next pack_file data_end current_entry bytes :
  file_bytes (src pack_file) (fullpath node) = Some bytes ->
  get_file_size bytes <= 256 ->
  write_pack_loop zl src (node :: next) pack_file data_end current_entry
  = write_pack_loop zl src next
      (update_header
         (write_data_to_pack pack_file data_end
            (firstn (Z.to_nat (get_file_size bytes)) bytes))
         current_entry data_end (get_file_size bytes) YEP_COMPRESSION_NONE
         (get_file_size bytes) YEP_DATATYPE_MISC)
      (u32 (data_end + get_file_size bytes)) (current_entry + 1).
Proof.
  intros Hb Hs. cbn [write_pack_loop]. rewrite Hb.
  assert (Hr : 0 <= get_file_size bytes <= zlen bytes).
  { pose proof (zlen_nonneg bytes). unfold get_file_size, u32.
    split; [apply Z.mod_pos_bound; lia | apply Z.mod_le; lia]. }
  generalize dependent (get_file_size bytes). intros data_size Hs Hr.
  assert (E : (data_size >? 256) = false) by (rewrite Z.gtb_ltb; apply Z.ltb_ge; lia).
  rewrite E.
  change (u8 YEP_COMPRESSION_NONE =? YEP_COMPRESSION_ZLIB) with false.
  cbn [obind].
  unfold read_file_data. rewrite bytes_to_write_store.
  2:{ unfold zlen. rewrite length_firstn. unfold zlen in Hr. lia. }
  rewrite firstn_firstn, Nat.min_id. cbn [obind]. reflexivity.
Qed.

(* The same for a file of at most 256 bytes. *)
Lemma write_pack_loop_raw zl src node next pack_file data_end current_entry bytes :
  file_bytes (src pack_file) (fullpath node) = Some bytes ->
  zlen bytes <= 256 ->
  write_pack_loop zl src (node :: next) pack_file data_end current_entry
  = write_pack_loop zl src next
      (update_header (write_data_to_pack pack_file data_end bytes) current_entry
         data_end (zlen bytes) YEP_COMPRESSION_NONE (zlen bytes) YEP_DATATYPE_MISC)
      (u32 (data_end + zlen bytes)) (current_entry + 1).
Proof.
  intros Hb Hs.
  rewrite (write_pack_loop_measured zl src node next pack_file data_end current_entry
             bytes Hb)
    by (rewrite get_file_size_small; lia).
  rewrite get_file_size_small by lia. now rewrite firstn_zlen.
Qed.

(* One iteration on a file over the threshold. *)
Lemma write_pack_loop_zlib zl src node next pack_file data_end current_entry bytes :
  file_bytes (src pack_file) (fullpath node) = Some bytes ->
  256 < zlen bytes < 4294967296 ->
  let avail_out := u32 (zlen bytes + zlen bytes / 10 + 12) in
  write_pack_loop zl src (node :: next) pack_file data_end current_entry
  = if negb (z_deflateInit zl =? Z_OK) then Undefined
    else if negb (fst (z_deflate zl bytes avail_out) =? Z_STREAM_END) then Undefined
    else
      let compressed := snd (z_deflate zl bytes avail_out) in
      let stored := firstn (Z.to_nat (u32 (zlen compressed))) compressed in
      write_pack_loop zl src next
        (update_header (write_data_to_pack pack_file data_end stored) current_entry
           data_end (u32 (zlen compressed)) YEP_COMPRESSION_ZLIB (zlen bytes)
           YEP_DATATYPE_MISC)
        (u32 (data_end + u32 (zlen compressed))) (current_entry + 1).
Proof.
  intros Hb Hs avail_out. cbn [write_pack_loop]. rewrite Hb.
  rewrite get_file_size_small by lia.
  assert (E : (zlen bytes >? 256) = true) by (apply Z.gtb_lt; lia).
  rewrite E.
  change (u8 YEP_COMPRESSION_ZLIB =? YEP_COMPRESSION_ZLIB) with true.
  cbn iota. rewrite bytes_to_write_read_file_data by lia. cbn [obind].
  unfold compress_data.
  destruct (negb (z_deflateInit zl =? Z_OK)); [reflexivity|].
  rewrite (u32_small (zlen bytes)) by lia. rewrite firstn_zlen.
  fold avail_out.
  destruct (z_deflate zl bytes avail_out) as [status compressed]. cbn [fst snd].
  destruct (negb (status =? Z_STREAM_END)); [reflexivity|].
  cbn [obind].
  rewrite bytes_to_write_store.
  2:{ pose proof (u32_range (zlen compressed)).
      pose proof (zlen_nonneg compressed).
      split; [lia|]. unfold u32. apply Z.mod_le; lia. }
  cbn [obind]. reflexivity.
Qed.


(** *** The layout of the archive written *)

Lemma pwrite_append offset data c : offset = zlen c -> pwrite offset data c = c ++ data.
Proof.
  intros ->. unfold pwrite, zlen. rewrite Nat2Z.id, firstn_all, Nat.sub_diag.
  rewrite skipn_all2 by lia. cbn [repeat app]. now rewrite app_nil_r.
Qed.

Lemma pwrite_middle offset data a b c :
  offset = zlen a -> length data = length b ->
  pwrite offset data (a ++ b ++ c) = a ++ data ++ c.
Proof.
  intros -> Hl. unfold pwrite, zlen. rewrite Nat2Z.id.
  rewrite firstn_app, firstn_all, Nat.sub_diag. cbn [firstn]. rewrite app_nil_r.
  replace (length a - length (a ++ b ++ c))%nat with 0%nat
    by (rewrite length_app; lia).
  cbn [repeat app]. f_equal. f_equal.
  rewrite skipn_app, skipn_all2 by lia. cbn [app].
  replace (length a + length data - length a)%nat with (length b) by lia.
  rewrite skipn_app, skipn_all, Nat.sub_diag. reflexivity.
Qed.

Lemma length_entry_record e off :
  length (entry_name e) = 64%nat -> length (entry_record e off) = 78%nat.
Proof.
  intros H. unfold entry_record. rewrite !length_app, !length_le_bytes, H. reflexivity.
Qed.

Lemma node_wf_length node : node_wf node -> length (firstn 64 (name node)) = 64%nat.
Proof.
  intros (s & E & Hl & _). rewrite E, length_firstn, length_app, repeat_length. lia.
Qed.

Lemma node_wf_firstn node : node_wf node -> firstn 64 (name node) = name node.
Proof.
  intros (s & E & Hl & _). apply firstn_all2.
  rewrite E, length_app, repeat_length. lia.
Qed.

Lemma stored_entry_name zl fs node : entry_name (stored_entry zl fs node) = firstn 64 (name node).
Proof. unfold stored_entry. destruct (_ >? 256); reflexivity. Qed.

Lemma length_placeholder node : node_wf node -> length (placeholder node) = 78%nat.
Proof.
  intros H. unfold placeholder. rewrite !length_app, !length_le_bytes.
  rewrite (node_wf_length _ H). reflexivity.
Qed.

Lemma zlen_entry_table zl fs nodes off :
  Forall node_wf nodes ->
  zlen (entry_table (map (stored_entry zl fs) nodes) off) = 78 * zlen nodes.
Proof.
  intros H. revert off. induction H as [|node nodes Hn _ IH]; intros off.
  - reflexivity.
  - cbn [map entry_table]. rewrite zlen_app, IH. unfold zlen at 1.
    rewrite length_entry_record
      by (rewrite stored_entry_name; now apply node_wf_length).
    unfold zlen. cbn [length]. lia.
Qed.

Lemma reads_as_cons src fs node nodes :
  reads_as src fs (node :: nodes) ->
  (forall pack_file,
     file_bytes (src pack_file) (fullpath node) = file_bytes fs (fullpath node)) /\
  reads_as src fs nodes.
Proof.
  intros H. split.
  - intros pack_file. apply H. now left.
  - intros pack_file n Hin. apply H. now right.
Qed.

Lemma reads_as_app src fs a b :
  reads_as src fs (a ++ b) -> reads_as src fs a /\ reads_as src fs b.
Proof.
  intros H. split; intros pack_file n Hin; apply H; apply in_or_app; auto.
Qed.

Lemma reads_as_itself fs nodes : reads_as (fun _ => fs) fs nodes.
Proof. intros pack_file node _. reflexivity. Qed.

(* With the output apart from the sources, the writer finds them as the
   walk did. *)
Lemma while_writing_reads_as fs output_name nodes :
  not_a_source output_name nodes ->
  reads_as (while_writing fs (c_str output_name)) fs nodes.
Proof.
  intros H pack_file node Hin. unfold not_a_source in H. rewrite Forall_forall in H.
  cbn [while_writing file_bytes].
  destruct (bytes_eqb (fullpath node) (c_str output_name)) eqn:E; [|reflexivity].
  apply bytes_eqb_eq in E. now apply H in Hin.
Qed.

Lemma not_a_source_check output_name nodes :
  forallb (fun node => negb (bytes_eqb (fullpath node) (c_str output_name))) nodes = true ->
  not_a_source output_name nodes.
Proof.
  intros H. apply Forall_forall. intros node Hin E.
  rewrite forallb_forall in H. specialize (H node Hin).
  rewrite E, bytes_eqb_refl in H. discriminate.
Qed.

(* One iteration of the writer, for a source that satisfies source_ok. *)
Lemma write_pack_loop_step zl src fs node next pack_file data_end current_entry :
  z_deflateInit zl = Z_OK ->
  file_bytes (src pack_file) (fullpath node) = file_bytes fs (fullpath node) ->
  source_ok zl fs node ->
  let e := stored_entry zl fs node in
  zlen (entry_payload e) < 4294967296 ->
  write_pack_loop zl src (node :: next) pack_file data_end current_entry
  = write_pack_loop zl src next
      (update_header (write_data_to_pack pack_file data_end (entry_payload e))
         current_entry data_end (zlen (entry_payload e)) (entry_compression e)
         (entry_uncompressed_size e) YEP_DATATYPE_MISC)
      (u32 (data_end + zlen (entry_payload e))) (current_entry + 1).
Proof.
  intros Hi Hr (bytes & Hb & Hlt & Hz) e Hp. subst e. unfold stored_entry in *.
  rewrite Hb in *.
  destruct (zlen bytes >? 256) eqn:E; cbn [entry_payload entry_compression
    entry_uncompressed_size] in *.
  - apply Z.gtb_lt in E.
    rewrite (write_pack_loop_zlib zl src node next pack_file data_end current_entry bytes)
      by (auto; lia).
    cbn zeta. rewrite Hi, (Hz E).
    change (negb (Z_OK =? Z_OK)) with false.
    change (negb (Z_STREAM_END =? Z_STREAM_END)) with false. cbn iota.
    set (c := snd (z_deflate zl bytes (u32 (zlen bytes + zlen bytes / 10 + 12)))) in *.
    rewrite (u32_small (zlen c)) by (pose proof (zlen_nonneg c); lia).
    now rewrite firstn_zlen.
  - rewrite Z.gtb_ltb in E. apply Z.ltb_ge in E.
    now apply write_pack_loop_raw.
Qed.

Lemma write_pack_loop_layout zl src fs :
  z_deflateInit zl = Z_OK ->
  forall rest pre post f k,
    content f = pre ++ concat (map placeholder rest) ++ post ->
    zlen pre = 3 + 78 * k -> 0 <= k ->
    reads_as src fs rest ->
    Forall (source_ok zl fs) rest ->
    Forall node_wf rest ->
    zlen (content f) + zlen (payloads (map (stored_entry zl fs) rest)) < 4294967296 ->
    exists f',
      write_pack_loop zl src rest f (zlen (content f)) k = Done f' /\
      content f' = pre ++ entry_table (map (stored_entry zl fs) rest) (zlen (content f))
                   ++ post ++ payloads (map (stored_entry zl fs) rest).
Proof.
  intros Hi rest.
  induction rest as [|node rest IH]; intros pre post f k Hc Hpre Hk Hrd Hsrc Hwf Hsz.
  - exists f. split; [reflexivity|]. cbn in *. now rewrite app_nil_r in *.
  - inversion Hsrc as [|? ? Hs1 Hs2]; subst. inversion Hwf as [|? ? Hw1 Hw2]; subst.
    destruct (reads_as_cons _ _ _ _ Hrd) as [Hr1 Hr2].
    set (e := stored_entry zl fs node) in *.
    cbn [map payloads concat] in Hsz. fold (payloads (map (stored_entry zl fs) rest)) in Hsz.
    rewrite zlen_app in Hsz. fold e in Hsz.
    pose proof (zlen_nonneg (entry_payload e)) as Hp0.
    pose proof (zlen_nonneg (payloads (map (stored_entry zl fs) rest))) as Hp1.
    pose proof (zlen_nonneg (content f)) as Hc0.
    rewrite (write_pack_loop_step zl src fs node rest f (zlen (content f)) k Hi (Hr1 f)
               Hs1)
      by (fold e; lia).
    fold e.
    set (f1 := update_header _ _ _ _ _ _ _).
    assert (Hc1 : content f1
                  = (pre ++ entry_record e (zlen (content f)))
                    ++ concat (map placeholder rest) ++ (post ++ entry_payload e)).
    { unfold f1. rewrite update_header_fwrite by assumption.
      rewrite content_fwrite. cbn [pos fseek content].
      rewrite content_write_data_to_pack.
      rewrite (pwrite_append (zlen (content f))) by reflexivity.
      generalize (zlen (content f)) as D. intros D.
      rewrite Hc. cbn [map concat]. unfold placeholder at 1.
      set (b := le_bytes 4 0 ++ le_bytes 4 0 ++ le_bytes 1 0 ++ le_bytes 4 0 ++ le_bytes 1 0).
      rewrite <- !app_assoc.
      rewrite (app_assoc pre (firstn 64 (name node))).
      rewrite pwrite_middle.
      - unfold entry_record. subst e. rewrite stored_entry_name.
        now rewrite <- !app_assoc.
      - rewrite zlen_app, Hpre. unfold zlen. rewrite (node_wf_length _ Hw1). lia.
      - unfold b. now rewrite !length_app, !length_le_bytes. }
    assert (Hz1 : zlen (content f1) = zlen (content f) + zlen (entry_payload e)).
    { unfold zlen. rewrite Hc1, Hc. cbn [map concat]. rewrite !length_app.
      rewrite length_entry_record
        by (subst e; rewrite stored_entry_name; now apply node_wf_length).
      rewrite (length_placeholder _ Hw1). lia. }
    rewrite u32_small by lia. rewrite <- Hz1.
    destruct (IH (pre ++ entry_record e (zlen (content f))) (post ++ entry_payload e)
                 f1 (k + 1) Hc1) as (f' & Hl & Hc').
    + rewrite zlen_app, Hpre. unfold zlen at 1.
      rewrite length_entry_record
        by (subst e; rewrite stored_entry_name; now apply node_wf_length).
      lia.
    + lia.
    + assumption.
    + assumption.
    + assumption.
    + lia.
    + exists f'. split; [exact Hl|]. rewrite Hc'. cbn [map entry_table payloads concat].
      fold e. rewrite Hz1. unfold payloads. now rewrite <- !app_assoc.
Qed.

Lemma fwrite_at_end data f :
  at_end f -> content (fwrite data f) = content f ++ data /\ at_end (fwrite data f).
Proof.
  unfold at_end. intros H. rewrite content_fwrite, pwrite_append by assumption.
  split; [reflexivity|]. rewrite pos_fwrite, zlen_app. lia.
Qed.

Lemma write_headers_content nodes f :
  at_end f ->
  content (write_headers nodes f) = content f ++ concat (map placeholder nodes) /\
  at_end (write_headers nodes f).
Proof.
  revert f. induction nodes as [|node nodes IH]; intros f Hf.
  - cbn. rewrite app_nil_r. auto.
  - cbn [write_headers map concat].
    assert (Hp : 0 <= pos f) by (unfold at_end in Hf; rewrite Hf; apply zlen_nonneg).
    rewrite (fwrite_app _ _ f), (fwrite_app _ _ f), (fwrite_app _ _ f),
      (fwrite_app _ _ f), (fwrite_app _ _ f) by assumption.
    rewrite <- !app_assoc. fold (placeholder node).
    destruct (fwrite_at_end (placeholder node) f Hf) as [Hc He].
    destruct (IH _ He) as [Hc' He']. split; [|assumption].
    rewrite Hc', Hc. now rewrite <- app_assoc.
Qed.

Lemma byte_of_Z_mod z : byte_of_Z (z mod 256) = byte_of_Z z.
Proof. unfold byte_of_Z. now rewrite Z.mod_mod by lia. Qed.

Lemma zlen_map {A B} (g : A -> B) l : zlen (map g l) = zlen l.
Proof. unfold zlen. now rewrite length_map. Qed.

Lemma zlen_archive_bytes zl fs version nodes :
  Forall node_wf nodes ->
  zlen (archive_bytes version (map (stored_entry zl fs) nodes))
  = 3 + 78 * zlen nodes + zlen (payloads (map (stored_entry zl fs) nodes)).
Proof.
  intros H. unfold archive_bytes. rewrite !zlen_app, zlen_entry_table by assumption.
  unfold zlen at 1 2. rewrite !length_le_bytes. lia.
Qed.

Lemma pack_list_of_wf fs fuel dir : Forall node_wf (pack_list_of fs fuel dir).
Proof. unfold pack_list_of. apply Forall_rev, traversal_wf. Qed.

(* The archive _yep_pack_directory writes is the one the format of the spec
   describes, with the pack list as its entries. *)
Lemma pack_directory_layout zl fs V fuel directory_path output_name st1 :
  _yep_walk_directory_v2 fs fuel directory_path (walk_start directory_path) = Done st1 ->
  creatable fs (c_str output_name) = true ->
  packable zl fs (pack_list_of fs fuel directory_path) ->
  not_a_source output_name (pack_list_of fs fuel directory_path) ->
  exists st',
    _yep_pack_directory zl fs V fuel directory_path output_name packer_init
    = Done (true, st',
            with_file_bytes fs (c_str output_name)
              (archive_bytes V (map (stored_entry zl fs)
                                    (pack_list_of fs fuel directory_path)))).
Proof.
  intros Hw Hcr (Hi & Hsrc & Hn & Hsz) Hapart.
  pose proof (walk_pushed fs fuel _ _ _ Hw) as (Hh & Hcnt & _).
  cbn [walk_start with_root plog packer_init yep_pack_list yep_pack_root_path
       head entry_count] in Hh, Hcnt.
  rewrite app_nil_r in Hh. fold (pack_list_of fs fuel directory_path) in Hh.
  set (nodes := pack_list_of fs fuel directory_path) in *.
  pose proof (pack_list_of_wf fs fuel directory_path) as Hwf. fold nodes in Hwf.
  assert (Hc : entry_count (yep_pack_list st1) = zlen nodes).
  { rewrite Hcnt. unfold nodes, pack_list_of, zlen. rewrite length_rev. lia. }
  rewrite zlen_archive_bytes in Hsz by assumption.
  pose proof (zlen_nonneg nodes) as Hn0.
  pose proof (zlen_nonneg (payloads (map (stored_entry zl fs) nodes))) as Hp0.
  unfold _yep_pack_directory. fold (walk_start directory_path). rewrite Hw.
  cbn [obind]. rewrite Hcr. cbn [negb].
  cbn [yep_pack_list with_root plog].
  eexists.
  rewrite Hc, Hh.
  set (file0 := {| fd := 0%nat; content := []; pos := 0 |}).
  assert (H0 : at_end file0) by reflexivity.
  destruct (fwrite_at_end (le_bytes 1 (u8 V)) file0 H0) as [C1 E1].
  destruct (fwrite_at_end (le_bytes 2 (u16 (zlen nodes))) _ E1) as [C2 E2].
  destruct (write_headers_content nodes _ E2) as [C3 E3].
  set (file3 := write_headers nodes _) in *.
  assert (Hhdr : le_bytes 1 (u8 V) ++ le_bytes 2 (u16 (zlen nodes))
                 = le_bytes 1 V ++ le_bytes 2 (zlen nodes)).
  { unfold u16. rewrite Z.mod_small by lia. cbn [le_bytes]. unfold u8.
    now rewrite byte_of_Z_mod. }
  assert (C : content file3
              = (le_bytes 1 V ++ le_bytes 2 (zlen nodes))
                ++ concat (map placeholder nodes) ++ []).
  { rewrite C3, C2, C1. cbn [content file0 app]. rewrite app_nil_r.
    rewrite <- Hhdr. now rewrite <- app_assoc. }
  assert (Z3 : zlen (content file3) = 3 + 78 * zlen nodes).
  { rewrite C. unfold zlen. rewrite !length_app, !length_le_bytes. cbn [length].
    rewrite Nat.add_0_r.
    assert (L : forall l, Forall node_wf l ->
                          length (concat (map placeholder l)) = (78 * length l)%nat).
    { induction 1 as [|x l Hx _ IHl]; [reflexivity|].
      cbn [map concat]. rewrite length_app, IHl, (length_placeholder _ Hx).
      cbn [length]. lia. }
    rewrite (L _ Hwf). lia. }
  unfold write_pack_file. cbn [yep_pack_list with_list with_root plog].
  rewrite Hc, Hh. change YEP_HEADER_SIZE_BYTES with 78.
  rewrite (u32_small (3 + zlen nodes * 78)) by lia.
  replace (3 + zlen nodes * 78) with (zlen (content file3)) by lia.
  destruct (write_pack_loop_layout zl (while_writing fs (c_str output_name)) fs Hi
              nodes _ [] file3 0 C) as (f' & Hl & Hc').
  - unfold zlen. rewrite length_app, !length_le_bytes. reflexivity.
  - lia.
  - now apply while_writing_reads_as.
  - assumption.
  - assumption.
  - lia.
  - rewrite Hl. cbn [obind]. do 3 f_equal.
    rewrite Hc', Z3. unfold archive_bytes. rewrite zlen_map.
    cbn [app]. now rewrite <- !app_assoc.
Qed.

(** ** The reader on an archive of the format *)

Lemma fread_cells_at dst d cont p a b c n :
  cont = a ++ b ++ c -> p = zlen a -> n = zlen b -> length dst = length b ->
  fread_cells n dst {| fd := d; content := cont; pos := p |}
  = (map Some b, {| fd := d; content := cont; pos := p + zlen b |}).
Proof.
  intros Hc Hp Hn Hl.
  rewrite (fread_cells_within dst _ a b c n) by assumption.
  cbn [fd content]. now rewrite Hp.
Qed.

(* One iteration of the loop of _yep_seek_header on a complete record. *)
Lemma seek_loop_record n handle v d cont pre e off rest :
  cont = pre ++ entry_record e off ++ rest ->
  length (entry_name e) = 64%nat ->
  vars_shaped v ->
  seek_loop (S n) handle v {| fd := d; content := cont; pos := zlen pre |}
  = match strcmp_cells handle (map Some (entry_name e)) with
    | None => Undefined
    | Some true =>
        Done (true, vars_of e off, {| fd := d; content := cont; pos := zlen pre + 78 |})
    | Some false =>
        seek_loop n handle (vars_of e off)
                  {| fd := d; content := cont; pos := zlen pre + 78 |}
    end.
Proof.
  intros Hc Hn (H1 & H2 & H3 & H4 & H5 & H6). unfold entry_record in Hc.
  cbn [seek_loop].
  set (nm := entry_name e) in *. set (o := le_bytes 4 off) in *.
  set (s := le_bytes 4 (zlen (entry_payload e))) in *.
  set (c := le_bytes 1 (entry_compression e)) in *.
  set (u := le_bytes 4 (entry_uncompressed_size e)) in *.
  set (t := le_bytes 1 YEP_DATATYPE_MISC) in *.
  assert (Lo : length o = 4%nat) by apply length_le_bytes.
  assert (Ls : length s = 4%nat) by apply length_le_bytes.
  assert (Lc : length c = 1%nat) by apply length_le_bytes.
  assert (Lu : length u = 4%nat) by apply length_le_bytes.
  assert (Lt : length t = 1%nat) by apply length_le_bytes.
  rewrite (fread_cells_at (v_name v) d cont _ pre nm (o ++ s ++ c ++ u ++ t ++ rest))
    by (auto; try (unfold zlen; lia); rewrite Hc; now rewrite <- !app_assoc).
  rewrite (fread_cells_at (v_offset v) d cont _ (pre ++ nm) o (s ++ c ++ u ++ t ++ rest))
    by (auto; try (rewrite ?zlen_app; unfold zlen; lia); rewrite Hc; now rewrite <- !app_assoc).
  rewrite (fread_cells_at (v_size v) d cont _ (pre ++ nm ++ o) s (c ++ u ++ t ++ rest))
    by (auto; try (rewrite ?zlen_app; unfold zlen; lia); rewrite Hc; now rewrite <- !app_assoc).
  rewrite (fread_cells_at (v_compression_type v) d cont _ (pre ++ nm ++ o ++ s) c
             (u ++ t ++ rest))
    by (auto; try (rewrite ?zlen_app; unfold zlen; lia); rewrite Hc; now rewrite <- !app_assoc).
  rewrite (fread_cells_at (v_uncompressed_size v) d cont _ (pre ++ nm ++ o ++ s ++ c) u
             (t ++ rest))
    by (auto; try (rewrite ?zlen_app; unfold zlen; lia); rewrite Hc; now rewrite <- !app_assoc).
  rewrite (fread_cells_at (v_data_type v) d cont _ (pre ++ nm ++ o ++ s ++ c ++ u) t rest)
    by (auto; try (rewrite ?zlen_app; unfold zlen; lia); rewrite Hc; now rewrite <- !app_assoc).
  replace (zlen pre + zlen nm + zlen o + zlen s + zlen c + zlen u + zlen t)
    with (zlen pre + 78) by (unfold zlen; lia).
  reflexivity.
Qed.

Lemma vars_of_shaped e off : length (entry_name e) = 64%nat -> vars_shaped (vars_of e off).
Proof.
  intros H. unfold vars_shaped, vars_of.
  cbn [v_name v_offset v_size v_compression_type v_uncompressed_size v_data_type].
  rewrite !length_map, !length_le_bytes, H. repeat split.
Qed.

Lemma entry_wf_length e : entry_wf e -> length (entry_name e) = 64%nat.
Proof. intros (s & E & Hl & _). rewrite E, length_app, repeat_length. lia. Qed.

Lemma entry_wf_strcmp e handle :
  entry_wf e -> no_nul handle ->
  strcmp_cells handle (map Some (entry_name e))
  = Some (bytes_eqb handle (c_str (entry_name e))).
Proof.
  intros (s & E & Hl & Hs) Hh. rewrite E, c_str_padded by assumption.
  apply strcmp_cells_padded; auto. lia.
Qed.

(* The scan of a table of well-formed records finds what the lookup of the
   spec finds. *)
Lemma seek_loop_table handle :
  no_nul handle ->
  forall entries pre post off d cont v,
    cont = pre ++ entry_table entries off ++ post ->
    Forall entry_wf entries ->
    vars_shaped v ->
    exists v' p',
      seek_loop (length entries) handle v {| fd := d; content := cont; pos := zlen pre |}
      = Done (match find_entry handle entries off with Some _ => true | None => false end,
              v', {| fd := d; content := cont; pos := p' |}) /\
      forall e o, find_entry handle entries off = Some (e, o) -> v' = vars_of e o.
Proof.
  intros Hh entries. induction entries as [|e entries IH];
    intros pre post off d cont v Hc Hwf Hv.
  - exists v, (zlen pre). split; [reflexivity|]. intros e o H. discriminate.
  - inversion Hwf as [|? ? He Hes]; subst.
    cbn [entry_table] in *. cbn [length find_entry].
    rewrite (seek_loop_record _ handle v d _ pre e off
               (entry_table entries (off + zlen (entry_payload e)) ++ post))
      by (auto using entry_wf_length; now rewrite <- !app_assoc).
    rewrite (entry_wf_strcmp e handle He Hh).
    destruct (bytes_eqb handle (c_str (entry_name e))).
    + eexists _, _. split; [reflexivity|]. intros e' o' H. now inversion H.
    + replace (zlen pre + 78) with (zlen (pre ++ entry_record e off)).
      2:{ rewrite zlen_app. unfold zlen at 2.
          rewrite length_entry_record by now apply entry_wf_length. lia. }
      apply (IH (pre ++ entry_record e off) post).
      * now rewrite <- !app_assoc.
      * assumption.
      * apply vars_of_shaped. now apply entry_wf_length.
Qed.

(* Where the payload of the entry found lies. *)
Lemma find_entry_split handle entries off e o :
  find_entry handle entries off = Some (e, o) ->
  exists before after,
    entries = before ++ e :: after /\
    o = off + zlen (payloads before) /\
    bytes_eqb handle (c_str (entry_name e)) = true /\
    Forall (fun e' => bytes_eqb handle (c_str (entry_name e')) = false) before.
Proof.
  revert off. induction entries as [|e0 entries IH]; intros off H; [discriminate|].
  cbn [find_entry] in H.
  destruct (bytes_eqb handle (c_str (entry_name e0))) eqn:E.
  - inversion H; subst. exists [], entries. cbn. repeat split; auto. lia.
  - apply IH in H. destruct H as (before & after & -> & -> & Hm & Hb).
    exists (e0 :: before), after. repeat split; auto.
    unfold payloads. cbn [map concat]. rewrite zlen_app. unfold payloads. lia.
Qed.

Lemma payloads_app a b : payloads (a ++ b) = payloads a ++ payloads b.
Proof. unfold payloads. now rewrite map_app, concat_app. Qed.

Lemma use_int_le_bytes4 z :
  0 <= z < 4294967296 -> use_int (map Some (le_bytes 4 z)) = Done z.
Proof.
  intros H. unfold use_int, int_of_cells. rewrite load_map_Some.
  rewrite le_value_le_bytes_small; [reflexivity|].
  change (256 ^ Z.of_nat 4) with 4294967296. lia.
Qed.

Lemma use_int_le_bytes1 z :
  0 <= z < 256 -> use_int (map Some (le_bytes 1 z)) = Done z.
Proof.
  intros H. unfold use_int, int_of_cells. rewrite load_map_Some.
  rewrite le_value_le_bytes_small; [reflexivity|].
  change (256 ^ Z.of_nat 1) with 256. lia.
Qed.

Lemma store_malloc_succ payload :
  store (malloc (zlen payload + 1)) payload = map Some payload ++ [None].
Proof.
  unfold store, malloc. f_equal.
  replace (Z.to_nat (zlen payload + 1)) with (length payload + 1)%nat
    by (unfold zlen; lia).
  rewrite repeat_app, skipn_app, repeat_length, Nat.sub_diag.
  rewrite skipn_all2 by (rewrite repeat_length; lia). reflexivity.
Qed.

(* The data of the entry found, read from where its record says. *)
Lemma extract_found_payload zl st f A B e o :
  yep_file st = Some f ->
  content f = A ++ entry_payload e ++ B ->
  zlen A = o -> o < 4294967296 ->
  zlen (entry_payload e) + 1 < 4294967296 ->
  let st' := with_file st (Some {| fd := fd f; content := content f;
                                   pos := o + zlen (entry_payload e) |}) in
  (entry_compression e = YEP_COMPRESSION_NONE ->
   extract_found zl (vars_of e o) st
   = Done ({| data := Some (map Some (entry_payload e) ++ [Some x00]);
              size := zlen (entry_payload e) |}, st'))
  /\ (entry_compression e = YEP_COMPRESSION_ZLIB ->
      forall bytes,
        0 <= entry_uncompressed_size e < 4294967296 ->
        z_inflateInit zl = Z_OK ->
        z_inflate zl (entry_payload e) (entry_uncompressed_size e)
        = (Z_STREAM_END, bytes) ->
        zlen bytes = entry_uncompressed_size e ->
        extract_found zl (vars_of e o) st
        = Done ({| data := Some (map Some bytes);
                   size := entry_uncompressed_size e |}, logged st' [])).
Proof.
  intros Hf Hc Ho Hlt Hp st'.
  pose proof (zlen_nonneg A) as HA. pose proof (zlen_nonneg (entry_payload e)) as HP.
  assert (Hread : fread (zlen (entry_payload e)) (fseek f o)
                  = (entry_payload e,
                     {| fd := fd f; content := content f;
                        pos := o + zlen (entry_payload e) |})).
  { rewrite (fread_within (fseek f o) A (entry_payload e) B); auto.
    cbn [fseek fd content]. now rewrite Ho. }
  assert (Hm : u32 (zlen (entry_payload e) + 1) = zlen (entry_payload e) + 1)
    by (apply u32_small; lia).
  assert (Hlen : zlen (map Some (entry_payload e) ++ [@None byte])
                 = zlen (entry_payload e) + 1).
  { rewrite zlen_app, zlen_map. reflexivity. }
  assert (Hfirst : firstn (Z.to_nat (zlen (entry_payload e)))
                          (map Some (entry_payload e) ++ [@None byte])
                   = map Some (entry_payload e)).
  { rewrite <- (zlen_map (@Some byte)). apply firstn_zlen_app. }
  split.
  - intros Hk. unfold extract_found. rewrite Hf.
    cbn [vars_of v_offset v_size v_compression_type v_uncompressed_size].
    rewrite use_int_le_bytes4 by lia. cbn [obind].
    rewrite use_int_le_bytes4 by lia. cbn [obind].
    rewrite Hread, Hm, store_malloc_succ.
    replace (zlen (malloc (zlen (entry_payload e) + 1)) <? zlen (entry_payload e))
      with false
      by (symmetry; apply Z.ltb_ge; unfold zlen; rewrite length_malloc; lia).
    rewrite Hk. rewrite use_int_le_bytes1 by (unfold YEP_COMPRESSION_NONE; lia).
    cbn [obind].
    change (YEP_COMPRESSION_NONE =? YEP_COMPRESSION_NONE) with true. cbn iota.
    rewrite Hlen.
    replace (zlen (entry_payload e) + 1 <=? zlen (entry_payload e)) with false
      by (symmetry; apply Z.leb_gt; lia).
    cbn [obind].
    change (YEP_COMPRESSION_NONE =? YEP_COMPRESSION_ZLIB) with false. cbn iota.
    rewrite Hfirst.
    rewrite skipn_all2 by (unfold zlen in *; lia).
    reflexivity.
  - intros Hk bytes Hu Hi Hz Hb. unfold extract_found. rewrite Hf.
    cbn [vars_of v_offset v_size v_compression_type v_uncompressed_size].
    rewrite use_int_le_bytes4 by lia. cbn [obind].
    rewrite use_int_le_bytes4 by lia. cbn [obind].
    rewrite Hread, Hm, store_malloc_succ.
    replace (zlen (malloc (zlen (entry_payload e) + 1)) <? zlen (entry_payload e))
      with false
      by (symmetry; apply Z.ltb_ge; unfold zlen; rewrite length_malloc; lia).
    rewrite Hk. rewrite use_int_le_bytes1 by (unfold YEP_COMPRESSION_ZLIB; lia).
    cbn [obind].
    change (YEP_COMPRESSION_ZLIB =? YEP_COMPRESSION_NONE) with false. cbn [obind].
    change (YEP_COMPRESSION_ZLIB =? YEP_COMPRESSION_ZLIB) with true. cbn iota.
    rewrite use_int_le_bytes4 by lia. cbn [obind].
    rewrite Hlen.
    replace (zlen (entry_payload e) + 1 <? zlen (entry_payload e)) with false
      by (symmetry; apply Z.ltb_ge; lia).
    rewrite Hfirst, load_map_Some.
    destruct (decompress_data_cases zl (entry_payload e) (zlen (entry_payload e))
                (entry_uncompressed_size e))
      as [(Hi' & _)|[(_ & Hr & _)|[(_ & _ & Hl & _)|(_ & _ & _ & E)]]].
    + contradiction.
    + exfalso. apply Hr.
      rewrite (u32_small (zlen (entry_payload e))), firstn_zlen, u32_small, Hz by lia.
      reflexivity.
    + exfalso. apply Hl.
      rewrite (u32_small (zlen (entry_payload e))), firstn_zlen, u32_small, Hz by lia.
      exact Hb.
    + rewrite E.
      rewrite (u32_small (zlen (entry_payload e))), firstn_zlen, u32_small, Hz by lia.
      cbn [snd negb Z.eqb]. reflexivity.
Qed.

Lemma zlen_entry_table_wf entries off :
  Forall entry_wf entries -> zlen (entry_table entries off) = 78 * zlen entries.
Proof.
  intros H. revert off. induction H as [|e entries He _ IH]; intros off.
  - reflexivity.
  - cbn [entry_table]. rewrite zlen_app, IH. unfold zlen at 1.
    rewrite length_entry_record by now apply entry_wf_length.
    unfold zlen. cbn [length]. lia.
Qed.

Lemma holds_archive_logged st file archive count lines :
  holds_archive st file archive count ->
  holds_archive (logged st lines) file archive count.
Proof. intros H. exact H. Qed.

Lemma archive_bytes_header V entries :
  archive_bytes V entries
  = byte_of_Z V :: byte_of_Z (zlen entries) :: byte_of_Z (zlen entries / 256)
    :: entry_table entries (3 + 78 * zlen entries) ++ payloads entries.
Proof. reflexivity. Qed.

(* Opening the archive, from a reader that is ready for it. *)
Lemma open_archive fs V file st entries :
  0 <= V < 256 ->
  zlen entries <= 65535 ->
  file_bytes fs (c_str file) = Some (archive_bytes V entries) ->
  reader_ready st file (archive_bytes V entries) (zlen entries) ->
  exists st1,
    _yep_open_file fs V file st = Done (true, st1) /\
    holds_archive st1 (c_str file) (archive_bytes V entries) (zlen entries) /\
    out st1 = out st.
Proof.
  intros HV Hn Hb [Hh|(Hp & Hq & Hv)].
  - exists st. split; [|split; [assumption | reflexivity]].
    apply open_cached. apply Hh.
  - rewrite archive_bytes_header in Hb.
    rewrite (open_reads_header fs V file st _ _ _ _)
      by (eauto; destruct (yep_file_path st); auto).
    rewrite (Z.div_small (file_version_number st)) by lia.
    rewrite !Z_of_byte_of_Z.
    pose proof (zlen_nonneg entries) as Hn0.
    replace (256 * 0 + V mod 256) with V by (rewrite Z.mod_small; lia).
    rewrite Z.eqb_refl. cbn [negb].
    eexists. split; [reflexivity|]. split; [|reflexivity].
    unfold holds_archive. cbn [yep_file_path yep_file file_entry_count].
    split; [reflexivity|]. split.
    + eexists. split; [reflexivity|]. cbn [content].
      now rewrite archive_bytes_header.
    + rewrite (Z.mod_small (zlen entries / 256)).
      * pose proof (Z.div_mod (zlen entries) 256 ltac:(lia)). lia.
      * split; [apply Z.div_pos; lia | apply Z.div_lt_upper_bound; lia].
Qed.

(* Searching the table of the archive the reader holds. *)
Lemma seek_header_archive V file handle st entries :
  holds_archive st file (archive_bytes V entries) (zlen entries) ->
  Forall entry_wf entries ->
  exists v st',
    _yep_seek_header handle header_vars_uninit st
    = Done (match find_entry (c_str handle) entries (3 + 78 * zlen entries) with
            | Some _ => true
            | None => false
            end, v, st') /\
    holds_archive st' file (archive_bytes V entries) (zlen entries) /\
    out st' = out st /\
    forall e o,
      find_entry (c_str handle) entries (3 + 78 * zlen entries) = Some (e, o) ->
      v = vars_of e o.
Proof.
  intros (Hp & (f & Hf & Hc) & Hcount) Hwf.
  unfold _yep_seek_header. rewrite Hf, Hcount.
  replace (Z.to_nat (zlen entries)) with (length entries) by (unfold zlen; lia).
  unfold fseek. rewrite Hc.
  destruct (seek_loop_table (c_str handle) (c_str_no_nul handle) entries
              (le_bytes 1 V ++ le_bytes 2 (zlen entries)) (payloads entries)
              (3 + 78 * zlen entries) (fd f) (archive_bytes V entries)
              header_vars_uninit)
    as (v' & p' & Hl & Hv).
  - unfold archive_bytes. now rewrite <- !app_assoc.
  - assumption.
  - apply header_vars_uninit_shaped.
  - change (zlen (le_bytes 1 V ++ le_bytes 2 (zlen entries))) with 3 in Hl.
    rewrite Hl. cbn [obind]. eexists _, _. split; [reflexivity|].
    split; [|split; [reflexivity | exact Hv]].
    unfold holds_archive. cbn [with_file yep_file_path yep_file file_entry_count].
    split; [assumption|]. split; [|assumption].
    eexists. split; reflexivity.
Qed.

(* Extraction from an archive of the format: the three results. *)
Lemma extract_from_archive zl fs V file handle st entries :
  0 <= V < 256 ->
  zlen entries <= 65535 ->
  zlen (archive_bytes V entries) < 4294967296 ->
  file_bytes fs (c_str file) = Some (archive_bytes V entries) ->
  Forall entry_wf entries ->
  reader_ready st file (archive_bytes V entries) (zlen entries) ->
  match find_entry (c_str handle) entries (3 + 78 * zlen entries) with
  | None =>
      exists st',
        yep_extract_data zl fs V file handle st = Done (no_data, st') /\
        holds_archive st' (c_str file) (archive_bytes V entries) (zlen entries)
  | Some (e, o) =>
      (entry_compression e = YEP_COMPRESSION_NONE ->
       exists st',
         yep_extract_data zl fs V file handle st
         = Done ({| data := Some (map Some (entry_payload e) ++ [Some x00]);
                    size := zlen (entry_payload e) |}, st') /\
         holds_archive st' (c_str file) (archive_bytes V entries) (zlen entries))
      /\ (entry_compression e = YEP_COMPRESSION_ZLIB ->
          forall bytes,
            0 <= entry_uncompressed_size e < 4294967296 ->
            z_inflateInit zl = Z_OK ->
            z_inflate zl (entry_payload e) (entry_uncompressed_size e)
            = (Z_STREAM_END, bytes) ->
            zlen bytes = entry_uncompressed_size e ->
            exists st',
              yep_extract_data zl fs V file handle st
              = Done ({| data := Some (map Some bytes);
                         size := entry_uncompressed_size e |}, st') /\
              holds_archive st' (c_str file) (archive_bytes V entries) (zlen entries))
  end.
Proof.
  intros HV Hn Hsz Hb Hwf Hr.
  destruct (open_archive fs V file st entries HV Hn Hb Hr) as (st1 & Ho & Hh1 & _).
  destruct (seek_header_archive V (c_str file) handle st1 entries Hh1 Hwf)
    as (v & st2 & Hs & Hh2 & _ & Hv).
  destruct (find_entry (c_str handle) entries (3 + 78 * zlen entries))
    as [[e o]|] eqn:Efind.
  - rewrite (yep_extract_data_found zl fs V file handle st st1 v st2 Ho Hs).
    rewrite (Hv e o eq_refl).
    destruct (find_entry_split _ _ _ _ _ Efind) as (before & after & -> & -> & _ & _).
    destruct Hh2 as (Hp2 & (f & Hf & Hc) & Hcount).
    set (entries := before ++ e :: after) in *.
    set (A := le_bytes 1 V ++ le_bytes 2 (zlen entries)
              ++ entry_table entries (3 + 78 * zlen entries) ++ payloads before).
    assert (HcA : content f = A ++ entry_payload e ++ payloads after).
    { rewrite Hc. unfold archive_bytes, A, entries.
      rewrite payloads_app. unfold payloads at 3. cbn [map concat].
      fold (payloads after). now rewrite <- !app_assoc. }
    assert (HzA : zlen A = 3 + 78 * zlen entries + zlen (payloads before)).
    { unfold A. rewrite !zlen_app, zlen_entry_table_wf by assumption.
      unfold zlen at 1 2. rewrite !length_le_bytes. lia. }
    assert (Htot : zlen (archive_bytes V entries)
                   = zlen A + zlen (entry_payload e) + zlen (payloads after)).
    { rewrite <- Hc, HcA, !zlen_app. lia. }
    pose proof (zlen_nonneg (payloads after)).
    pose proof (zlen_nonneg (payloads before)).
    pose proof (zlen_nonneg (entry_payload e)).
    pose proof (zlen_nonneg entries).
    assert (1 <= zlen entries).
    { unfold entries, zlen. rewrite length_app. cbn [length]. lia. }
    assert (Hholds : forall p lines,
              holds_archive
                (logged (with_file st2 (Some {| fd := fd f; content := content f; pos := p |}))
                        lines)
                (c_str file) (archive_bytes V entries) (zlen entries)).
    { intros p lines. unfold holds_archive.
      cbn [logged with_file yep_file_path yep_file file_entry_count].
      split; [assumption|]. split; [|assumption].
      eexists. split; [reflexivity|]. exact Hc. }
    split.
    + intros Hk.
      destruct (extract_found_payload zl st2 f A (payloads after) e
                  (3 + 78 * zlen entries + zlen (payloads before)) Hf HcA HzA)
        as [Hnone _]; try lia.
      rewrite (Hnone Hk). eexists. split; [reflexivity|].
      apply (Hholds _ []).
    + intros Hk bytes Hu Hi Hz Hlen.
      destruct (extract_found_payload zl st2 f A (payloads after) e
                  (3 + 78 * zlen entries + zlen (payloads before)) Hf HcA HzA)
        as [_ Hzl]; try lia.
      rewrite (Hzl Hk bytes Hu Hi Hz Hlen). eexists. split; [reflexivity|].
      apply (Hholds _ []).
  - unfold yep_extract_data. rewrite Ho. cbn [obind negb]. rewrite Hs.
    cbn [obind negb]. eexists. split; [reflexivity|].
    now apply holds_archive_logged.
Qed.

(** ** Packing, then extracting *)

Lemma stored_entry_wf zl fs node : node_wf node -> entry_wf (stored_entry zl fs node).
Proof.
  intros H. unfold entry_wf. rewrite stored_entry_name, (node_wf_firstn _ H). exact H.
Qed.

Lemma find_entry_stored zl fs handle nodes off :
  Forall node_wf nodes ->
  match find (fun node => bytes_eqb handle (c_str (name node))) nodes with
  | Some node =>
      exists o, find_entry handle (map (stored_entry zl fs) nodes) off
                = Some (stored_entry zl fs node, o)
  | None => find_entry handle (map (stored_entry zl fs) nodes) off = None
  end.
Proof.
  intros H. revert off. induction H as [|node nodes Hn _ IH]; intros off.
  - reflexivity.
  - cbn [find map find_entry]. rewrite stored_entry_name, (node_wf_firstn _ Hn).
    destruct (bytes_eqb handle (c_str (name node))).
    + eexists. reflexivity.
    + apply IH.
Qed.

Lemma file_bytes_with_file_bytes fs path bytes :
  file_bytes (with_file_bytes fs path bytes) path = Some bytes.
Proof. cbn [with_file_bytes file_bytes]. now rewrite bytes_eqb_refl. Qed.


(* The archive a run writes, and what every lookup in it gives. *)
Lemma pack_then_extract zl fs V fuel directory_path output_name st1 :
  0 <= V < 256 ->
  _yep_walk_directory_v2 fs fuel directory_path (walk_start directory_path) = Done st1 ->
  creatable fs (c_str output_name) = true ->
  packable zl fs (pack_list_of fs fuel directory_path) ->
  not_a_source output_name (pack_list_of fs fuel directory_path) ->
  z_inflateInit zl = Z_OK ->
  Forall (restorable zl fs) (pack_list_of fs fuel directory_path) ->
  let nodes := pack_list_of fs fuel directory_path in
  let archive := archive_bytes V (map (stored_entry zl fs) nodes) in
  exists stp,
    _yep_pack_directory zl fs V fuel directory_path output_name packer_init
    = Done (true, stp, with_file_bytes fs (c_str output_name) archive) /\
    forall handle st,
      reader_ready st output_name archive (zlen nodes) ->
      match first_named handle nodes with
      | None =>
          exists st',
            yep_extract_data zl (with_file_bytes fs (c_str output_name) archive) V
                             output_name handle st
            = Done (no_data, st') /\
            reader_ready st' output_name archive (zlen nodes)
      | Some node =>
          forall bytes,
            file_bytes fs (fullpath node) = Some bytes ->
            exists st',
              yep_extract_data zl (with_file_bytes fs (c_str output_name) archive) V
                               output_name handle st
              = Done ({| data := Some (extracted_buffer bytes); size := zlen bytes |},
                      st') /\
              reader_ready st' output_name archive (zlen nodes)
      end.
Proof.
  intros HV Hw Hcr Hpk Hapart Hii Hres nodes archive.
  destruct (pack_directory_layout zl fs V fuel directory_path output_name st1 Hw Hcr Hpk Hapart)
    as (stp & Hpack).
  exists stp. split; [exact Hpack|].
  intros handle st Hready.
  destruct Hpk as (Hdi & Hsrc & Hn & Hsz).
  fold nodes in Hsrc, Hn, Hsz, Hres.
  pose proof (pack_list_of_wf fs fuel directory_path) as Hwf. fold nodes in Hwf.
  assert (Hewf : Forall entry_wf (map (stored_entry zl fs) nodes)).
  { apply Forall_map. eapply Forall_impl; [|exact Hwf].
    intros n. apply stored_entry_wf. }
  assert (Hsz' : zlen archive < 4294967296).
  { unfold archive. rewrite zlen_archive_bytes by assumption.
    rewrite zlen_archive_bytes in Hsz by assumption. exact Hsz. }
  pose proof (extract_from_archive zl (with_file_bytes fs (c_str output_name) archive)
                V output_name handle st (map (stored_entry zl fs) nodes)) as Hx.
  rewrite zlen_map in Hx. fold archive in Hx.
  specialize (Hx HV Hn Hsz' (file_bytes_with_file_bytes _ _ _) Hewf Hready).
  unfold first_named.
  pose proof (find_entry_stored zl fs (c_str handle) nodes (3 + 78 * zlen nodes) Hwf) as Hf.
  destruct (find (fun node => bytes_eqb (c_str handle) (c_str (name node))) nodes)
    as [node|] eqn:Efind.
  - destruct Hf as (o & Hf). rewrite Hf in Hx. destruct Hx as [Hnone Hzlib].
    intros bytes Hb.
    apply find_some in Efind. destruct Efind as [Hin _].
    rewrite Forall_forall in Hsrc, Hres.
    destruct (Hsrc node Hin) as (bytes' & Hb' & Hlt & Hdef).
    rewrite Hb in Hb'. inversion Hb'; subst bytes'. clear Hb'.
    pose proof (Hres node Hin bytes Hb) as Hrest.
    unfold stored_entry in Hnone, Hzlib. rewrite Hb in Hnone, Hzlib.
    unfold extracted_buffer.
    destruct (zlen bytes >? 256) eqn:E;
      cbn [entry_compression entry_payload entry_uncompressed_size] in Hnone, Hzlib.
    + apply Z.gtb_lt in E.
      destruct (Hzlib eq_refl bytes) as (st' & Hx' & Hh'); auto.
      * pose proof (zlen_nonneg bytes). lia.
      * exists st'. rewrite app_nil_r. split; [exact Hx'|]. now left.
    + destruct (Hnone eq_refl) as (st' & Hx' & Hh').
      exists st'. split; [exact Hx'|]. now left.
  - rewrite Hf in Hx. destruct Hx as (st' & Hx' & Hh').
    exists st'. split; [exact Hx'|]. now left.
Qed.





(** ** The order of the entry table *)

Lemma le_value_count n :
  0 <= n <= 65535 ->
  Z_of_byte (byte_of_Z n) + 256 * (Z_of_byte (byte_of_Z (n / 256)) + 256 * 0) = n.
Proof.
  intros H. rewrite !Z_of_byte_of_Z.
  rewrite (Z.mod_small (n / 256)).
  - pose proof (Z.div_mod n 256 ltac:(lia)). lia.
  - split; [apply Z.div_pos; lia | apply Z.div_lt_upper_bound; lia].
Qed.

Lemma table_names_from entries :
  Forall entry_wf entries ->
  forall pre off rest start,
    length pre = (3 + 78 * start)%nat ->
    map (fun i => c_str (firstn 64 (skipn (3 + 78 * i)
                                          (pre ++ entry_table entries off ++ rest))))
        (seq start (length entries))
    = map (fun e => c_str (entry_name e)) entries.
Proof.
  induction 1 as [|e entries He _ IH]; intros pre off rest start Hpre.
  - reflexivity.
  - cbn [length seq map entry_table]. f_equal.
    + rewrite <- Hpre, skipn_app, skipn_all, Nat.sub_diag. cbn [skipn app].
      unfold entry_record. rewrite <- !app_assoc.
      rewrite <- (entry_wf_length e He) at 1.
      rewrite firstn_app, firstn_all, Nat.sub_diag. cbn [firstn].
      now rewrite app_nil_r.
    + specialize (IH (pre ++ entry_record e off) (off + zlen (entry_payload e)) rest
                     (S start)).
      rewrite <- !app_assoc in IH. rewrite <- !app_assoc. apply IH.
      rewrite length_app, length_entry_record by now apply entry_wf_length. lia.
Qed.

Lemma table_names_archive V entries :
  Forall entry_wf entries -> zlen entries <= 65535 ->
  table_names (archive_bytes V entries) = map (fun e => c_str (entry_name e)) entries.
Proof.
  intros Hwf Hn. unfold table_names. rewrite archive_bytes_header.
  cbn [skipn firstn Pos.to_nat Pos.iter_op Nat.add le_value].
  replace (skipn 1 (byte_of_Z V :: byte_of_Z (zlen entries)
                    :: byte_of_Z (zlen entries / 256)
                    :: entry_table entries (3 + 78 * zlen entries) ++ payloads entries))
    with (byte_of_Z (zlen entries) :: byte_of_Z (zlen entries / 256)
          :: entry_table entries (3 + 78 * zlen entries) ++ payloads entries)
    by reflexivity.
  cbn [firstn le_value].
  rewrite le_value_count by (pose proof (zlen_nonneg entries); lia).
  replace (Z.to_nat (zlen entries)) with (length entries) by (unfold zlen; lia).
  apply (table_names_from entries Hwf
           [byte_of_Z V; byte_of_Z (zlen entries); byte_of_Z (zlen entries / 256)]
           (3 + 78 * zlen entries) (payloads entries) 0).
  reflexivity.
Qed.

Lemma find_first_split {A} (p : A -> bool) l x :
  find p l = Some x ->
  exists l1 l2, l = l1 ++ x :: l2 /\ p x = true /\ Forall (fun y => p y = false) l1.
Proof.
  induction l as [|a l IH]; [discriminate|]. cbn [find].
  destruct (p a) eqn:E.
  - intros H. inversion H; subst. exists [], l. repeat split; auto.
  - intros H. destruct (IH H) as (l1 & l2 & -> & Hx & Hl1).
    exists (a :: l1), l2. repeat split; auto.
Qed.

(** C2 (as amended): the pack list, and with it the entry table of the
    archive, holds the files in the reverse of the order in which the
    traversal yields them, the file found last first; a lookup takes the
    first match of the scan over the table, so that of several files with
    one derived name it resolves to the one the traversal met last. *)
Theorem table_is_reversed_traversal zl fs V fuel directory_path output_name st1 :
  0 <= V < 256 ->
  _yep_walk_directory_v2 fs fuel directory_path (walk_start directory_path) = Done st1 ->
  creatable fs (c_str output_name) = true ->
  packable zl fs (pack_list_of fs fuel directory_path) ->
  not_a_source output_name (pack_list_of fs fuel directory_path) ->
  z_inflateInit zl = Z_OK ->
  Forall (restorable zl fs) (pack_list_of fs fuel directory_path) ->
  let yielded :=
    traversal fs fuel (Some (normalize_path_separators (c_str directory_path)))
              directory_path in
  let archive := archive_bytes V (map (stored_entry zl fs) (rev yielded)) in
  exists stp,
    _yep_pack_directory zl fs V fuel directory_path output_name packer_init
    = Done (true, stp, with_file_bytes fs (c_str output_name) archive) /\
    head (yep_pack_list st1) = rev yielded /\
    table_names archive = map (fun node => c_str (name node)) (rev yielded) /\
    forall handle node,
      first_named handle (rev yielded) = Some node ->
      (exists before after,
         yielded = before ++ node :: after /\
         c_str (name node) = c_str handle /\
         Forall (fun later => c_str (name later) <> c_str handle) after) /\
      forall st bytes,
        reader_ready st output_name archive (zlen yielded) ->
        file_bytes fs (fullpath node) = Some bytes ->
        exists st',
          yep_extract_data zl (with_file_bytes fs (c_str output_name) archive) V
                           output_name handle st
          = Done ({| data := Some (extracted_buffer bytes); size := zlen bytes |}, st').
Proof.
  intros HV Hw Hcr Hpk Hapart Hii Hres yielded archive.
  destruct (pack_then_extract zl fs V fuel directory_path output_name st1
              HV Hw Hcr Hpk Hapart Hii Hres) as (stp & Hpack & Hx).
  unfold pack_list_of in Hpack, Hx. fold yielded in Hpack, Hx. fold archive in Hpack, Hx.
  pose proof (pack_list_of_wf fs fuel directory_path) as Hwf.
  unfold pack_list_of in Hwf. fold yielded in Hwf.
  destruct Hpk as (_ & _ & Hn & _). unfold pack_list_of in Hn. fold yielded in Hn.
  exists stp. split; [exact Hpack|]. split; [|split].
  - pose proof (walk_pushed fs fuel _ _ _ Hw) as (Hh & _).
    cbn [walk_start with_root plog packer_init yep_pack_list yep_pack_root_path head] in Hh.
    now rewrite app_nil_r in Hh.
  - unfold archive. rewrite table_names_archive.
    + rewrite map_map. apply map_ext_in. intros n Hin.
      rewrite stored_entry_name, node_wf_firstn; [reflexivity|].
      rewrite Forall_forall in Hwf. now apply Hwf.
    + apply Forall_map. eapply Forall_impl; [|exact Hwf].
      intros n. apply stored_entry_wf.
    + now rewrite zlen_map.
  - intros handle node Hfirst. split.
    + unfold first_named in Hfirst.
      destruct (find_first_split _ _ _ Hfirst) as (l1 & l2 & Hl & Hm & Hl1).
      exists (rev l2), (rev l1). repeat split.
      * rewrite <- (rev_involutive yielded), Hl, rev_app_distr. cbn [rev].
        now rewrite <- app_assoc.
      * apply bytes_eqb_eq in Hm. congruence.
      * apply Forall_rev. eapply Forall_impl; [|exact Hl1].
        intros n Hneq E. cbn beta in Hneq. rewrite E, bytes_eqb_refl in Hneq.
        discriminate.
    + intros st bytes Hready Hb.
      assert (Hz : zlen (rev yielded) = zlen yielded)
        by (unfold zlen; now rewrite length_rev).
      rewrite Hz in Hx. specialize (Hx handle st Hready). rewrite Hfirst in Hx.
      destruct (Hx bytes Hb) as (st' & Hx' & _). exists st'. exact Hx'.
Qed.

(** ** The theorems on concrete inputs *)

Lemma example_walk :
  exists st1,
    _yep_walk_directory_v2 example_fs 8 (s2b "d") (walk_start (s2b "d")) = Done st1.
Proof. eexists. vm_compute. reflexivity. Qed.

Lemma example_nodes_eq : example_nodes = [b_bin_node; a_txt_node].
Proof. vm_compute. reflexivity. Qed.

Lemma example_packable : packable rle_zlib example_fs example_nodes.
Proof.
  rewrite example_nodes_eq. split; [reflexivity|]. split; [|split].
  - repeat constructor.
    + exists (repeat xaa 500). split; [reflexivity|]. split; [reflexivity|].
      intros _. vm_compute. reflexivity.
    + exists (s2b "helloworld"). split; [reflexivity|]. split; [reflexivity|].
      intros H. vm_compute in H. discriminate.
  - vm_compute. discriminate.
  - vm_compute. reflexivity.
Qed.

Lemma example_apart : not_a_source (s2b "out.yep") example_nodes.
Proof. apply not_a_source_check. vm_compute. reflexivity. Qed.

Lemma example_restorable : Forall (restorable rle_zlib example_fs) example_nodes.
Proof.
  rewrite example_nodes_eq. repeat constructor; intros bytes Hb Hlen.
  - vm_compute in Hb. inversion Hb; subst. vm_compute. reflexivity.
  - vm_compute in Hb. inversion Hb; subst. vm_compute in Hlen. discriminate.
Qed.


Lemma reader_init_ready file archive count : reader_ready reader_init file archive count.
Proof.
  right. cbn. repeat split; try discriminate; lia.
Qed.


(* The entries of d of [example_fs] are enumerated as a.txt, then
   sub/b.bin; the table of the archive lists sub/b.bin, then a.txt.  In
   [long_way_fs] the walk meets d/s/abc first under the name s/abc and
   d/s/abcd, by the long path, last under that name; the lookup of s/abc
   gives the bytes of d/s/abcd. *)
Lemma table_order_counterexample :
  map (fun node => c_str (name node))
      (traversal example_fs 8 (Some (s2b "d")) (s2b "d"))
  = [s2b "a.txt"; s2b "sub/b.bin"] /\
  match _yep_pack_directory rle_zlib example_fs 1 8 (s2b "d") (s2b "out.yep")
                            packer_init with
  | Done (true, _, fs') =>
      match file_bytes fs' (s2b "out.yep") with
      | Some archive =>
          table_names archive = [s2b "sub/b.bin"; s2b "a.txt"] /\
          table_names archive
          <> map (fun node => c_str (name node))
                 (traversal example_fs 8 (Some (s2b "d")) (s2b "d"))
      | None => False
      end
  | _ => False
  end /\
  map fullpath (traversal long_way_fs 8 (Some (s2b "d")) (s2b "d"))
  = [s2b "d/s/abc"; s2b "d/s/abcd"; long_way ++ s2b "/abc"; long_way ++ s2b "/abcd"] /\
  map (fun node => c_str (name node))
      (traversal long_way_fs 8 (Some (s2b "d")) (s2b "d"))
  = [s2b "s/abc"; s2b "s/abcd"; s2b "s/abc"; s2b "s/abc"] /\
  file_bytes long_way_fs (s2b "d/s/abc") = Some (s2b "first") /\
  file_bytes long_way_fs (long_way ++ s2b "/abc") = Some (s2b "first") /\
  file_bytes long_way_fs (long_way ++ s2b "/abcd") = Some (s2b "second") /\
  match _yep_pack_directory rle_zlib long_way_fs 1 8 (s2b "d") (s2b "out.yep")
                            packer_init with
  | Done (true, _, fs') =>
      match yep_extract_data rle_zlib fs' 1 (s2b "out.yep") (s2b "s/abc") reader_init with
      | Done (info, _) =>
          data info = Some (map Some (s2b "second") ++ [Some x00]) /\
          data info <> Some (map Some (s2b "first") ++ [Some x00])
      | _ => False
      end
  | _ => False
  end.
Proof.
  split; [vm_compute; reflexivity|].
  split; [vm_compute; split; [reflexivity | discriminate]|].
  split; [vm_compute; reflexivity|].
  split; [vm_compute; reflexivity|].
  split; [vm_compute; reflexivity|].
  split; [vm_compute; reflexivity|].
  split; [vm_compute; reflexivity|].
  vm_compute. split; [reflexivity | discriminate].
Qed.

Lemma long_way_walk :
  exists st1,
    _yep_walk_directory_v2 long_way_fs 8 (s2b "d") (walk_start (s2b "d")) = Done st1.
Proof. eexists. vm_compute. reflexivity. Qed.

Lemma long_way_nodes_eq :
  pack_list_of long_way_fs 8 (s2b "d")
  = [new_node (s2b "s/abc") (long_way ++ s2b "/abcd");
     new_node (s2b "s/abc") (long_way ++ s2b "/abc");
     new_node (s2b "s/abcd") (s2b "d/s/abcd");
     new_node (s2b "s/abc") (s2b "d/s/abc")].
Proof. vm_compute. reflexivity. Qed.

Lemma long_way_packable :
  packable rle_zlib long_way_fs (pack_list_of long_way_fs 8 (s2b "d")).
Proof.
  rewrite long_way_nodes_eq. split; [reflexivity|]. split; [|split].
  - repeat constructor.
    + exists (s2b "second"). split; [vm_compute; reflexivity|]. split; [reflexivity|].
      intros H. vm_compute in H. discriminate.
    + exists (s2b "first"). split; [vm_compute; reflexivity|]. split; [reflexivity|].
      intros H. vm_compute in H. discriminate.
    + exists (s2b "second"). split; [vm_compute; reflexivity|]. split; [reflexivity|].
      intros H. vm_compute in H. discriminate.
    + exists (s2b "first"). split; [vm_compute; reflexivity|]. split; [reflexivity|].
      intros H. vm_compute in H. discriminate.
  - vm_compute. discriminate.
  - vm_compute. reflexivity.
Qed.

Lemma long_way_apart :
  not_a_source (s2b "out.yep") (pack_list_of long_way_fs 8 (s2b "d")).
Proof. apply not_a_source_check. vm_compute. reflexivity. Qed.

Lemma long_way_restorable :
  Forall (restorable rle_zlib long_way_fs) (pack_list_of long_way_fs 8 (s2b "d")).
Proof.
  rewrite long_way_nodes_eq. repeat constructor; intros bytes Hb Hlen;
    vm_compute in Hb; inversion Hb; subst; vm_compute in Hlen; discriminate.
Qed.

Lemma table_is_reversed_traversal_witness :
  map fullpath (traversal long_way_fs 8 (Some (s2b "d")) (s2b "d"))
  = [s2b "d/s/abc"; s2b "d/s/abcd"; long_way ++ s2b "/abc"; long_way ++ s2b "/abcd"] /\
  table_names (archive_bytes 1 (map (stored_entry rle_zlib long_way_fs)
                                    (pack_list_of long_way_fs 8 (s2b "d"))))
  = [s2b "s/abc"; s2b "s/abc"; s2b "s/abcd"; s2b "s/abc"] /\
  exists st',
    yep_extract_data rle_zlib
      (with_file_bytes long_way_fs (s2b "out.yep")
         (archive_bytes 1 (map (stored_entry rle_zlib long_way_fs)
                               (pack_list_of long_way_fs 8 (s2b "d")))))
      1 (s2b "out.yep") (s2b "s/abc") reader_init
    = Done ({| data := Some (extracted_buffer (s2b "second")); size := 6 |}, st').
Proof.
  split; [vm_compute; reflexivity|].
  destruct long_way_walk as (st1 & Hw).
  destruct (table_is_reversed_traversal rle_zlib long_way_fs 1 8 (s2b "d") (s2b "out.yep")
              st1 ltac:(lia) Hw eq_refl long_way_packable long_way_apart eq_refl
              long_way_restorable)
    as (stp & _ & _ & Hnames & Hx).
  split.
  - unfold pack_list_of. rewrite Hnames. vm_compute. reflexivity.
  - destruct (Hx (s2b "s/abc") (new_node (s2b "s/abc") (long_way ++ s2b "/abcd")))
      as [_ Hy].
    + vm_compute. reflexivity.
    + destruct (Hy reader_init (s2b "second")) as (st' & E).
      * apply reader_init_ready.
      * vm_compute. reflexivity.
      * exists st'. exact E.
Defined.


(* The directory r of [long_names_fs]: the name of 64 bytes is logged and
   left out, the name of 63 bytes is pushed, and the walk of r ends with
   the two other files on the pack list. *)
Lemma too_long_name_is_skipped_witness :
  (exists st2,
     _recurse_dir_callback long_names_fs (_yep_walk_directory_v2 long_names_fs 0)
                           (s2b "r/") name64 (walk_start (s2b "r"))
     = Done (SDL_ENUM_CONTINUE, st2) /\
     printed st2
     = [(yep_log_debug, PackingDirectory (s2b "r"));
        (yep_log_debug, RetrievedFileInfo (s2b "r/" ++ name64));
        (yep_log_error, RelativePathTooLong (s2b "r/" ++ name64))] /\
     yep_pack_list st2 = yep_pack_list (walk_start (s2b "r")) /\
     enumerate (_recurse_dir_callback long_names_fs
                  (_yep_walk_directory_v2 long_names_fs 0))
               (s2b "r/") [name64; name63; s2b "z"] (walk_start (s2b "r"))
     = enumerate (_recurse_dir_callback long_names_fs
                    (_yep_walk_directory_v2 long_names_fs 0))
                 (s2b "r/") [name63; s2b "z"] st2) /\
  (exists st2,
     _recurse_dir_callback long_names_fs (_yep_walk_directory_v2 long_names_fs 0)
                           (s2b "r/") name63 (walk_start (s2b "r"))
     = Done (SDL_ENUM_CONTINUE, st2) /\
     map (fun node => c_str (name node)) (head (yep_pack_list st2)) = [name63]) /\
  exists st3,
    _yep_walk_directory_v2 long_names_fs 1 (s2b "r") (walk_start (s2b "r")) = Done st3 /\
    map (fun node => c_str (name node)) (head (yep_pack_list st3)) = [s2b "z"; name63] /\
    filter (fun line => match fst line with yep_log_error => true | _ => false end)
           (printed st3)
    = [(yep_log_error, RelativePathTooLong (s2b "r/" ++ name64))].
Proof.
  split; [|split].
  - pose proof (too_long_name_is_skipped long_names_fs
                  (_yep_walk_directory_v2 long_names_fs 0) (s2b "r/") name64
                  [name63; s2b "z"] (walk_start (s2b "r")) (s2b "r")
                  (path_info SDL_PATHTYPE_FILE 10) name64) as H.
    cbn zeta in H.
    destruct (H eq_refl eq_refl eq_refl ltac:(vm_compute; reflexivity)) as [Hlong _].
    destruct (Hlong ltac:(vm_compute; discriminate)) as (st2 & A & B & C & _ & D).
    exists st2. split; [exact A|]. split; [|split; [exact C | exact D]].
    rewrite B. vm_compute. reflexivity.
  - pose proof (too_long_name_is_skipped long_names_fs
                  (_yep_walk_directory_v2 long_names_fs 0) (s2b "r/") name63
                  [s2b "z"] (walk_start (s2b "r")) (s2b "r")
                  (path_info SDL_PATHTYPE_FILE 10) name63) as H.
    cbn zeta in H.
    destruct (H eq_refl eq_refl eq_refl ltac:(vm_compute; reflexivity)) as [_ Hshort].
    destruct (Hshort ltac:(vm_compute; discriminate)) as (st2 & A & _ & B & _ & C & _).
    exists st2. split; [exact A|]. rewrite B. cbn [map]. rewrite C.
    vm_compute. reflexivity.
  - eexists. split; [vm_compute; reflexivity|]. split; vm_compute; reflexivity.
Defined.

Lemma old_yep_bytes :
  exists v c0 c1 rest,
    file_bytes example_disk (c_str (s2b "old.yep")) = Some (v :: c0 :: c1 :: rest) /\
    Z_of_byte v <> 1.
Proof.
  eexists _, _, _, _. split; [vm_compute; reflexivity | vm_compute; discriminate].
Qed.

Lemma failed_open_stays_cached_witness :
  exists st1,
    _yep_open_file example_disk 1 (s2b "old.yep") reader_init = Done (false, st1) /\
    yep_file_path st1 = Live (c_str (s2b "old.yep")) /\
    _yep_open_file example_disk 1 (s2b "old.yep") st1 = Done (true, st1).
Proof.
  destruct old_yep_bytes as (v & c0 & c1 & rest & Hb & Hv).
  destruct (failed_open_stays_cached rle_zlib example_disk 1 (s2b "old.yep") reader_init
              v c0 c1 rest ltac:(discriminate) ltac:(discriminate)
              ltac:(split; [reflexivity | reflexivity]) Hb Hv)
    as (st1 & Ho & Hp & _ & _ & _ & Hagain & _).
  exists st1. split; [exact Ho|]. split; [exact Hp|].
  apply Hagain. exact Hp.
Defined.

(* After the failed open of old.yep, exists and extract search its table. *)
Lemma old_yep_is_read_after_failed_open :
  match _yep_open_file example_disk 1 (s2b "old.yep") reader_init with
  | Done (false, st1) =>
      match yep_item_exists example_disk 1 (s2b "old.yep") (s2b "a.txt") st1 with
      | Done (found, _) => found = true
      | _ => False
      end /\
      match yep_extract_data rle_zlib example_disk 1 (s2b "old.yep") (s2b "a.txt") st1 with
      | Done (info, _) => data info = Some (map Some (s2b "helloworld") ++ [Some x00])
      | _ => False
      end
  | _ => False
  end.
Proof. vm_compute. split; reflexivity. Qed.

Lemma a_txt_run :
  exists st1 v st2,
    _yep_open_file example_packed 1 (s2b "out.yep") reader_init = Done (true, st1) /\
    _yep_seek_header (s2b "a.txt") header_vars_uninit st1 = Done (true, v, st2) /\
    int_of_cells (v_offset v) = Some 163 /\
    int_of_cells (v_size v) = Some 10 /\
    int_of_cells (v_compression_type v) = Some YEP_COMPRESSION_NONE.
Proof.
  eexists _, _, _.
  split; [vm_compute; reflexivity|].
  split; [vm_compute; reflexivity|].
  split; [vm_compute; reflexivity|].
  split; vm_compute; reflexivity.
Qed.

(** ** More entries than the count field holds *)





















(** ** Lookups in a freshly packed archive *)

(* What _yep_open_file and _yep_seek_header do on the archive that
   _yep_pack_directory wrote. *)
Lemma packed_lookup zl fs V fuel directory_path output_name st1 :
  0 <= V < 256 ->
  _yep_walk_directory_v2 fs fuel directory_path (walk_start directory_path) = Done st1 ->
  creatable fs (c_str output_name) = true ->
  packable zl fs (pack_list_of fs fuel directory_path) ->
  not_a_source output_name (pack_list_of fs fuel directory_path) ->
  let nodes := pack_list_of fs fuel directory_path in
  let archive := archive_bytes V (map (stored_entry zl fs) nodes) in
  let fs' := with_file_bytes fs (c_str output_name) archive in
  (exists stp,
     _yep_pack_directory zl fs V fuel directory_path output_name packer_init
     = Done (true, stp, fs')) /\
  forall handle st,
    reader_ready st output_name archive (zlen nodes) ->
    exists sto v sts,
      _yep_open_file fs' V output_name st = Done (true, sto) /\
      _yep_seek_header handle header_vars_uninit sto
      = Done (match first_named handle nodes with Some _ => true | None => false end,
              v, sts) /\
      out sts = out st /\
      holds_archive sts (c_str output_name) archive (zlen nodes).
Proof.
  intros HV Hw Hcr Hpk Hapart nodes archive fs'.
  split; [exact (pack_directory_layout zl fs V fuel directory_path output_name st1 Hw Hcr Hpk Hapart)|].
  intros handle st Hready.
  destruct Hpk as (Hdi & Hsrc & Hn & Hsz). fold nodes in Hsrc, Hn, Hsz.
  pose proof (pack_list_of_wf fs fuel directory_path) as Hwf. fold nodes in Hwf.
  assert (Hewf : Forall entry_wf (map (stored_entry zl fs) nodes)).
  { apply Forall_map. eapply Forall_impl; [|exact Hwf].
    intros n. apply stored_entry_wf. }
  assert (Hb : file_bytes fs' (c_str output_name)
               = Some (archive_bytes V (map (stored_entry zl fs) nodes)))
    by apply file_bytes_with_file_bytes.
  pose proof (open_archive fs' V output_name st (map (stored_entry zl fs) nodes)) as Ho.
  rewrite zlen_map in Ho. specialize (Ho HV Hn Hb Hready).
  destruct Ho as (sto & Ho & Hh & Hout).
  pose proof (seek_header_archive V (c_str output_name) handle sto
                (map (stored_entry zl fs) nodes)) as Hs.
  rewrite zlen_map in Hs. specialize (Hs Hh Hewf).
  destruct Hs as (v & sts & Hs & Hh2 & Hout2 & _).
  exists sto, v, sts. split; [exact Ho|]. split.
  - rewrite Hs. unfold first_named.
    pose proof (find_entry_stored zl fs (c_str handle) nodes (3 + 78 * zlen nodes) Hwf) as Hf.
    destruct (find (fun node => bytes_eqb (c_str handle) (c_str (name node))) nodes).
    + destruct Hf as (o & ->). reflexivity.
    + rewrite Hf. reflexivity.
  - split; [congruence | exact Hh2].
Qed.

Lemma first_named_None handle nodes :
  first_named handle nodes = None <->
  forall node, In node nodes -> c_str (name node) <> c_str handle.
Proof.
  unfold first_named. split.
  - intros H node Hin E.
    pose proof (find_none _ _ H node Hin) as Hn. cbn beta in Hn.
    rewrite E, bytes_eqb_refl in Hn. discriminate.
  - intros H. destruct (find _ nodes) as [node|] eqn:E; [|reflexivity].
    apply find_some in E. destruct E as [Hin Heq].
    apply bytes_eqb_eq in Heq. symmetry in Heq. now apply H in Heq.
Qed.

(** X1: after a directory is packed, extracting a name that no packed file
    has returns (NULL, 0); the only line logged is the warning that the
    handle does not exist in that file, and the reader keeps the archive
    open for the next lookup. *)
Theorem missing_name_is_not_extracted zl fs V fuel directory_path output_name st1 handle st :
  0 <= V < 256 ->
  _yep_walk_directory_v2 fs fuel directory_path (walk_start directory_path) = Done st1 ->
  creatable fs (c_str output_name) = true ->
  packable zl fs (pack_list_of fs fuel directory_path) ->
  not_a_source output_name (pack_list_of fs fuel directory_path) ->
  let nodes := pack_list_of fs fuel directory_path in
  let archive := archive_bytes V (map (stored_entry zl fs) nodes) in
  (forall node, In node nodes -> c_str (name node) <> c_str handle) ->
  reader_ready st output_name archive (zlen nodes) ->
  exists stp fs' st',
    _yep_pack_directory zl fs V fuel directory_path output_name packer_init
    = Done (true, stp, fs') /\
    yep_extract_data zl fs' V output_name handle st = Done (no_data, st') /\
    out st'
    = out st ++ [(yep_log_warning,
                  HandleDoesNotExist (c_str handle) (c_str output_name))] /\
    reader_ready st' output_name archive (zlen nodes).
Proof.
  intros HV Hw Hcr Hpk Hapart nodes archive Hmiss Hready.
  destruct (packed_lookup zl fs V fuel directory_path output_name st1 HV Hw Hcr Hpk Hapart)
    as ((stp & Hpack) & Hlook).
  fold nodes archive in Hpack, Hlook.
  destruct (Hlook handle st Hready) as (sto & v & sts & Ho & Hs & Hout & Hh).
  apply first_named_None in Hmiss. rewrite Hmiss in Hs.
  exists stp, (with_file_bytes fs (c_str output_name) archive). eexists.
  split; [exact Hpack|].
  unfold yep_extract_data. rewrite Ho. cbn [obind negb]. rewrite Hs. cbn [obind negb].
  split; [reflexivity|]. split.
  - cbn [logged out]. now rewrite Hout.
  - left. now apply holds_archive_logged.
Qed.

Lemma missing_name_is_not_extracted_witness :
  exists stp fs' st',
    _yep_pack_directory rle_zlib example_fs 1 8 (s2b "d") (s2b "out.yep") packer_init
    = Done (true, stp, fs') /\
    yep_extract_data rle_zlib fs' 1 (s2b "out.yep") (s2b "c.txt") reader_init
    = Done (no_data, st') /\
    out st' = [(yep_log_warning, HandleDoesNotExist (s2b "c.txt") (s2b "out.yep"))].
Proof.
  destruct example_walk as (st1 & Hw).
  destruct (missing_name_is_not_extracted rle_zlib example_fs 1 8 (s2b "d") (s2b "out.yep")
              st1 (s2b "c.txt") reader_init ltac:(lia) Hw eq_refl example_packable example_apart)
    as (stp & fs' & st' & Hp & Hx & Hout & _).
  - fold example_nodes. rewrite example_nodes_eq.
    intros node [<-|[<-|[]]]; vm_compute; discriminate.
  - apply reader_init_ready.
  - exists stp, fs', st'. split; [exact Hp|]. split; [exact Hx | exact Hout].
Defined.

(** X2: after a directory is packed, yep_item_exists answers true exactly
    for the names of the packed files, logs nothing, and leaves the reader
    holding the archive. *)
Theorem item_exists_iff_packed zl fs V fuel directory_path output_name st1 handle st :
  0 <= V < 256 ->
  _yep_walk_directory_v2 fs fuel directory_path (walk_start directory_path) = Done st1 ->
  creatable fs (c_str output_name) = true ->
  packable zl fs (pack_list_of fs fuel directory_path) ->
  not_a_source output_name (pack_list_of fs fuel directory_path) ->
  let nodes := pack_list_of fs fuel directory_path in
  let archive := archive_bytes V (map (stored_entry zl fs) nodes) in
  reader_ready st output_name archive (zlen nodes) ->
  exists stp fs' found st',
    _yep_pack_directory zl fs V fuel directory_path output_name packer_init
    = Done (true, stp, fs') /\
    yep_item_exists fs' V output_name handle st = Done (found, st') /\
    (found = true <->
     exists node, In node nodes /\ c_str (name node) = c_str handle) /\
    out st' = out st /\
    reader_ready st' output_name archive (zlen nodes).
Proof.
  intros HV Hw Hcr Hpk Hapart nodes archive Hready.
  destruct (packed_lookup zl fs V fuel directory_path output_name st1 HV Hw Hcr Hpk Hapart)
    as ((stp & Hpack) & Hlook).
  fold nodes archive in Hpack, Hlook.
  destruct (Hlook handle st Hready) as (sto & v & sts & Ho & Hs & Hout & Hh).
  exists stp, (with_file_bytes fs (c_str output_name) archive).
  eexists _, sts. split; [exact Hpack|].
  unfold yep_item_exists. rewrite Ho. cbn [obind negb]. rewrite Hs. cbn [obind].
  split; [reflexivity|]. split; [|split; [exact Hout | now left]].
  destruct (first_named handle nodes) as [node|] eqn:E.
  - split; [|reflexivity]. intros _. unfold first_named in E.
    apply find_some in E. destruct E as [Hin Heq]. apply bytes_eqb_eq in Heq.
    exists node. split; [exact Hin | now symmetry].
  - split; [discriminate|]. intros (node & Hin & Heq).
    destruct (proj1 (first_named_None handle nodes) E node Hin Heq).
Qed.

Lemma item_exists_iff_packed_witness :
  exists stp fs' st',
    _yep_pack_directory rle_zlib example_fs 1 8 (s2b "d") (s2b "out.yep") packer_init
    = Done (true, stp, fs') /\
    yep_item_exists fs' 1 (s2b "out.yep") (s2b "sub/b.bin") reader_init
    = Done (true, st').
Proof.
  destruct example_walk as (st1 & Hw).
  destruct (item_exists_iff_packed rle_zlib example_fs 1 8 (s2b "d") (s2b "out.yep")
              st1 (s2b "sub/b.bin") reader_init ltac:(lia) Hw eq_refl example_packable example_apart)
    as (stp & fs' & found & st' & Hp & Hx & Hiff & _).
  - apply reader_init_ready.
  - exists stp, fs', st'. split; [exact Hp|].
    replace found with true in Hx; [exact Hx|].
    symmetry. apply Hiff. exists b_bin_node. split.
    + fold example_nodes. rewrite example_nodes_eq. now left.
    + reflexivity.
Defined.

(** ** The cache of the reader at its edges *)

Lemma strcmp_eq_refl p : strcmp_eq p p = true.
Proof. unfold strcmp_eq. apply bytes_eqb_refl. Qed.

Lemma seek_header_null handle v st :
  yep_file st = None -> _yep_seek_header handle v st = Undefined.
Proof. intros H. unfold _yep_seek_header. now rewrite H. Qed.

(** X3: when fopen fails on a new path while another archive is cached,
    _yep_open_file returns false with yep_file set to NULL and the path of
    the previous archive still cached (its stream stays open); the next
    lookup in the previous archive then takes the cached path for an open
    file and seeks on the NULL stream. *)
Theorem failed_fopen_poisons_cache zl fs V file st p :
  yep_file_path st = Live p ->
  strcmp_eq p file = false ->
  file_bytes fs (c_str file) = None ->
  exists st1,
    _yep_open_file fs V file st = Done (false, st1) /\
    yep_file_path st1 = Live p /\
    yep_file st1 = None /\
    open_streams st1 = open_streams st /\
    out st1 = out st ++ [(yep_log_error, ErrorOpeningYepFile)] /\
    (forall handle,
       yep_item_exists fs V p handle st1 = Undefined /\
       yep_extract_data zl fs V p handle st1 = Undefined).
Proof.
  intros Hp Hne Hb. eexists. split.
  { unfold _yep_open_file, fopen_rb. rewrite Hp, Hne, Hb. reflexivity. }
  cbn [logged with_file yep_file_path yep_file open_streams out yep_logf].
  split; [exact Hp|]. split; [reflexivity|]. split; [reflexivity|].
  split; [reflexivity|].
  intros handle.
  set (st1 := logged (with_file st None) (yep_logf yep_log_error ErrorOpeningYepFile)).
  assert (Ho : _yep_open_file fs V p st1 = Done (true, st1)).
  { unfold _yep_open_file. cbn [st1 logged with_file yep_file_path].
    rewrite Hp, strcmp_eq_refl. reflexivity. }
  unfold yep_item_exists, yep_extract_data. rewrite Ho. cbn [obind negb].
  rewrite seek_header_null by reflexivity. split; reflexivity.
Qed.

Lemma failed_fopen_poisons_cache_witness :
  yep_file_path opened_reader = Live (s2b "out.yep") /\
  exists st1,
    _yep_open_file example_disk 1 (s2b "gone.yep") opened_reader = Done (false, st1) /\
    yep_item_exists example_disk 1 (s2b "out.yep") (s2b "a.txt") st1 = Undefined.
Proof.
  assert (Hp : yep_file_path opened_reader = Live (s2b "out.yep"))
    by (vm_compute; reflexivity).
  split; [exact Hp|].
  destruct (failed_fopen_poisons_cache rle_zlib example_disk 1 (s2b "gone.yep")
              opened_reader (s2b "out.yep") Hp eq_refl eq_refl)
    as (st1 & Ho & _ & _ & _ & _ & Hu).
  exists st1. split; [exact Ho | exact (proj1 (Hu (s2b "a.txt")))].
Defined.

(** X4: _yep_close_file closes the stream of the archive and resets the
    entry count and the version; a second call finds no file open and
    changes nothing, and so does a call when nothing was open. *)
Theorem close_file_is_idempotent st st1 :
  _yep_close_file st = Done st1 ->
  _yep_close_file st1 = Done st1 /\
  yep_file st1 = None /\
  (yep_file st = None -> st1 = st) /\
  (forall f, yep_file st = Some f ->
     ~ In (fd f) (open_streams st1) /\
     file_entry_count st1 = 0 /\ file_version_number st1 = 0 /\
     out st1 = out st).
Proof.
  unfold _yep_close_file at 1. destruct (yep_file st) as [f0|] eqn:Ef.
  - assert (Hnot : forall p c v,
              ~ In (fd f0)
                  (open_streams
                     {| yep_file_path := p; yep_file := None; file_entry_count := c;
                        file_version_number := v;
                        open_streams := open_streams (fclose f0 st);
                        next_fd := next_fd (fclose f0 st);
                        out := out (fclose f0 st) |})).
    { intros p c v Hin. cbn [open_streams fclose] in Hin.
      apply filter_In in Hin. destruct Hin as [_ Hin].
      rewrite Nat.eqb_refl in Hin. discriminate. }
    destruct (yep_file_path (fclose f0 st)) eqn:Ep; try discriminate;
      intros H; inversion H; subst st1; clear H;
      (split; [reflexivity|]); (split; [reflexivity|]);
      (split; [discriminate|]); intros f1 Hf1; inversion Hf1; subst f1;
      (split; [apply Hnot|]); repeat split.
  - intros H. inversion H; subst st1. unfold _yep_close_file. rewrite Ef.
    split; [reflexivity|]. split; [reflexivity|]. split; [reflexivity|].
    intros f1 Hf1. discriminate.
Qed.

Lemma close_file_is_idempotent_witness :
  exists st1,
    _yep_close_file opened_reader = Done st1 /\
    _yep_close_file st1 = Done st1 /\
    open_streams st1 = [].
Proof.
  assert (Hc : exists st1, _yep_close_file opened_reader = Done st1 /\ open_streams st1 = []).
  { eexists. split; [vm_compute; reflexivity | reflexivity]. }
  destruct Hc as (st1 & Hc & Hs).
  exists st1. split; [exact Hc|].
  split; [exact (proj1 (close_file_is_idempotent opened_reader st1 Hc)) | exact Hs].
Defined.

(** X5: _yep_close_file frees the cached path and leaves the pointer as it
    is, so after an archive was closed every further open, lookup or
    extraction compares against the freed string: the reader cannot be used
    again. *)
Theorem reader_is_unusable_after_close zl fs V st f p :
  yep_file st = Some f ->
  yep_file_path st = Live p ->
  exists st1,
    _yep_close_file st = Done st1 /\
    yep_file_path st1 = Freed /\
    forall file handle,
      _yep_open_file fs V file st1 = Undefined /\
      yep_item_exists fs V file handle st1 = Undefined /\
      yep_extract_data zl fs V file handle st1 = Undefined.
Proof.
  intros Hf Hp. eexists. split.
  { unfold _yep_close_file. rewrite Hf. cbn [fclose yep_file_path]. rewrite Hp.
    reflexivity. }
  split; [reflexivity|].
  intros file handle.
  unfold yep_item_exists, yep_extract_data, _yep_open_file.
  cbn [yep_file_path obind]. repeat split.
Qed.

Lemma reader_is_unusable_after_close_witness :
  exists st1,
    _yep_close_file opened_reader = Done st1 /\
    yep_extract_data rle_zlib example_disk 1 (s2b "out.yep") (s2b "a.txt") st1
    = Undefined.
Proof.
  assert (Hf : exists f, yep_file opened_reader = Some f)
    by (eexists; vm_compute; reflexivity).
  destruct Hf as (f & Hf).
  assert (Hp : yep_file_path opened_reader = Live (s2b "out.yep"))
    by (vm_compute; reflexivity).
  destruct (reader_is_unusable_after_close rle_zlib example_disk 1 opened_reader f
              (s2b "out.yep") Hf Hp) as (st1 & Hc & _ & Hu).
  exists st1. split; [exact Hc|].
  exact (proj2 (proj2 (Hu (s2b "out.yep") (s2b "a.txt")))).
Defined.

Lemma fread_int_empty width old d p :
  0 <= old < 256 ^ Z.of_nat width ->
  fread_int width old {| fd := d; content := []; pos := p |}
  = (old, {| fd := d; content := []; pos := p |}).
Proof.
  intros H. unfold fread_int, fread. cbn [content pos fd].
  rewrite skipn_nil, firstn_nil. cbn [app length skipn zlen Z.of_nat].
  rewrite le_value_le_bytes_small by assumption. now rewrite Z.add_0_r.
Qed.

(** X6: a file of no bytes gives fread nothing to store, so the version
    and the entry count of the archive opened before stay in place: after a
    successful open of an archive with entries, _yep_open_file accepts an
    empty file, and a lookup in it compares the handle with the name buffer
    that no read has filled. *)
Theorem empty_file_keeps_old_header zl fs V file st p :
  yep_file_path st = Live p ->
  strcmp_eq p file = false ->
  file_bytes fs (c_str file) = Some [] ->
  file_version_number st = V ->
  0 < file_entry_count st < 65536 ->
  exists st1,
    _yep_open_file fs V file st = Done (true, st1) /\
    yep_file_path st1 = Live (c_str file) /\
    file_entry_count st1 = file_entry_count st /\
    file_version_number st1 = V /\
    (forall handle,
       yep_item_exists fs V file handle st = Undefined /\
       yep_extract_data zl fs V file handle st = Undefined).
Proof.
  intros Hp Hne Hb Hv Hc.
  assert (Ho : exists st1,
             _yep_open_file fs V file st = Done (true, st1) /\
             yep_file_path st1 = Live (c_str file) /\
             file_entry_count st1 = file_entry_count st /\
             file_version_number st1 = V /\
             yep_file st1 = Some {| fd := next_fd st; content := []; pos := 0 |}).
  { unfold _yep_open_file, fopen_rb. rewrite Hp, Hne, Hb.
    cbn [file_version_number file_entry_count open_streams next_fd out].
    rewrite fread_int_empty
      by (change (256 ^ Z.of_nat 1) with 256; apply Z.mod_pos_bound; lia).
    rewrite fread_int_empty by (change (256 ^ Z.of_nat 2) with 65536; lia).
    replace (256 * (file_version_number st / 256) + file_version_number st mod 256)
      with (file_version_number st)
      by (rewrite (Z.div_mod (file_version_number st) 256) at 1; lia).
    rewrite Hv, Z.eqb_refl. cbn [negb].
    eexists. split; [reflexivity|]. repeat split. }
  destruct Ho as (st1 & Ho & Hp1 & Hc1 & Hv1 & Hf1).
  exists st1. split; [exact Ho|]. split; [exact Hp1|]. split; [exact Hc1|].
  split; [exact Hv1|].
  intros handle.
  assert (Hs : _yep_seek_header handle header_vars_uninit st1 = Undefined).
  { unfold _yep_seek_header. rewrite Hf1, Hc1.
    destruct (Z.to_nat (file_entry_count st)) as [|n] eqn:En; [lia|].
    cbn [seek_loop]. unfold fread_cells, fread. cbn [fseek content pos fd].
    rewrite !skipn_nil, !firstn_nil.
    replace (strcmp_cells (c_str handle) (store (v_name header_vars_uninit) []))
      with (@None bool) by (destruct (c_str handle); reflexivity).
    reflexivity. }
  unfold yep_item_exists, yep_extract_data. rewrite Ho. cbn [obind negb].
  rewrite Hs. split; reflexivity.
Qed.

Lemma empty_file_keeps_old_header_witness :
  file_entry_count opened_reader = 2 /\
  exists st1,
    _yep_open_file empty_file_disk 1 (s2b "empty.yep") opened_reader = Done (true, st1) /\
    file_entry_count st1 = 2 /\
    yep_item_exists empty_file_disk 1 (s2b "empty.yep") (s2b "a.txt") opened_reader
    = Undefined.
Proof.
  assert (Hp : yep_file_path opened_reader = Live (s2b "out.yep"))
    by (vm_compute; reflexivity).
  assert (Hc : file_entry_count opened_reader = 2) by (vm_compute; reflexivity).
  assert (Hv : file_version_number opened_reader = 1) by (vm_compute; reflexivity).
  split; [exact Hc|].
  destruct (empty_file_keeps_old_header rle_zlib empty_file_disk 1 (s2b "empty.yep")
              opened_reader (s2b "out.yep") Hp eq_refl eq_refl Hv
              ltac:(rewrite Hc; lia))
    as (st1 & Ho & _ & Hc1 & _ & Hu).
  exists st1. split; [exact Ho|]. split; [now rewrite Hc1|].
  exact (proj1 (Hu (s2b "a.txt"))).
Defined.

(** ** The writer at its edges *)

Lemma le_bytes2_0 : le_bytes 2 (u16 0) = [x00; x00].
Proof. reflexivity. Qed.

Lemma le_bytes1_u8 V : le_bytes 1 (u8 V) = [byte_of_Z V].
Proof. cbn [le_bytes]. unfold u8. now rewrite byte_of_Z_mod. Qed.

(* The walk of a path that is no directory leaves the pack list alone. *)
Lemma walk_of_no_directory fs fuel dir st :
  match SDL_GetPathInfo fs (c_str dir) with
  | Some info => SDL.type info <> SDL_PATHTYPE_DIRECTORY
  | None => True
  end ->
  exists lines, _yep_walk_directory_v2 fs (S fuel) dir st = Done (plog st lines).
Proof.
  intros H. cbn [_yep_walk_directory_v2]. unfold yep_get_path_info.
  destruct (SDL_GetPathInfo fs (c_str dir)) as [info|].
  - destruct (SDL.type info); try contradiction; cbn [SDL_PathType_eqb negb];
      eexists; unfold plog at 1; cbn [plog yep_pack_list yep_pack_root_path printed];
      rewrite <- app_assoc; reflexivity.
  - eexists. reflexivity.
Qed.

(** X7: packing a path that does not exist, or that is no directory, is no
    error: _yep_pack_directory returns true and writes an archive of three
    bytes, the version and an entry count of zero, in which no name is
    found. *)
Theorem missing_directory_packs_empty zl fs V fuel directory_path output_name :
  match SDL_GetPathInfo fs (c_str directory_path) with
  | Some info => SDL.type info <> SDL_PATHTYPE_DIRECTORY
  | None => True
  end ->
  creatable fs (c_str output_name) = true ->
  let fs' := with_file_bytes fs (c_str output_name) [byte_of_Z V; x00; x00] in
  exists stp,
    _yep_pack_directory zl fs V (S fuel) directory_path output_name packer_init
    = Done (true, stp, fs') /\
    yep_pack_list stp = {| entry_count := 0; head := [] |} /\
    (0 <= V < 256 ->
     forall handle, exists st',
       yep_item_exists fs' V output_name handle reader_init = Done (false, st')).
Proof.
  intros Hd Hcr fs'.
  destruct (walk_of_no_directory fs fuel directory_path (walk_start directory_path) Hd)
    as (lines & Hw).
  eexists. split; [|split].
  - unfold _yep_pack_directory. fold (walk_start directory_path). rewrite Hw.
    cbn [obind]. rewrite Hcr. cbn [negb].
    cbn [walk_start packer_init plog with_root yep_pack_list entry_count head
         write_headers].
    rewrite le_bytes2_0, le_bytes1_u8.
    unfold write_pack_file.
    cbn [plog with_root with_list yep_pack_list entry_count head write_pack_loop obind].
    reflexivity.
  - reflexivity.
  - intros HV handle. unfold yep_item_exists.
    rewrite (open_reads_header fs' V output_name reader_init (byte_of_Z V) x00 x00 [])
      by (exact I || apply file_bytes_with_file_bytes).
    cbn [file_version_number reader_init].
    rewrite Z_of_byte_of_Z, Z.mod_small by lia.
    change (256 * (0 / 256) + V) with V. rewrite Z.eqb_refl. cbn [negb obind].
    eexists. reflexivity.
Qed.

Lemma missing_directory_packs_empty_witness :
  exists stp,
    _yep_pack_directory rle_zlib example_fs 1 1 (s2b "nowhere") (s2b "out.yep") packer_init
    = Done (true, stp, with_file_bytes example_fs (s2b "out.yep") [x01; x00; x00]).
Proof.
  destruct (missing_directory_packs_empty rle_zlib example_fs 1 0 (s2b "nowhere")
              (s2b "out.yep") I eq_refl) as (stp & Hp & _).
  exists stp. exact Hp.
Defined.

(* The pack list when the walk of _yep_pack_directory has returned. *)
Lemma walk_start_list fs fuel directory_path st1 :
  _yep_walk_directory_v2 fs fuel directory_path (walk_start directory_path) = Done st1 ->
  head (yep_pack_list st1) = pack_list_of fs fuel directory_path /\
  entry_count (yep_pack_list st1) = zlen (pack_list_of fs fuel directory_path).
Proof.
  intros Hw.
  pose proof (walk_pushed fs fuel _ _ _ Hw) as (Hh & Hcnt & _).
  cbn [walk_start with_root plog packer_init yep_pack_list yep_pack_root_path
       head entry_count] in Hh, Hcnt.
  rewrite app_nil_r in Hh. split; [exact Hh|].
  rewrite Hcnt. unfold pack_list_of, zlen. rewrite length_rev. lia.
Qed.

(** X8: when the output file cannot be opened for writing,
    _yep_pack_directory returns false and writes nothing, but the pack list
    it has built stays in place: the head still holds every file of the
    walk and the count their number. *)
Theorem failed_pack_keeps_the_list zl fs V fuel directory_path output_name st1 :
  _yep_walk_directory_v2 fs fuel directory_path (walk_start directory_path) = Done st1 ->
  creatable fs (c_str output_name) = false ->
  exists stp,
    _yep_pack_directory zl fs V fuel directory_path output_name packer_init
    = Done (false, stp, fs) /\
    head (yep_pack_list stp) = pack_list_of fs fuel directory_path /\
    entry_count (yep_pack_list stp) = zlen (pack_list_of fs fuel directory_path) /\
    yep_pack_root_path stp = None /\
    last (printed stp) (yep_log_debug, PackDone)
    = (yep_log_error, ErrorOpeningOutput (c_str output_name)).
Proof.
  intros Hw Hcr.
  destruct (walk_start_list fs fuel directory_path st1 Hw) as [Hh Hc].
  eexists. split.
  { unfold _yep_pack_directory. fold (walk_start directory_path). rewrite Hw.
    cbn [obind]. rewrite Hcr. reflexivity. }
  cbn [plog with_root yep_pack_list yep_pack_root_path printed yep_logf].
  split; [exact Hh|]. split; [exact Hc|]. split; [reflexivity|].
  apply last_last.
Qed.

Lemma failed_pack_keeps_the_list_witness :
  exists stp,
    _yep_pack_directory rle_zlib
      {| SDL_GetPathInfo := SDL_GetPathInfo example_fs;
         dir_entries := dir_entries example_fs;
         file_bytes := file_bytes example_fs;
         creatable := fun _ => false;
         partly_written := fun _ _ => Some [] |}
      1 8 (s2b "d") (s2b "out.yep") packer_init
    = Done (false, stp,
            {| SDL_GetPathInfo := SDL_GetPathInfo example_fs;
               dir_entries := dir_entries example_fs;
               file_bytes := file_bytes example_fs;
               creatable := fun _ => false;
               partly_written := fun _ _ => Some [] |}) /\
    map fullpath (head (yep_pack_list stp)) = [s2b "d/sub/b.bin"; s2b "d/a.txt"].
Proof.
  set (fs := {| SDL_GetPathInfo := SDL_GetPathInfo example_fs;
                dir_entries := dir_entries example_fs;
                file_bytes := file_bytes example_fs;
                creatable := fun _ => false;
                partly_written := fun _ _ => Some [] |}).
  assert (Hw : exists st1,
             _yep_walk_directory_v2 fs 8 (s2b "d") (walk_start (s2b "d")) = Done st1).
  { eexists. vm_compute. reflexivity. }
  destruct Hw as (st1 & Hw).
  destruct (failed_pack_keeps_the_list rle_zlib fs 1 8 (s2b "d") (s2b "out.yep") st1
              Hw eq_refl) as (stp & Hp & Hh & _).
  exists stp. split; [exact Hp|]. rewrite Hh. vm_compute. reflexivity.
Defined.

Lemma stored_payload_bound zl fs node :
  zlib_in_bounds zl -> source_ok zl fs node ->
  zlen (entry_payload (stored_entry zl fs node)) < 4294967296.
Proof.
  intros Hb (bytes & Hf & Hlt & _). unfold stored_entry. rewrite Hf.
  destruct (zlen bytes >? 256); cbn [entry_payload]; [|exact Hlt].
  pose proof (u32_range (zlen bytes + zlen bytes / 10 + 12)) as Hr.
  destruct (Hb bytes (u32 (zlen bytes + zlen bytes / 10 + 12)) ltac:(lia)) as [Hd _].
  lia.
Qed.

Lemma write_pack_loop_exits zl src fs before node after :
  z_deflateInit zl = Z_OK ->
  zlib_in_bounds zl ->
  reads_as src fs (before ++ [node]) ->
  Forall (source_ok zl fs) before ->
  file_bytes fs (fullpath node) = None ->
  forall f data_end k,
    write_pack_loop zl src (before ++ node :: after) f data_end k = Exited 1.
Proof.
  intros Hi Hb Hrd Hsrc Hn. induction Hsrc as [|x before Hx _ IH]; intros f data_end k.
  - cbn [app write_pack_loop]. rewrite (Hrd f node) by now left. now rewrite Hn.
  - cbn [app] in Hrd. destruct (reads_as_cons _ _ _ _ Hrd) as [Hr1 Hr2].
    cbn [app]. rewrite (write_pack_loop_step zl src fs);
      [apply IH; assumption | assumption | apply Hr1 | assumption |].
    now apply stored_payload_bound.
Qed.

(** X9: a source file that cannot be opened ends the process: when the
    files before it in the pack list were written, write_pack_file calls
    exit(1), so _yep_pack_directory does not return.  The output is none
    of these files: a file that is the output itself exists once the
    output is opened, and is read as far as it is written. *)
Theorem unreadable_source_exits zl fs V fuel directory_path output_name st1
    before node after :
  _yep_walk_directory_v2 fs fuel directory_path (walk_start directory_path) = Done st1 ->
  creatable fs (c_str output_name) = true ->
  pack_list_of fs fuel directory_path = before ++ node :: after ->
  not_a_source output_name (before ++ [node]) ->
  z_deflateInit zl = Z_OK ->
  zlib_in_bounds zl ->
  Forall (source_ok zl fs) before ->
  file_bytes fs (fullpath node) = None ->
  _yep_pack_directory zl fs V fuel directory_path output_name packer_init = Exited 1.
Proof.
  intros Hw Hcr Hl Hapart Hi Hb Hsrc Hn.
  destruct (walk_start_list fs fuel directory_path st1 Hw) as [Hh Hc].
  unfold _yep_pack_directory. fold (walk_start directory_path). rewrite Hw.
  cbn [obind]. rewrite Hcr. cbn [negb]. unfold write_pack_file.
  cbn [plog with_root with_list yep_pack_list].
  rewrite Hh, Hl.
  rewrite (write_pack_loop_exits zl (while_writing fs (c_str output_name)) fs)
    by (assumption || now apply while_writing_reads_as).
  reflexivity.
Qed.

Lemma rle_in_bounds : zlib_in_bounds rle_zlib.
Proof.
  intros input avail Ha. cbn [rle_zlib z_deflate z_inflate].
  assert (Hf : forall o : list byte, zlen (firstn (Z.to_nat avail) o) <= avail).
  { intros o. unfold zlen. rewrite length_firstn. lia. }
  split.
  - destruct (zlen (rle_bytes (rle_encode input)) <=? avail) eqn:E; cbn [snd].
    + now apply Z.leb_le.
    + apply Hf.
  - destruct (rle_decode input) as [o|]; [|exact Ha].
    destruct (zlen o <=? avail) eqn:E; cbn [snd].
    + now apply Z.leb_le.
    + apply Hf.
Qed.

Lemma unreadable_source_exits_witness :
  _yep_pack_directory rle_zlib locked_fs 1 8 (s2b "d") (s2b "out.yep") packer_init
  = Exited 1.
Proof.
  assert (Hw : exists st1,
             _yep_walk_directory_v2 locked_fs 8 (s2b "d") (walk_start (s2b "d")) = Done st1).
  { eexists. vm_compute. reflexivity. }
  destruct Hw as (st1 & Hw).
  apply (unreadable_source_exits rle_zlib locked_fs 1 8 (s2b "d") (s2b "out.yep") st1
           [] (new_node (s2b "k") (s2b "d/k")) [] Hw eq_refl);
    [vm_compute; reflexivity | apply not_a_source_check; vm_compute; reflexivity
    | reflexivity | exact rle_in_bounds | constructor | reflexivity].
Defined.

(** X10: write_pack_file does not look at what compress_data returns: when
    the compression of a file over 256 bytes fails, the loop goes on with
    the output buffer that compress_data has freed or never allocated.
    [src] is the file system in which the source is opened. *)
Theorem failed_compression_is_not_checked zl src node next pack_file data_end
    current_entry bytes :
  file_bytes (src pack_file) (fullpath node) = Some bytes ->
  256 < zlen bytes < 4294967296 ->
  fst (fst (compress_data zl bytes (zlen bytes))) <> 0 ->
  fst (fst (compress_data zl bytes (zlen bytes))) = -1 /\
  write_pack_loop zl src (node :: next) pack_file data_end current_entry = Undefined.
Proof.
  intros Hf Hlen Hret.
  rewrite (write_pack_loop_zlib zl src node next pack_file data_end current_entry bytes
             Hf Hlen).
  cbv zeta. revert Hret. unfold compress_data.
  destruct (negb (z_deflateInit zl =? Z_OK)); [intros _; split; reflexivity|].
  rewrite (u32_small (zlen bytes)) by lia. rewrite firstn_zlen.
  destruct (z_deflate zl bytes (u32 (zlen bytes + zlen bytes / 10 + 12)))
    as [status produced].
  cbn [fst snd].
  destruct (negb (status =? Z_STREAM_END)); cbn [fst]; [intros _; split; reflexivity|].
  intros H. now contradiction H.
Qed.

Lemma failed_compression_is_not_checked_witness :
  write_pack_loop broken_zlib (fun _ => example_fs) [b_bin_node]
                  {| fd := 0%nat; content := []; pos := 0 |} 81 0
  = Undefined.
Proof.
  apply (failed_compression_is_not_checked broken_zlib (fun _ => example_fs) b_bin_node []
           {| fd := 0%nat; content := []; pos := 0 |} 81 0 (repeat xaa 500));
    [reflexivity | vm_compute; split; reflexivity | vm_compute; discriminate].
Defined.

(** ** The layout the writer produces, seen through the reader *)

(* The record _yep_seek_header reads for a name of a packed archive. *)
Lemma packed_entry zl fs V fuel directory_path output_name st1 :
  0 <= V < 256 ->
  _yep_walk_directory_v2 fs fuel directory_path (walk_start directory_path) = Done st1 ->
  creatable fs (c_str output_name) = true ->
  packable zl fs (pack_list_of fs fuel directory_path) ->
  not_a_source output_name (pack_list_of fs fuel directory_path) ->
  let nodes := pack_list_of fs fuel directory_path in
  let entries := map (stored_entry zl fs) nodes in
  let archive := archive_bytes V entries in
  let fs' := with_file_bytes fs (c_str output_name) archive in
  forall handle st,
    reader_ready st output_name archive (zlen nodes) ->
    exists sto found v sts,
      _yep_open_file fs' V output_name st = Done (true, sto) /\
      _yep_seek_header handle header_vars_uninit sto = Done (found, v, sts) /\
      (found = true ->
       exists before e after,
         entries = before ++ e :: after /\
         v = vars_of e (3 + 78 * zlen nodes + zlen (payloads before))).
Proof.
  intros HV Hw Hcr Hpk Hapart nodes entries archive fs' handle st Hready.
  destruct Hpk as (Hdi & Hsrc & Hn & Hsz). fold nodes in Hsrc, Hn, Hsz.
  pose proof (pack_list_of_wf fs fuel directory_path) as Hwf. fold nodes in Hwf.
  assert (Hewf : Forall entry_wf entries).
  { apply Forall_map. eapply Forall_impl; [|exact Hwf].
    intros n. apply stored_entry_wf. }
  assert (Hb : file_bytes fs' (c_str output_name) = Some (archive_bytes V entries))
    by apply file_bytes_with_file_bytes.
  assert (Hze : zlen entries = zlen nodes) by apply zlen_map.
  pose proof (open_archive fs' V output_name st entries) as Ho.
  rewrite Hze in Ho. specialize (Ho HV Hn Hb Hready).
  destruct Ho as (sto & Ho & Hh & Hout).
  pose proof (seek_header_archive V (c_str output_name) handle sto entries) as Hs.
  rewrite Hze in Hs. specialize (Hs Hh Hewf).
  destruct Hs as (v & sts & Hs & _ & _ & Hv).
  exists sto. eexists. exists v, sts. split; [exact Ho|]. split; [exact Hs|].
  destruct (find_entry (c_str handle) entries (3 + 78 * zlen nodes)) as [[e o]|] eqn:E;
    [|discriminate].
  intros _. destruct (find_entry_split _ _ _ _ _ E) as (before & after & He & Hoff & _).
  exists before, e, after. split; [exact He|]. rewrite <- Hoff. now apply Hv.
Qed.

(** X11: in a packed archive every entry the reader finds points into the
    file and behind the table: the offset it reads is at least
    3 + 78 * count, and offset plus stored size is at most the length of
    the archive. *)
Theorem payload_lies_behind_the_table zl fs V fuel directory_path output_name st1
    handle st sto v sts :
  0 <= V < 256 ->
  _yep_walk_directory_v2 fs fuel directory_path (walk_start directory_path) = Done st1 ->
  creatable fs (c_str output_name) = true ->
  packable zl fs (pack_list_of fs fuel directory_path) ->
  not_a_source output_name (pack_list_of fs fuel directory_path) ->
  let nodes := pack_list_of fs fuel directory_path in
  let archive := archive_bytes V (map (stored_entry zl fs) nodes) in
  let fs' := with_file_bytes fs (c_str output_name) archive in
  reader_ready st output_name archive (zlen nodes) ->
  _yep_open_file fs' V output_name st = Done (true, sto) ->
  _yep_seek_header handle header_vars_uninit sto = Done (true, v, sts) ->
  (exists stp,
     _yep_pack_directory zl fs V fuel directory_path output_name packer_init
     = Done (true, stp, fs')) /\
  file_bytes fs' (c_str output_name) = Some archive /\
  exists offset size,
    int_of_cells (v_offset v) = Some offset /\
    int_of_cells (v_size v) = Some size /\
    3 + 78 * zlen nodes <= offset /\
    0 <= size /\
    offset + size <= zlen archive.
Proof.
  intros HV Hw Hcr Hpk Hapart nodes archive fs' Hready Ho Hs.
  split; [exact (pack_directory_layout zl fs V fuel directory_path output_name st1 Hw Hcr Hpk Hapart)|].
  split; [apply file_bytes_with_file_bytes|].
  destruct (packed_entry zl fs V fuel directory_path output_name st1 HV Hw Hcr Hpk Hapart
              handle st Hready) as (sto' & found & v' & sts' & Ho' & Hs' & Hv).
  fold nodes archive fs' in Ho', Hs', Hv.
  rewrite Ho in Ho'. inversion Ho'; subst sto'. clear Ho'.
  rewrite Hs in Hs'. inversion Hs'; subst found v' sts'. clear Hs'.
  destruct (Hv eq_refl) as (before & e & after & He & ->).
  destruct Hpk as (_ & _ & Hn & Hsz). fold nodes in Hn, Hsz.
  pose proof (pack_list_of_wf fs fuel directory_path) as Hwf. fold nodes in Hwf.
  rewrite zlen_archive_bytes in Hsz by assumption.
  assert (Hlen : zlen archive
                 = 3 + 78 * zlen nodes + zlen (payloads (map (stored_entry zl fs) nodes)))
    by (apply zlen_archive_bytes; assumption).
  rewrite He in Hsz, Hlen. rewrite payloads_app, !zlen_app in Hsz, Hlen.
  unfold payloads at 2 in Hsz. unfold payloads at 2 in Hlen.
  cbn [map concat] in Hsz, Hlen. fold (payloads after) in Hsz, Hlen.
  rewrite zlen_app in Hsz, Hlen.
  pose proof (zlen_nonneg (payloads before)).
  pose proof (zlen_nonneg (payloads after)).
  pose proof (zlen_nonneg (entry_payload e)).
  pose proof (zlen_nonneg nodes).
  exists (3 + 78 * zlen nodes + zlen (payloads before)), (zlen (entry_payload e)).
  cbn [vars_of v_offset v_size].
  split; [apply use_int_Done, use_int_le_bytes4; lia|].
  split; [apply use_int_Done, use_int_le_bytes4; lia|].
  lia.
Qed.

Lemma payload_lies_behind_the_table_witness :
  exists sto v sts offset size,
    _yep_open_file example_packed 1 (s2b "out.yep") reader_init = Done (true, sto) /\
    _yep_seek_header (s2b "a.txt") header_vars_uninit sto = Done (true, v, sts) /\
    int_of_cells (v_offset v) = Some offset /\
    int_of_cells (v_size v) = Some size /\
    3 + 78 * 2 <= offset /\ offset + size <= zlen example_archive.
Proof.
  destruct a_txt_run as (sto & v & sts & Ho & Hs & _).
  destruct example_walk as (st1 & Hw).
  destruct (payload_lies_behind_the_table rle_zlib example_fs 1 8 (s2b "d") (s2b "out.yep")
              st1 (s2b "a.txt") reader_init sto v sts ltac:(lia) Hw eq_refl
              example_packable example_apart (reader_init_ready _ _ _) Ho Hs)
    as (_ & _ & offset & size & Hoff & Hsize & Hlo & _ & Hhi).
  exists sto, v, sts, offset, size.
  split; [exact Ho|]. split; [exact Hs|]. split; [exact Hoff|]. split; [exact Hsize|].
  split; [|exact Hhi].
  replace 2 with (zlen (pack_list_of example_fs 8 (s2b "d"))); [exact Hlo|].
  fold example_nodes. rewrite example_nodes_eq. reflexivity.
Defined.

(** ** The names the walk derives *)

Lemma normalize_no_backslash s : ~ In backslash (normalize_path_separators s).
Proof.
  unfold normalize_path_separators. intros H. apply in_map_iff in H.
  destruct H as (b & Hb & _). destruct (Byte.eqb b backslash) eqn:E.
  - discriminate.
  - apply byte_eqb_neq in E. congruence.
Qed.

Lemma normalize_id s : ~ In backslash s -> normalize_path_separators s = s.
Proof.
  unfold normalize_path_separators. induction s as [|b s IH]; intros H; [reflexivity|].
  cbn [map]. destruct (Byte.eqb b backslash) eqn:E.
  - apply byte_eqb_eq in E. subst. exfalso. apply H. now left.
  - f_equal. apply IH. intros Hin. apply H. now right.
Qed.

(* skip_separators takes slashes off a string without backslashes and
   stops at the first other byte. *)
Lemma skip_separators_split s :
  ~ In backslash s ->
  exists seps,
    s = seps ++ skip_separators s /\
    Forall (fun b => b = slash) seps /\
    forall rest, skip_separators s <> slash :: rest.
Proof.
  induction s as [|b s IH]; intros H.
  - exists []. repeat split; [constructor | discriminate].
  - cbn [skip_separators]. unfold is_separator.
    destruct (Byte.eqb b slash) eqn:E; cbn [orb].
    + apply byte_eqb_eq in E. subst b.
      destruct IH as (seps & Hs & Hf & Hn); [intros Hin; apply H; now right|].
      exists (slash :: seps). split; [cbn [app]; now f_equal|].
      split; [now constructor | exact Hn].
    + destruct (Byte.eqb b backslash) eqn:E2.
      * apply byte_eqb_eq in E2. subst b. exfalso. apply H. now left.
      * exists []. split; [reflexivity|]. split; [constructor|].
        intros rest Hr. inversion Hr; subst. now rewrite byte_eqb_refl in E.
Qed.

Lemma not_in_firstn {A} (x : A) n l : ~ In x l -> ~ In x (firstn n l).
Proof.
  intros H Hin. apply H. rewrite <- (firstn_skipn n l). apply in_or_app. now left.
Qed.

Lemma not_in_skipn {A} (x : A) n l : ~ In x l -> ~ In x (skipn n l).
Proof.
  intros H Hin. apply H. rewrite <- (firstn_skipn n l). apply in_or_app. now right.
Qed.

Lemma new_node_relative root dirname full_path rel :
  no_nul full_path ->
  ~ In backslash full_path ->
  relative_path_of (Some root) dirname full_path = Done (Some rel) ->
  zlen (final_relative_path_of rel) <= 63 ->
  relative_to root (new_node (final_relative_path_of rel) full_path).
Proof.
  intros Hnul Hbs Hrel Hlen.
  assert (Hreln : no_nul rel) by (eapply relative_path_no_nul; eauto).
  assert (Hname : c_str (name (new_node (final_relative_path_of rel) full_path))
                  = final_relative_path_of rel).
  { cbn [new_node name]. apply c_str_padded. now apply final_relative_path_no_nul. }
  unfold relative_to. cbn zeta. rewrite Hname. cbn [new_node fullpath]. clear Hname.
  revert Hrel Hlen. unfold relative_path_of, final_relative_path_of.
  generalize relative_path_chars as K.
  generalize (normalize_path_separators (firstn full_path_chars root)) as R.
  intros R K Hrel Hlen.
  (* the shape of the relative path *)
  destruct (bytes_eqb (firstn (length R) full_path) R) eqn:Eroot; [|discriminate].
  apply bytes_eqb_eq in Eroot.
  assert (Hfull : full_path = R ++ skipn (length R) full_path).
  { rewrite <- Eroot at 1. apply eq_sym, firstn_skipn. }
  set (rel0 := skipn (length R) full_path) in *.
  assert (Hrel0 : exists lead, rel0 = lead ++ rel /\ Forall (fun b => b = slash) lead).
  { destruct rel0 as [|b rest] eqn:E0.
    - inversion Hrel; subst. exists []. split; [reflexivity | constructor].
    - unfold is_separator in Hrel. destruct (Byte.eqb b slash) eqn:Es; cbn [orb] in Hrel.
      + apply byte_eqb_eq in Es. subst b. inversion Hrel; subst.
        exists [slash]. split; [reflexivity | now repeat constructor].
      + destruct (Byte.eqb b backslash) eqn:Eb.
        * apply byte_eqb_eq in Eb. subst b. exfalso. apply Hbs.
          rewrite Hfull. apply in_or_app. right. now left.
        * inversion Hrel; subst. exists []. split; [reflexivity | constructor]. }
  destruct Hrel0 as (lead & Hrel0 & Hlead).
  assert (Hrelbs : ~ In backslash rel).
  { intros Hin. apply Hbs. rewrite Hfull, Hrel0.
    apply in_or_app. right. apply in_or_app. now right. }
  rewrite (normalize_id (firstn K rel)) in * by now apply not_in_firstn.
  destruct (skip_separators_split (firstn K rel))
    as (seps & Hs & Hseps & Hstart); [now apply not_in_firstn|].
  set (final := skip_separators (firstn K rel)) in *.
  split.
  { intros Hin. apply (not_in_firstn backslash K rel Hrelbs).
    rewrite Hs. apply in_or_app. now right. }
  split; [exact Hstart|]. split; [exact Hlen|]. split; [exact Hbs|].
  exists (lead ++ seps), (skipn K rel). split; [|split].
  - rewrite Hfull at 1. rewrite Hrel0.
    rewrite <- (firstn_skipn K rel) at 1.
    rewrite Hs at 1. now rewrite <- !app_assoc.
  - apply Forall_app. now split.
  - intros Hl. apply skipn_all2.
    assert (length full_path = (length R + length lead + length rel)%nat).
    { rewrite Hfull at 1. rewrite Hrel0, !length_app. lia. }
    lia.
Qed.

Lemma traversal_relative fs root :
  forall fuel dir, Forall (relative_to root) (traversal fs fuel (Some root) dir).
Proof.
  induction fuel as [|fuel' IH]; intros dir; cbn [traversal].
  - constructor.
  - destruct (SDL_GetPathInfo fs (c_str dir)) as [info|]; [|constructor].
    destruct (SDL.type info); try constructor.
    apply Forall_forall. intros node Hin. apply in_flat_map in Hin.
    destruct Hin as (fname & _ & Hin).
    set (dirname := with_trailing_separator (c_str dir)) in *.
    set (full_path := normalize_path_separators (firstn full_path_chars (dirname ++ c_str fname))) in *.
    assert (Hf : no_nul full_path).
    { apply no_nul_normalize, no_nul_firstn, no_nul_app. split.
      - apply no_nul_with_trailing_separator, c_str_no_nul.
      - apply c_str_no_nul. }
    destruct (SDL_GetPathInfo fs full_path) as [pi|]; [|contradiction].
    destruct (SDL.type pi); try contradiction.
    + destruct (relative_path_of (Some root) dirname full_path) as [[rel|]| | |] eqn:Er;
        try contradiction.
      destruct (zlen (final_relative_path_of rel) <=? 63) eqn:E; [|contradiction].
      destruct Hin as [<-|[]]. apply Z.leb_le in E.
      apply (new_node_relative root dirname); try assumption.
      apply normalize_no_backslash.
    + pose proof (IH full_path) as Hw. rewrite Forall_forall in Hw. now apply Hw.
Qed.

(** X12: every node the walk adds under a root holds a derived name
    without backslashes that does not begin with a slash and has at most
    63 bytes, and a full path without backslashes that is the normalised
    root, then slashes, then the derived name; nothing follows the name
    unless the part behind the root is longer than the 255 bytes the
    callback keeps of it. *)
Theorem derived_names_are_relative fs fuel dir st st' root node :
  _yep_walk_directory_v2 fs fuel dir st = Done st' ->
  yep_pack_root_path st = Some root ->
  In node (head (yep_pack_list st')) ->
  In node (head (yep_pack_list st)) \/ relative_to root node.
Proof.
  intros Hw Hr Hin.
  pose proof (walk_pushed fs fuel dir st st' Hw) as (Hh & _ & _).
  rewrite Hh, Hr in Hin. apply in_app_or in Hin. destruct Hin as [Hin|Hin].
  - right. apply in_rev in Hin.
    pose proof (traversal_relative fs root fuel dir) as Hf.
    rewrite Forall_forall in Hf. now apply Hf.
  - now left.
Qed.

Lemma derived_names_are_relative_witness :
  exists st',
    _yep_walk_directory_v2 example_fs 8 (s2b "d") (walk_start (s2b "d")) = Done st' /\
    relative_to (s2b "d") b_bin_node.
Proof.
  destruct example_walk as (st' & Hw).
  exists st'. split; [exact Hw|].
  destruct (derived_names_are_relative example_fs 8 (s2b "d") (walk_start (s2b "d")) st'
              (s2b "d") b_bin_node Hw eq_refl) as [[]|H].
  - destruct (walk_start_list example_fs 8 (s2b "d") st' Hw) as [Hh _].
    rewrite Hh. fold example_nodes. rewrite example_nodes_eq. now left.
  - exact H.
Defined.

(** ** What every run of the packer keeps *)

(** X13: the count of the pack list stays the length of the list: a walk
    only pushes nodes on the front and counts each, and when
    _yep_pack_directory returns the list is either released (it returned
    true) or as the walk left it (it returned false, which it does only
    when the output file cannot be opened, and then nothing is written). *)
Theorem pack_list_count_is_kept zl fs V fuel directory_path output_name st :
  entry_count (yep_pack_list st) = zlen (head (yep_pack_list st)) ->
  (forall st',
     _yep_walk_directory_v2 fs fuel directory_path st = Done st' ->
     entry_count (yep_pack_list st') = zlen (head (yep_pack_list st')) /\
     exists added, head (yep_pack_list st') = added ++ head (yep_pack_list st)) /\
  (forall packed stp fs',
     _yep_pack_directory zl fs V fuel directory_path output_name st
     = Done (packed, stp, fs') ->
     entry_count (yep_pack_list stp) = zlen (head (yep_pack_list stp)) /\
     yep_pack_root_path stp = None /\
     (packed = true ->
      head (yep_pack_list stp) = [] /\ creatable fs (c_str output_name) = true) /\
     (packed = false ->
      fs' = fs /\ creatable fs (c_str output_name) = false)).
Proof.
  intros Hinv.
  assert (Hwalk : forall s s',
            entry_count (yep_pack_list s) = zlen (head (yep_pack_list s)) ->
            _yep_walk_directory_v2 fs fuel directory_path s = Done s' ->
            entry_count (yep_pack_list s') = zlen (head (yep_pack_list s')) /\
            exists added, head (yep_pack_list s') = added ++ head (yep_pack_list s)).
  { intros s s' Hs Hw.
    pose proof (walk_pushed fs fuel directory_path s s' Hw) as (Hh & Hc & _).
    split; [|eexists; exact Hh].
    rewrite Hc, Hh, Hs. unfold zlen. rewrite length_app, length_rev. lia. }
  split; [intros st'; now apply Hwalk|].
  intros packed stp fs'. unfold _yep_pack_directory.
  set (s0 := with_root (plog st _) _).
  destruct (_yep_walk_directory_v2 fs fuel directory_path s0) as [s1| | |] eqn:Ew;
    cbn [obind]; try discriminate.
  destruct (Hwalk s0 s1 Hinv Ew) as [Hc1 _].
  destruct (creatable fs (c_str output_name)); cbn [negb].
  - unfold write_pack_file.
    destruct (write_pack_loop _ _ _ _ _ _) as [f| | |]; cbn [obind]; try discriminate.
    intros H. inversion H; subst. cbn. repeat split; discriminate.
  - intros H. inversion H; subst.
    cbn [plog with_root yep_pack_list yep_pack_root_path].
    repeat split; try assumption; discriminate.
Qed.

Lemma pack_list_count_is_kept_witness :
  exists stp fs',
    _yep_pack_directory rle_zlib example_fs 1 8 (s2b "d") (s2b "out.yep") packer_init
    = Done (true, stp, fs') /\
    entry_count (yep_pack_list stp) = zlen (head (yep_pack_list stp)) /\
    head (yep_pack_list stp) = [].
Proof.
  destruct example_walk as (st1 & Hw).
  destruct (pack_directory_layout rle_zlib example_fs 1 8 (s2b "d") (s2b "out.yep") st1
              Hw eq_refl example_packable example_apart) as (stp & Hp).
  destruct (proj2 (pack_list_count_is_kept rle_zlib example_fs 1 8 (s2b "d")
                     (s2b "out.yep") packer_init eq_refl) true stp _ Hp)
    as (Hc & _ & Ht & _).
  eexists stp, _. split; [exact Hp|]. split; [exact Hc | exact (proj1 (Ht eq_refl))].
Defined.

Lemma firstn_repeat_le {A} (x : A) n m :
  (n <= m)%nat -> firstn n (repeat x m) = repeat x n.
Proof.
  intros H. replace m with (n + (m - n))%nat by lia.
  rewrite repeat_app, firstn_app, repeat_length, Nat.sub_diag.
  rewrite firstn_all2 by (rewrite repeat_length; lia).
  cbn [firstn]. apply app_nil_r.
Qed.

Lemma huge_bytes_length : zlen huge_bytes = 4294967301.
Proof. unfold huge_bytes, zlen. rewrite repeat_length. apply Z2Nat.id. lia. Qed.

Lemma huge_bytes_size : get_file_size huge_bytes = 5.
Proof. unfold get_file_size. rewrite huge_bytes_length. reflexivity. Qed.

Lemma huge_bytes_firstn : firstn 5 huge_bytes = repeat x61 5.
Proof. unfold huge_bytes. apply firstn_repeat_le. lia. Qed.

(** X14: get_file_size keeps the size of a source in a uint32_t, so the
    writer sees the size modulo 2^32: when that is at most 256 it stores
    the first bytes of the file up to that number, uncompressed, and
    records that number as both sizes, however long the file is.  The
    stream given is the result of the loop on this entry alone, and the
    state from which the loop goes on to the entries behind it. *)
Theorem source_size_wraps zl src node pack_file data_end current_entry bytes :
  file_bytes (src pack_file) (fullpath node) = Some bytes ->
  let data_size := zlen bytes mod 4294967296 in
  data_size <= 256 ->
  let stored :=
    update_header
      (write_data_to_pack pack_file data_end (firstn (Z.to_nat data_size) bytes))
      current_entry data_end data_size YEP_COMPRESSION_NONE data_size
      YEP_DATATYPE_MISC in
  write_pack_loop zl src [node] pack_file data_end current_entry = Done stored /\
  forall next,
    write_pack_loop zl src (node :: next) pack_file data_end current_entry
    = write_pack_loop zl src next stored
        (u32 (data_end + data_size)) (current_entry + 1).
Proof.
  intros Hb data_size Hs stored.
  assert (Hstep : forall next,
             write_pack_loop zl src (node :: next) pack_file data_end current_entry
             = write_pack_loop zl src next stored
                 (u32 (data_end + data_size)) (current_entry + 1)).
  { intros next. apply write_pack_loop_measured; assumption. }
  split; [exact (Hstep [])|exact Hstep].
Qed.

(* A source of 4 GiB and five bytes is stored as five bytes. *)
Lemma source_size_wraps_witness :
  zlen huge_bytes = 4294967296 + 5 /\
  write_pack_loop rle_zlib (fun _ => huge_fs) [huge_node]
                  {| fd := 0%nat; content := []; pos := 0 |} 81 0
  = Done (update_header
            (write_data_to_pack {| fd := 0%nat; content := []; pos := 0 |} 81
                                (repeat x61 5))
            0 81 5 YEP_COMPRESSION_NONE 5 YEP_DATATYPE_MISC).
Proof.
  split; [exact huge_bytes_length|].
  pose proof (source_size_wraps rle_zlib (fun _ => huge_fs) huge_node
                {| fd := 0%nat; content := []; pos := 0 |} 81 0 huge_bytes eq_refl)
    as H.
  cbv zeta in H. rewrite huge_bytes_length in H.
  change (4294967301 mod 4294967296) with 5 in H.
  change (Z.to_nat 5) with 5%nat in H. rewrite huge_bytes_firstn in H.
  exact (proj1 (H ltac:(lia))).
Defined.

Lemma pwrite_inside offset data c :
  0 <= offset -> offset + zlen data <= zlen c ->
  pwrite offset data c
  = firstn (Z.to_nat offset) c ++ data ++ skipn (Z.to_nat offset + length data) c.
Proof.
  intros Ho Hl. unfold pwrite.
  replace (Z.to_nat offset - length c)%nat with 0%nat by (unfold zlen in Hl; lia).
  reflexivity.
Qed.

(** X15: update_header writes the fourteen bytes behind the name of one
    table record, offset, stored size, compression kind, uncompressed size
    and data kind, and nothing else: the length of the file, the bytes
    before them (all earlier records and the name of this one) and the
    bytes behind them stay as they are. *)
Theorem update_header_frame pack_file entry_index offset size compression_type
    uncompressed_size data_type :
  0 <= entry_index ->
  3 + entry_index * 78 + 78 <= zlen (content pack_file) ->
  let field := Z.to_nat (3 + entry_index * 78 + 64) in
  let updated :=
    content (update_header pack_file entry_index offset size compression_type
                           uncompressed_size data_type) in
  length updated = length (content pack_file) /\
  firstn field updated = firstn field (content pack_file) /\
  skipn (field + 14) updated = skipn (field + 14) (content pack_file) /\
  firstn 14 (skipn field updated)
  = le_bytes 4 offset ++ le_bytes 4 size ++ le_bytes 1 compression_type
    ++ le_bytes 4 uncompressed_size ++ le_bytes 1 data_type.
Proof.
  intros Hk Hlen field updated. unfold updated.
  rewrite update_header_fwrite by assumption.
  rewrite content_fwrite. cbn [fseek pos content].
  set (record := le_bytes 4 offset ++ _).
  assert (Hrec : length record = 14%nat).
  { unfold record. rewrite !length_app, !length_le_bytes. reflexivity. }
  rewrite pwrite_inside by (unfold zlen in *; try rewrite Hrec; lia).
  fold field. rewrite Hrec.
  assert (Hf : length (firstn field (content pack_file)) = field).
  { rewrite length_firstn. unfold zlen in Hlen. lia. }
  split; [|split; [|split]].
  - rewrite !length_app, Hf, Hrec, length_skipn. unfold zlen in Hlen. lia.
  - rewrite firstn_app, Hf, Nat.sub_diag, firstn_firstn, Nat.min_id.
    cbn [firstn]. apply app_nil_r.
  - rewrite skipn_app, Hf.
    rewrite (skipn_all2 (firstn field (content pack_file))) by lia.
    replace (field + 14 - field)%nat with 14%nat by lia.
    cbn [app]. rewrite skipn_app, Hrec, Nat.sub_diag.
    rewrite (skipn_all2 record) by lia. reflexivity.
  - rewrite skipn_app, Hf, Nat.sub_diag.
    rewrite (skipn_all2 (firstn field (content pack_file))) by lia.
    cbn [app skipn]. rewrite firstn_app, Hrec, Nat.sub_diag.
    rewrite <- Hrec at 1. rewrite firstn_all. cbn [firstn]. apply app_nil_r.
Qed.

Lemma update_header_frame_witness :
  let updated :=
    content (update_header {| fd := 0%nat; content := example_archive; pos := 0 |}
                           1 7 8 0 9 0) in
  length updated = length example_archive /\
  firstn 145 updated = firstn 145 example_archive.
Proof.
  destruct (update_header_frame {| fd := 0%nat; content := example_archive; pos := 0 |}
              1 7 8 0 9 0 ltac:(lia) ltac:(vm_compute; discriminate))
    as (Hl & Hf & _).
  split; [exact Hl | exact Hf].
Defined.

(** ** The entry points *)

(* When _yep_pack_directory returns, the pack list is released or the
   output could not be opened. *)
Lemma pack_directory_returns zl fs V fuel directory_path output_name st packed stp fs' :
  _yep_pack_directory zl fs V fuel directory_path output_name st
  = Done (packed, stp, fs') ->
  (packed = true /\ head (yep_pack_list stp) = [] /\
   creatable fs (c_str output_name) = true) \/
  (packed = false /\ fs' = fs /\ creatable fs (c_str output_name) = false /\
   exists st1,
     _yep_walk_directory_v2 fs fuel directory_path
       (with_root (plog st (yep_logf yep_log_debug
                              (PackingDirectory (c_str directory_path))))
                  (Some (normalize_path_separators (c_str directory_path))))
     = Done st1 /\
     head (yep_pack_list stp) = head (yep_pack_list st1)).
Proof.
  unfold _yep_pack_directory.
  set (s0 := with_root (plog st _) _).
  destruct (_yep_walk_directory_v2 fs fuel directory_path s0) as [s1| | |] eqn:Ew;
    cbn [obind]; try discriminate.
  destruct (creatable fs (c_str output_name)); cbn [negb].
  - unfold write_pack_file.
    destruct (write_pack_loop _ _ _ _ _ _) as [f| | |]; cbn [obind]; try discriminate.
    intros H. inversion H; subst. left. repeat split.
  - intros H. inversion H; subst. right. repeat split.
    exists s1. split; reflexivity.
Qed.

(** X16: yep_pack_directory packs only when is_dir_outofdate says so, and
    that needs the archive to exist: while there is no file at the output
    path it returns true without walking the directory or writing
    anything, so it never creates the first archive. *)
Theorem first_pack_is_skipped zl fs V fuel directory_path output_name e :
  SDL_GetPathInfo fs (c_str output_name) = None ->
  exists e',
    yep_pack_directory zl fs V fuel directory_path output_name e = Done (true, e', fs) /\
    yep_pack_list (the_packer e') = yep_pack_list (the_packer e) /\
    the_reader e' = the_reader e /\
    said e' = said e ++ [Logf yep_log_debug (TargetUpToDate (c_str directory_path))].
Proof.
  intros Hn. unfold yep_pack_directory, is_dir_outofdate, yep_get_path_info.
  destruct (SDL_GetPathInfo fs (c_str directory_path)) as [info|].
  - destruct (SDL.type info); cbn [SDL_PathType_eqb negb];
      try rewrite Hn; eexists; (split; [reflexivity|]); repeat split.
  - eexists. split; [reflexivity|]. repeat split.
Qed.

Lemma first_pack_is_skipped_witness :
  exists e',
    yep_pack_directory rle_zlib example_fs 1 8 (s2b "d") (s2b "out.yep") engine_init
    = Done (true, e', example_fs) /\
    file_bytes example_fs (s2b "out.yep") = None.
Proof.
  destruct (first_pack_is_skipped rle_zlib example_fs 1 8 (s2b "d") (s2b "out.yep")
              engine_init eq_refl) as (e' & H & _).
  exists e'. split; [exact H | reflexivity].
Defined.

Lemma close_file_closed st st1 :
  _yep_close_file st = Done st1 -> yep_file st1 = None.
Proof.
  unfold _yep_close_file. destruct (yep_file st) as [f|] eqn:Ef.
  - destruct (yep_file_path (fclose f st)); try discriminate;
      intros H; inversion H; reflexivity.
  - intros H. inversion H; subst. exact Ef.
Qed.

(** X17: yep_shutdown closes the archive and frees the nodes of the pack
    list without clearing the head.  A second yep_shutdown therefore
    returns exactly when the list was empty at the first one; when it was
    not (a pack had failed to open its output), the second call walks the
    freed nodes, and so does a forced pack after the first call whenever
    its output file can be opened (unless the model runs out of fuel in
    the walk before). *)
Theorem shutdown_twice zl fs V fuel directory_path output_name e e1 :
  yep_shutdown e = Done e1 ->
  yep_file (the_reader e1) = None /\
  (head (yep_pack_list (the_packer e)) = [] ->
   exists e2, yep_shutdown e1 = Done e2 /\ the_packer e2 = the_packer e) /\
  (head (yep_pack_list (the_packer e)) <> [] ->
   yep_shutdown e1 = Undefined /\
   (creatable fs (c_str output_name) = true ->
    yep_force_pack_directory zl fs V fuel directory_path output_name e1 = Undefined \/
    yep_force_pack_directory zl fs V fuel directory_path output_name e1 = OutOfFuel)).
Proof.
  unfold yep_shutdown at 1.
  destruct (_yep_close_file (the_reader e)) as [st| | |] eqn:Ec; cbn [obind]; try discriminate.
  pose proof (close_file_closed _ _ Ec) as Hnone.
  cbn [with_reader the_packer nodes_freed the_reader said].
  destruct (head (yep_pack_list (the_packer e))) as [|node nodes] eqn:Eh.
  - cbn [obind]. intros H. inversion H; subst e1. clear H.
    cbn [say with_reader the_reader].
    split; [exact Hnone|]. split; [|intros Hne; now contradiction Hne].
    intros _. unfold yep_shutdown. cbn [say with_reader the_reader the_packer].
    unfold _yep_close_file. rewrite Hnone. cbn [obind the_packer with_reader].
    rewrite Eh. cbn [obind]. eexists. split; reflexivity.
  - destruct (nodes_freed e); cbn [obind]; [discriminate|].
    intros H. inversion H; subst e1. clear H.
    cbn [say the_reader].
    split; [exact Hnone|]. split; [discriminate|].
    intros _. split.
    + unfold yep_shutdown. cbn [say the_reader the_packer with_reader nodes_freed].
      unfold _yep_close_file. rewrite Hnone. cbn [obind the_packer with_reader nodes_freed].
      rewrite Eh. reflexivity.
    + intros Hcr. unfold yep_force_pack_directory, pack_in_engine.
      cbn [say nodes_freed the_packer].
      destruct (_yep_pack_directory zl fs V fuel directory_path output_name (the_packer e))
        as [[[packed stp] fs']| | |] eqn:Ep; try (now left); try (now right).
      destruct packed; [now left|].
      destruct (pack_directory_returns _ _ _ _ _ _ _ _ _ _ Ep)
        as [(Hf & _)|(_ & _ & Hno & _)]; [discriminate | congruence].
Qed.

(* After a pack that could not open its output the list is not empty:
   the second yep_shutdown and a forced pack walk the freed nodes.  On a
   fresh engine the list is empty and the second yep_shutdown returns. *)
Lemma shutdown_twice_witness :
  map fullpath (head (yep_pack_list (the_packer failed_engine)))
  = [s2b "d/sub/b.bin"; s2b "d/a.txt"] /\
  (exists e1,
     yep_shutdown failed_engine = Done e1 /\
     yep_shutdown e1 = Undefined /\
     (yep_force_pack_directory rle_zlib example_fs 1 8 (s2b "d") (s2b "out.yep") e1
      = Undefined \/
      yep_force_pack_directory rle_zlib example_fs 1 8 (s2b "d") (s2b "out.yep") e1
      = OutOfFuel)) /\
  exists e1 e2,
    yep_shutdown engine_init = Done e1 /\ yep_shutdown e1 = Done e2.
Proof.
  split; [vm_compute; reflexivity|]. split.
  - assert (H : exists e1, yep_shutdown failed_engine = Done e1)
      by (eexists; vm_compute; reflexivity).
    destruct H as (e1 & H1).
    destruct (shutdown_twice rle_zlib example_fs 1 8 (s2b "d") (s2b "out.yep")
                failed_engine e1 H1) as (_ & _ & Hfull).
    destruct Hfull as (H2 & Hpack); [vm_compute; discriminate|].
    exists e1. split; [exact H1|]. split; [exact H2 | exact (Hpack eq_refl)].
  - assert (H : exists e1, yep_shutdown engine_init = Done e1)
      by (eexists; reflexivity).
    destruct H as (e1 & H1).
    destruct (shutdown_twice rle_zlib example_fs 1 8 (s2b "d") (s2b "out.yep")
                engine_init e1 H1) as (_ & Hempty & _).
    destruct (Hempty eq_refl) as (e2 & H2 & _).
    exists e1, e2. split; [exact H1 | exact H2].
Defined.





(** ** yepfs.c *)

Lemma strrchr_none s c : ~ In c s -> strrchr s c = None.
Proof.
  induction s as [|b s IH]; intros H; [reflexivity|].
  cbn [strrchr]. rewrite IH by (intros Hin; apply H; now right).
  destruct (Byte.eqb b c) eqn:E; [|reflexivity].
  apply byte_eqb_eq in E. subst. exfalso. apply H. now left.
Qed.

Lemma strrchr_last dir base c :
  ~ In c base -> strrchr (dir ++ c :: base) c = Some (length dir).
Proof.
  intros H. induction dir as [|b dir IH].
  - cbn [app strrchr length]. rewrite strrchr_none by assumption.
    now rewrite byte_eqb_refl.
  - cbn [app strrchr length]. now rewrite IH.
Qed.

(** X19: yep_touch_file cuts the path at its last slash and has the
    directory before it created, then opens the file for writing, which
    empties it, and writes the content string up to its first NUL (nothing
    for a null pointer).  A path without a slash creates no directory. *)
Theorem touch_file_makes_parent SDL_CreateDirectory fs dir base content :
  no_nul dir -> no_nul base -> ~ In slash base ->
  let text := match content with Some s => c_str s | None => [] end in
  let file_path := dir ++ slash :: base in
  let fs1 := snd (SDL_CreateDirectory fs dir) in
  (creatable fs1 file_path = true ->
   fst (yep_touch_file SDL_CreateDirectory fs file_path content)
   = with_file_bytes fs1 file_path text /\
   file_bytes (fst (yep_touch_file SDL_CreateDirectory fs file_path content)) file_path
   = Some text) /\
  (creatable fs1 file_path = false ->
   fst (yep_touch_file SDL_CreateDirectory fs file_path content) = fs1) /\
  (creatable fs base = true ->
   yep_touch_file SDL_CreateDirectory fs base content
   = (with_file_bytes fs base text, [(yep_log_debug, TouchedFile base)])).
Proof.
  intros Hd Hb Hs text file_path fs1.
  assert (Hp : no_nul file_path).
  { apply no_nul_app. split; [assumption|]. apply no_nul_cons. split; [discriminate|].
    assumption. }
  assert (Htouch : yep_touch_file SDL_CreateDirectory fs file_path content
                   = if creatable fs1 file_path
                     then (with_file_bytes fs1 file_path text,
                           snd (yep_mkdir SDL_CreateDirectory fs dir)
                           ++ [(yep_log_debug, TouchedFile file_path)])
                     else (fs1, snd (yep_mkdir SDL_CreateDirectory fs dir)
                                ++ [(yep_log_error, FailedToTouchFile file_path)])).
  { unfold yep_touch_file. rewrite (c_str_id file_path) by assumption.
    unfold file_path at 1 2. rewrite strrchr_last by assumption.
    rewrite firstn_app, firstn_all, Nat.sub_diag. cbn [firstn]. rewrite app_nil_r.
    unfold yep_mkdir, fs1. rewrite (c_str_id dir) by assumption.
    destruct (SDL_CreateDirectory fs dir) as [res fs2]. cbn [snd].
    fold file_path. reflexivity. }
  split; [|split].
  - intros Hc. rewrite Htouch, Hc. cbn [fst]. split; [reflexivity|].
    apply file_bytes_with_file_bytes.
  - intros Hc. rewrite Htouch, Hc. reflexivity.
  - intros Hc. unfold yep_touch_file. rewrite (c_str_id base) by assumption.
    rewrite strrchr_none by assumption. rewrite Hc. reflexivity.
Qed.

Lemma touch_file_makes_parent_witness :
  fst (yep_touch_file
         (fun fs dir => (true, with_file_bytes fs (dir ++ s2b "/.made") []))
         example_fs (s2b "new/sub/note.txt") (Some (s2b "hello")))
  = with_file_bytes (with_file_bytes example_fs (s2b "new/sub/.made") [])
                    (s2b "new/sub/note.txt") (s2b "hello").
Proof.
  destruct (touch_file_makes_parent
              (fun fs dir => (true, with_file_bytes fs (dir ++ s2b "/.made") []))
              example_fs (s2b "new/sub") (s2b "note.txt") (Some (s2b "hello")))
    as [H _].
  - vm_compute. intros H. repeat (destruct H as [H|H]; [discriminate|]). exact H.
  - vm_compute. intros H. repeat (destruct H as [H|H]; [discriminate|]). exact H.
  - vm_compute. intros H. repeat (destruct H as [H|H]; [discriminate|]). exact H.
  - exact (proj1 (H eq_refl)).
Defined.

(** ** A pack after a failed pack *)

(* Whether the callback returns does not depend on the pack list or on
   what was printed. *)
Lemma callback_returns_again fs fuel' dirname fname st r st1 :
  (forall dir a a',
     _yep_walk_directory_v2 fs fuel' dir a = Done a' ->
     forall b, yep_pack_root_path b = yep_pack_root_path a ->
               exists b', _yep_walk_directory_v2 fs fuel' dir b = Done b') ->
  _recurse_dir_callback fs (_yep_walk_directory_v2 fs fuel') dirname fname st
  = Done (r, st1) ->
  forall s,
    yep_pack_root_path s = yep_pack_root_path st ->
    exists r' s1,
      _recurse_dir_callback fs (_yep_walk_directory_v2 fs fuel') dirname fname s
      = Done (r', s1).
Proof.
  intros IH H s Hroot. revert H. unfold _recurse_dir_callback.
  destruct (yep_get_path_info fs _) as [[info|] lines]; [|intros _; eexists _, _; reflexivity].
  cbn [plog yep_pack_root_path]. rewrite Hroot.
  destruct (SDL.type info); try (intros _; eexists _, _; reflexivity).
  - destruct (relative_path_of (yep_pack_root_path st) (c_str dirname) _)
      as [[rel|]| | |]; cbn [obind]; try discriminate.
    + destruct (_ >? 64); intros _; eexists _, _; reflexivity.
    + intros _. eexists _, _. reflexivity.
  - destruct (_yep_walk_directory_v2 fs fuel' _ (plog st lines)) as [a'| | |] eqn:Ew;
      cbn [obind]; try discriminate.
    intros _.
    destruct (IH _ _ _ Ew (plog s lines) Hroot) as (b' & Hb).
    rewrite Hb. cbn [obind]. eexists _, _. reflexivity.
Qed.

Lemma walk_returns_again fs fuel :
  forall dir a a',
    _yep_walk_directory_v2 fs fuel dir a = Done a' ->
    forall b, yep_pack_root_path b = yep_pack_root_path a ->
              exists b', _yep_walk_directory_v2 fs fuel dir b = Done b'.
Proof.
  induction fuel as [|fuel' IH]; intros dir a a' H b Hroot; [discriminate|].
  cbn [_yep_walk_directory_v2] in *.
  destruct (yep_get_path_info fs dir) as [[info|] lines]; [|eexists; reflexivity].
  destruct (negb (SDL_PathType_eqb (SDL.type info) SDL_PATHTYPE_DIRECTORY));
    [eexists; reflexivity|].
  unfold SDL_EnumerateDirectory in *.
  assert (Hd : no_nul (with_trailing_separator (c_str dir)))
    by apply no_nul_with_trailing_separator, c_str_no_nul.
  assert (Hr : yep_pack_root_path (plog b lines) = yep_pack_root_path (plog a lines))
    by exact Hroot.
  revert H Hr. generalize (plog a lines) as s. generalize (plog b lines) as t.
  induction (dir_entries fs (c_str dir)) as [|fname names IHn]; intros t s H Hr.
  - eexists. reflexivity.
  - cbn [enumerate] in *.
    destruct (_recurse_dir_callback fs (_yep_walk_directory_v2 fs fuel')
                (with_trailing_separator (c_str dir)) fname s)
      as [[r s1]| | |] eqn:Ec; cbn [obind] in H; try discriminate.
    destruct (callback_returns_again fs fuel' _ _ _ _ _ IH Ec t Hr) as (r' & t1 & Et).
    rewrite Et. cbn [obind].
    destruct (callback_pushed _ _ _ _ _ _ _ (walk_pushed fs fuel') Hd Ec) as [-> P1].
    destruct (callback_pushed _ _ _ _ _ _ _ (walk_pushed fs fuel') Hd Et) as [-> P2].
    apply (IHn t1 s1 H).
    rewrite (pushed_root _ _ _ P1), (pushed_root _ _ _ P2). exact Hr.
Qed.

(* The archive _yep_pack_directory writes when it starts with nodes in the
   pack list. *)
Lemma pack_directory_layout_from zl fs V fuel directory_path output_name st0 st1 :
  _yep_walk_directory_v2 fs fuel directory_path
    (with_root (plog st0 (yep_logf yep_log_debug (PackingDirectory (c_str directory_path))))
               (Some (normalize_path_separators (c_str directory_path))))
  = Done st1 ->
  creatable fs (c_str output_name) = true ->
  entry_count (yep_pack_list st0) = zlen (head (yep_pack_list st0)) ->
  Forall node_wf (head (yep_pack_list st0)) ->
  let nodes := pack_list_of fs fuel directory_path ++ head (yep_pack_list st0) in
  packable zl fs nodes ->
  not_a_source output_name nodes ->
  exists st',
    _yep_pack_directory zl fs V fuel directory_path output_name st0
    = Done (true, st',
            with_file_bytes fs (c_str output_name)
              (archive_bytes V (map (stored_entry zl fs) nodes))).
Proof.
  intros Hw Hcr Hinv Hwf0 nodes (Hi & Hsrc & Hn & Hsz) Hapart.
  pose proof (walk_pushed fs fuel _ _ _ Hw) as (Hh & Hcnt & _).
  cbn [with_root plog yep_pack_list yep_pack_root_path] in Hh, Hcnt.
  fold (pack_list_of fs fuel directory_path) in Hh. fold nodes in Hh.
  assert (Hwf : Forall node_wf nodes).
  { apply Forall_app. split; [apply pack_list_of_wf | assumption]. }
  assert (Hc : entry_count (yep_pack_list st1) = zlen nodes).
  { rewrite Hcnt, Hinv. unfold nodes, pack_list_of, zlen.
    rewrite length_app, length_rev. lia. }
  rewrite zlen_archive_bytes in Hsz by assumption.
  pose proof (zlen_nonneg nodes) as Hn0.
  pose proof (zlen_nonneg (payloads (map (stored_entry zl fs) nodes))) as Hp0.
  unfold _yep_pack_directory. rewrite Hw.
  cbn [obind]. rewrite Hcr. cbn [negb].
  cbn [yep_pack_list with_root plog].
  eexists.
  rewrite Hc, Hh.
  set (file0 := {| fd := 0%nat; content := []; pos := 0 |}).
  assert (H0 : at_end file0) by reflexivity.
  destruct (fwrite_at_end (le_bytes 1 (u8 V)) file0 H0) as [C1 E1].
  destruct (fwrite_at_end (le_bytes 2 (u16 (zlen nodes))) _ E1) as [C2 E2].
  destruct (write_headers_content nodes _ E2) as [C3 E3].
  set (file3 := write_headers nodes _) in *.
  assert (Hhdr : le_bytes 1 (u8 V) ++ le_bytes 2 (u16 (zlen nodes))
                 = le_bytes 1 V ++ le_bytes 2 (zlen nodes)).
  { unfold u16. rewrite Z.mod_small by lia. cbn [le_bytes]. unfold u8.
    now rewrite byte_of_Z_mod. }
  assert (C : content file3
              = (le_bytes 1 V ++ le_bytes 2 (zlen nodes))
                ++ concat (map placeholder nodes) ++ []).
  { rewrite C3, C2, C1. cbn [content file0 app]. rewrite app_nil_r.
    rewrite <- Hhdr. now rewrite <- app_assoc. }
  assert (Z3 : zlen (content file3) = 3 + 78 * zlen nodes).
  { rewrite C. unfold zlen. rewrite !length_app, !length_le_bytes. cbn [length].
    rewrite Nat.add_0_r.
    assert (L : forall l, Forall node_wf l ->
                          length (concat (map placeholder l)) = (78 * length l)%nat).
    { induction 1 as [|x l Hx _ IHl]; [reflexivity|].
      cbn [map concat]. rewrite length_app, IHl, (length_placeholder _ Hx).
      cbn [length]. lia. }
    rewrite (L _ Hwf). lia. }
  unfold write_pack_file. cbn [yep_pack_list with_list with_root plog].
  rewrite Hc, Hh. change YEP_HEADER_SIZE_BYTES with 78.
  rewrite (u32_small (3 + zlen nodes * 78)) by lia.
  replace (3 + zlen nodes * 78) with (zlen (content file3)) by lia.
  destruct (write_pack_loop_layout zl (while_writing fs (c_str output_name)) fs Hi
              nodes _ [] file3 0 C) as (f' & Hl & Hc').
  - unfold zlen. rewrite length_app, !length_le_bytes. reflexivity.
  - lia.
  - now apply while_writing_reads_as.
  - assumption.
  - assumption.
  - lia.
  - rewrite Hl. cbn [obind]. do 3 f_equal.
    rewrite Hc', Z3. unfold archive_bytes. rewrite zlen_map.
    cbn [app]. now rewrite <- !app_assoc.
Qed.

(** X21: a pack that failed to open its output leaves its nodes in the
    pack list, and the next _yep_pack_directory pushes the files of its own
    walk in front of them: the archive of a retry in the same process
    holds every file twice.  The output of the retry is none of the files
    packed. *)
Theorem retry_packs_every_file_twice zl fs V fuel directory_path locked output_name st1 :
  _yep_walk_directory_v2 fs fuel directory_path (walk_start directory_path) = Done st1 ->
  creatable fs (c_str locked) = false ->
  creatable fs (c_str output_name) = true ->
  let nodes := pack_list_of fs fuel directory_path in
  packable zl fs (nodes ++ nodes) ->
  not_a_source output_name nodes ->
  exists stp stq,
    _yep_pack_directory zl fs V fuel directory_path locked packer_init
    = Done (false, stp, fs) /\
    _yep_pack_directory zl fs V fuel directory_path output_name stp
    = Done (true, stq,
            with_file_bytes fs (c_str output_name)
              (archive_bytes V (map (stored_entry zl fs) (nodes ++ nodes)))) /\
    table_names (archive_bytes V (map (stored_entry zl fs) (nodes ++ nodes)))
    = map (fun node => c_str (name node)) (nodes ++ nodes).
Proof.
  intros Hw Hlock Hcr nodes Hpk Hapart.
  destruct (walk_start_list fs fuel directory_path st1 Hw) as [Hh Hc].
  fold nodes in Hh, Hc.
  pose proof (pack_list_of_wf fs fuel directory_path) as Hwf. fold nodes in Hwf.
  assert (Hp1 : exists stp,
             _yep_pack_directory zl fs V fuel directory_path locked packer_init
             = Done (false, stp, fs) /\
             yep_pack_list stp = yep_pack_list st1).
  { eexists. split.
    - unfold _yep_pack_directory. fold (walk_start directory_path). rewrite Hw.
      cbn [obind]. rewrite Hlock. reflexivity.
    - reflexivity. }
  destruct Hp1 as (stp & Hp1 & Hl1).
  set (s0 := with_root
               (plog stp (yep_logf yep_log_debug (PackingDirectory (c_str directory_path))))
               (Some (normalize_path_separators (c_str directory_path)))).
  destruct (walk_returns_again fs fuel directory_path _ _ Hw s0 eq_refl) as (st2 & Hw2).
  destruct (pack_directory_layout_from zl fs V fuel directory_path output_name stp st2
              Hw2 Hcr) as (stq & Hp2).
  - rewrite Hl1, Hh. exact Hc.
  - rewrite Hl1, Hh. exact Hwf.
  - rewrite Hl1, Hh. exact Hpk.
  - rewrite Hl1, Hh. apply Forall_app. now split.
  - rewrite Hl1, Hh in Hp2. fold nodes in Hp2.
    exists stp, stq. split; [exact Hp1|]. split; [exact Hp2|].
    destruct Hpk as (_ & _ & Hn & _).
    rewrite table_names_archive.
    + rewrite map_map. apply map_ext_in. intros n Hin.
      rewrite stored_entry_name, node_wf_firstn; [reflexivity|].
      assert (Hall : Forall node_wf (nodes ++ nodes)) by (apply Forall_app; now split).
      rewrite Forall_forall in Hall. now apply Hall.
    + apply Forall_map. eapply Forall_impl; [intros n; apply stored_entry_wf|].
      apply Forall_app. now split.
    + now rewrite zlen_map.
Qed.

Lemma retry_packs_every_file_twice_witness :
  exists stp stq fs',
    _yep_pack_directory rle_zlib
      {| SDL_GetPathInfo := SDL_GetPathInfo example_fs;
         dir_entries := dir_entries example_fs;
         file_bytes := file_bytes example_fs;
         creatable := fun p => negb (bytes_eqb p (s2b "locked.yep"));
         partly_written := fun _ _ => Some [] |}
      1 8 (s2b "d") (s2b "locked.yep") packer_init
    = Done (false, stp,
            {| SDL_GetPathInfo := SDL_GetPathInfo example_fs;
               dir_entries := dir_entries example_fs;
               file_bytes := file_bytes example_fs;
               creatable := fun p => negb (bytes_eqb p (s2b "locked.yep"));
               partly_written := fun _ _ => Some [] |}) /\
    _yep_pack_directory rle_zlib
      {| SDL_GetPathInfo := SDL_GetPathInfo example_fs;
         dir_entries := dir_entries example_fs;
         file_bytes := file_bytes example_fs;
         creatable := fun p => negb (bytes_eqb p (s2b "locked.yep"));
         partly_written := fun _ _ => Some [] |}
      1 8 (s2b "d") (s2b "out.yep") stp
    = Done (true, stq, fs') /\
    option_map table_names (file_bytes fs' (s2b "out.yep"))
    = Some [s2b "sub/b.bin"; s2b "a.txt"; s2b "sub/b.bin"; s2b "a.txt"].
Proof.
  set (fs := {| SDL_GetPathInfo := SDL_GetPathInfo example_fs;
                dir_entries := dir_entries example_fs;
                file_bytes := file_bytes example_fs;
                creatable := fun p => negb (bytes_eqb p (s2b "locked.yep"));
                partly_written := fun _ _ => Some [] |}).
  assert (Hw : exists st1,
             _yep_walk_directory_v2 fs 8 (s2b "d") (walk_start (s2b "d")) = Done st1).
  { eexists. vm_compute. reflexivity. }
  destruct Hw as (st1 & Hw).
  assert (Hn : pack_list_of fs 8 (s2b "d") = [b_bin_node; a_txt_node])
    by (vm_compute; reflexivity).
  assert (Hpk : packable rle_zlib fs (pack_list_of fs 8 (s2b "d") ++ pack_list_of fs 8 (s2b "d"))).
  { rewrite Hn. cbn [app]. split; [reflexivity|]. split; [|split].
    - assert (Hb : source_ok rle_zlib fs b_bin_node).
      { exists (repeat xaa 500). split; [reflexivity|]. split; [vm_compute; reflexivity|].
        intros _. vm_compute. reflexivity. }
      assert (Ha : source_ok rle_zlib fs a_txt_node).
      { exists (s2b "helloworld"). split; [reflexivity|]. split; [reflexivity|].
        intros H. vm_compute in H. discriminate. }
      repeat constructor; assumption.
    - vm_compute. discriminate.
    - vm_compute. reflexivity. }
  destruct (retry_packs_every_file_twice rle_zlib fs 1 8 (s2b "d") (s2b "locked.yep")
              (s2b "out.yep") st1 Hw eq_refl eq_refl Hpk) as (stp & stq & Hp1 & Hp2 & Ht).
  { apply not_a_source_check. vm_compute. reflexivity. }
  exists stp, stq. eexists. split; [exact Hp1|]. split; [exact Hp2|].
  rewrite file_bytes_with_file_bytes. cbn [option_map]. rewrite Ht, Hn.
  vm_compute. reflexivity.
Defined.

(** ** The codec, there and back *)

(** X22: what compress_data produces, decompress_data takes back: when
    deflate finishes within the buffer of input_size + input_size / 10 + 12
    bytes that compress_data allocates (a size below 4 GiB), and inflate
    restores the input from its output, then compress_data returns 0 with the compressed bytes at
    the start of that buffer and their number as output size, and
    decompress_data, given these bytes and the original size, returns 0
    with exactly the input. *)
Theorem compress_then_decompress zl input compressed :
  z_deflateInit zl = Z_OK ->
  z_inflateInit zl = Z_OK ->
  let output_size := zlen input + zlen input / 10 + 12 in
  output_size < 4294967296 ->
  z_deflate zl input (u32 output_size) = (Z_STREAM_END, compressed) ->
  zlen compressed <= output_size ->
  z_inflate zl compressed (zlen input) = (Z_STREAM_END, input) ->
  exists output,
    compress_data zl input (zlen input) = (0, Some output, Some (zlen compressed)) /\
    zlen output = output_size /\
    firstn (length compressed) output = map Some compressed /\
    decompress_data zl compressed (zlen compressed) (zlen input)
    = (0, Some (map Some input), []).
Proof.
  intros Hdi Hii output_size Hlen Hd Hfit Hi. unfold output_size in Hlen.
  pose proof (zlen_nonneg input) as Hn.
  pose proof (zlen_nonneg compressed) as Hc.
  assert (Hq : 0 <= zlen input / 10) by (apply Z.div_pos; lia).
  assert (Hq2 : zlen input / 10 <= zlen input)
    by (apply Z.div_le_upper_bound; lia).
  exists (store (malloc output_size) compressed).
  split; [|split; [|split]].
  - unfold compress_data. rewrite Hdi. cbn [Z.eqb Z_OK negb].
    rewrite (u32_small (zlen input)) by lia. rewrite firstn_zlen.
    fold output_size. rewrite Hd. reflexivity.
  - unfold zlen at 1. rewrite length_store, length_malloc.
    unfold zlen in Hfit |- *. lia.
  - apply firstn_store.
  - unfold decompress_data. rewrite Hii. cbn [Z.eqb Z_OK negb].
    rewrite (u32_small (zlen compressed)) by lia. rewrite firstn_zlen.
    rewrite (u32_small (zlen input)) by lia. rewrite Hi.
    cbn [Z.eqb Z_STREAM_END negb]. rewrite Z.eqb_refl. cbn [negb].
    rewrite store_exact; [reflexivity|].
    rewrite length_malloc. unfold zlen. now rewrite Nat2Z.id.
Qed.

Lemma compress_then_decompress_witness :
  exists output,
    compress_data rle_zlib (repeat xaa 500) 500 = (0, Some output, Some 4) /\
    decompress_data rle_zlib [xf5; xaa; xff; xaa] 4 500
    = (0, Some (map Some (repeat xaa 500)), []).
Proof.
  destruct (compress_then_decompress rle_zlib (repeat xaa 500) [xf5; xaa; xff; xaa]
              eq_refl eq_refl)
    as (output & Hc & _ & _ & Hd).
  - vm_compute. reflexivity.
  - vm_compute. reflexivity.
  - vm_compute. discriminate.
  - vm_compute. reflexivity.
  - exists output. split; [exact Hc | exact Hd].
Defined.

(** ** Archives of another format version *)

(** X23: a reader that has no archive open refuses, on the first open,
    every archive packed under another format version: _yep_open_file
    returns false and logs both versions, and yep_extract_data and
    yep_item_exists give (NULL, 0) and false for every name, packed or
    not. *)
Theorem other_version_is_refused zl fs V V' fuel directory_path output_name st1 handle :
  0 <= V < 256 ->
  V' <> V ->
  _yep_walk_directory_v2 fs fuel directory_path (walk_start directory_path) = Done st1 ->
  creatable fs (c_str output_name) = true ->
  packable zl fs (pack_list_of fs fuel directory_path) ->
  not_a_source output_name (pack_list_of fs fuel directory_path) ->
  exists stp fs' st2 st3 st4,
    _yep_pack_directory zl fs V fuel directory_path output_name packer_init
    = Done (true, stp, fs') /\
    _yep_open_file fs' V' output_name reader_init = Done (false, st2) /\
    out st2 = [(yep_log_error, VersionMismatch V V')] /\
    yep_extract_data zl fs' V' output_name handle reader_init = Done (no_data, st3) /\
    yep_item_exists fs' V' output_name handle reader_init = Done (false, st4).
Proof.
  intros HV Hne Hw Hcr Hpk Hapart.
  destruct (pack_directory_layout zl fs V fuel directory_path output_name st1 Hw Hcr Hpk Hapart)
    as (stp & Hp).
  set (entries := map (stored_entry zl fs) (pack_list_of fs fuel directory_path)) in *.
  set (fs' := with_file_bytes fs (c_str output_name) (archive_bytes V entries)) in *.
  assert (Hb : file_bytes fs' (c_str output_name)
               = Some (byte_of_Z V :: byte_of_Z (zlen entries)
                         :: byte_of_Z (zlen entries / 256)
                         :: entry_table entries (3 + 78 * zlen entries)
                            ++ payloads entries)).
  { unfold fs'. rewrite file_bytes_with_file_bytes. now rewrite archive_bytes_header. }
  pose proof (open_reads_header fs' V' output_name reader_init _ _ _ _ I Hb) as Ho.
  cbn zeta in Ho. cbn [file_version_number reader_init] in Ho.
  rewrite Z_of_byte_of_Z, Z.mod_small in Ho by lia.
  change (256 * (0 / 256) + V) with V in Ho.
  assert (E : (V =? V') = false) by (apply Z.eqb_neq; congruence).
  rewrite E in Ho. cbn [negb] in Ho.
  exists stp, fs'. eexists _, _, _. split; [exact Hp|]. split; [exact Ho|].
  split; [reflexivity|].
  unfold yep_extract_data, yep_item_exists. rewrite Ho. cbn [obind negb].
  split; reflexivity.
Qed.

Lemma other_version_is_refused_witness :
  exists stp fs' st3,
    _yep_pack_directory rle_zlib example_fs 1 8 (s2b "d") (s2b "out.yep") packer_init
    = Done (true, stp, fs') /\
    yep_extract_data rle_zlib fs' 2 (s2b "out.yep") (s2b "a.txt") reader_init
    = Done (no_data, st3).
Proof.
  destruct example_walk as (st1 & Hw).
  destruct (other_version_is_refused rle_zlib example_fs 1 2 8 (s2b "d") (s2b "out.yep")
              st1 (s2b "a.txt") ltac:(lia) ltac:(discriminate) Hw eq_refl example_packable example_apart)
    as (stp & fs' & st2 & st3 & st4 & Hp & _ & _ & Hx & _).
  exists stp, fs', st3. split; [exact Hp | exact Hx].
Defined.

(** ** _yep_misc on a packed archive *)

(** X24: for an archive this engine has packed, whose compressed entries
    inflate back, _yep_misc returns a null data pointer exactly for the
    names that no packed file has, and logs its error line exactly then;
    for a packed name it hands back what yep_extract_data gives. *)
Theorem misc_is_null_iff_missing zl fs V fuel directory_path output_name st1 handle e :
  0 <= V < 256 ->
  _yep_walk_directory_v2 fs fuel directory_path (walk_start directory_path) = Done st1 ->
  creatable fs (c_str output_name) = true ->
  packable zl fs (pack_list_of fs fuel directory_path) ->
  not_a_source output_name (pack_list_of fs fuel directory_path) ->
  z_inflateInit zl = Z_OK ->
  Forall (restorable zl fs) (pack_list_of fs fuel directory_path) ->
  let nodes := pack_list_of fs fuel directory_path in
  let archive := archive_bytes V (map (stored_entry zl fs) nodes) in
  reader_ready (the_reader e) output_name archive (zlen nodes) ->
  exists stp fs' info e',
    _yep_pack_directory zl fs V fuel directory_path output_name packer_init
    = Done (true, stp, fs') /\
    _yep_misc zl fs' V handle output_name e = Done (info, e') /\
    yep_extract_data zl fs' V output_name handle (the_reader e)
    = Done (info, the_reader e') /\
    (data info = None <->
     forall node, In node nodes -> c_str (name node) <> c_str handle) /\
    said e'
    = said e ++ match data info with
                | None => [Logf yep_log_error (CouldNotGetMisc (c_str handle))]
                | Some _ => []
                end.
Proof.
  intros HV Hw Hcr Hpk Hapart Hii Hres nodes archive Hready.
  destruct (pack_then_extract zl fs V fuel directory_path output_name st1
              HV Hw Hcr Hpk Hapart Hii Hres) as (stp & Hpack & Hx).
  fold nodes archive in Hpack, Hx.
  specialize (Hx handle (the_reader e) Hready).
  exists stp, (with_file_bytes fs (c_str output_name) archive).
  destruct (first_named handle nodes) as [node|] eqn:E.
  - destruct Hpk as (_ & Hsrc & _). fold nodes in Hsrc.
    unfold first_named in E. pose proof (find_some _ _ E) as [Hin Heq].
    rewrite Forall_forall in Hsrc. destruct (Hsrc node Hin) as (bytes & Hb & _).
    destruct (Hx bytes Hb) as (st' & Hx' & _).
    eexists _, _. split; [exact Hpack|].
    unfold _yep_misc. rewrite Hx'. cbn [obind data].
    split; [reflexivity|]. split; [reflexivity|]. split.
    + split; [discriminate|]. intros Hmiss.
      apply bytes_eqb_eq in Heq. symmetry in Heq. now apply Hmiss in Heq.
    + cbn [with_reader said]. now rewrite app_nil_r.
  - destruct Hx as (st' & Hx' & _).
    eexists _, _. split; [exact Hpack|].
    unfold _yep_misc. rewrite Hx'. cbn [obind data no_data].
    split; [reflexivity|]. split; [reflexivity|]. split.
    + split; [|reflexivity]. intros _. now apply first_named_None.
    + reflexivity.
Qed.

Lemma misc_is_null_iff_missing_witness :
  exists stp fs' info e',
    _yep_pack_directory rle_zlib example_fs 1 8 (s2b "d") (s2b "out.yep") packer_init
    = Done (true, stp, fs') /\
    _yep_misc rle_zlib fs' 1 (s2b "c.txt") (s2b "out.yep") engine_init = Done (info, e') /\
    said e' = [Logf yep_log_error (CouldNotGetMisc (s2b "c.txt"))].
Proof.
  destruct example_walk as (st1 & Hw).
  destruct (misc_is_null_iff_missing rle_zlib example_fs 1 8 (s2b "d") (s2b "out.yep")
              st1 (s2b "c.txt") engine_init ltac:(lia) Hw eq_refl example_packable example_apart
              eq_refl example_restorable (reader_init_ready _ _ _))
    as (stp & fs' & info & e' & Hp & Hm & _ & Hiff & Hs).
  exists stp, fs', info, e'. split; [exact Hp|]. split; [exact Hm|].
  rewrite Hs. replace (data info) with (@None (list (option byte))); [reflexivity|].
  symmetry. apply Hiff. fold example_nodes. rewrite example_nodes_eq.
  intros node [<-|[<-|[]]]; vm_compute; discriminate.
Defined.

(** ** An archive that is shorter than its table says *)

(** X25: yep_extract_data does not look at how many bytes fread obtained:
    when the file holds fewer bytes from the offset of an uncompressed
    entry than its recorded size, the call still returns that size, with a
    buffer whose first bytes are the ones the file had, whose bytes from
    there to the recorded size were never written, and whose terminator
    sits behind them. *)
Theorem short_read_is_not_noticed zl fs V file handle st st1 v st2 f offset size :
  _yep_open_file fs V file st = Done (true, st1) ->
  _yep_seek_header handle header_vars_uninit st1 = Done (true, v, st2) ->
  yep_file st2 = Some f ->
  int_of_cells (v_offset v) = Some offset ->
  int_of_cells (v_size v) = Some size ->
  int_of_cells (v_compression_type v) = Some YEP_COMPRESSION_NONE ->
  size + 1 < 4294967296 ->
  let available := skipn (Z.to_nat offset) (content f) in
  zlen available < size ->
  exists st3,
    yep_extract_data zl fs V file handle st
    = Done ({| data := Some (map Some available
                             ++ repeat None (Z.to_nat size - length available)
                             ++ [Some x00]);
               size := size |}, st3).
Proof.
  intros Ho Hs Hf Hoff Hsize Hct Hbound available Hshort.
  rewrite (yep_extract_data_found zl fs V file handle st st1 v st2 Ho Hs).
  pose proof (zlen_nonneg available) as Ha.
  unfold extract_found. rewrite Hf.
  rewrite (use_int_Some _ _ Hoff), (use_int_Some _ _ Hsize), (use_int_Some _ _ Hct).
  cbn [obind]. unfold fread. cbn [fseek pos content fd].
  fold available.
  assert (Hgot : firstn (Z.to_nat size) available = available).
  { apply firstn_all2. unfold zlen in Hshort. lia. }
  rewrite Hgot.
  rewrite (u32_small (size + 1)) by lia.
  assert (Hm : zlen (malloc (size + 1)) = size + 1).
  { unfold zlen. rewrite length_malloc. lia. }
  assert (E1 : (zlen (malloc (size + 1)) <? zlen available) = false)
    by (apply Z.ltb_ge; lia).
  rewrite E1.
  assert (Hstore : store (malloc (size + 1)) available
                   = map Some available
                     ++ repeat None (Z.to_nat size - length available) ++ [None]).
  { unfold store, malloc. f_equal.
    replace (Z.to_nat (size + 1))
      with (length available + ((Z.to_nat size - length available) + 1))%nat
      by (unfold zlen in Hshort; lia).
    rewrite repeat_app, skipn_app, repeat_length, Nat.sub_diag.
    rewrite (skipn_all2 (repeat None (length available)))
      by (rewrite repeat_length; lia).
    cbn [skipn app]. rewrite repeat_app. reflexivity. }
  rewrite Hstore.
  set (body := map Some available ++ repeat None (Z.to_nat size - length available)).
  assert (Hbody : length body = Z.to_nat size).
  { unfold body. rewrite length_app, length_map, repeat_length.
    unfold zlen in Hshort. lia. }
  replace (map Some available
           ++ repeat None (Z.to_nat size - length available) ++ [None])
    with (body ++ [None]) by (unfold body; now rewrite <- app_assoc).
  replace (map Some available
           ++ repeat None (Z.to_nat size - length available) ++ [Some x00])
    with (body ++ [Some x00]) by (unfold body; now rewrite <- app_assoc).
  change (YEP_COMPRESSION_NONE =? YEP_COMPRESSION_NONE) with true.
  change (YEP_COMPRESSION_NONE =? YEP_COMPRESSION_ZLIB) with false.
  cbv iota.
  assert (E2 : (zlen (body ++ [None]) <=? size) = false).
  { apply Z.leb_gt. unfold zlen. rewrite length_app, Hbody. cbn [length]. lia. }
  rewrite E2. cbn [obind].
  rewrite firstn_app, <- Hbody, firstn_all, Nat.sub_diag. cbn [firstn].
  rewrite app_nil_r.
  rewrite (skipn_all2 (body ++ [None]))
    by (rewrite length_app; cbn [length]; lia).
  rewrite app_nil_r. eexists. reflexivity.
Qed.

Lemma cut_disk_run :
  exists st1 v st2 f,
    _yep_open_file cut_disk 1 (s2b "cut.yep") reader_init = Done (true, st1) /\
    _yep_seek_header (s2b "a.txt") header_vars_uninit st1 = Done (true, v, st2) /\
    yep_file st2 = Some f /\
    int_of_cells (v_offset v) = Some 163 /\
    int_of_cells (v_size v) = Some 10 /\
    int_of_cells (v_compression_type v) = Some YEP_COMPRESSION_NONE /\
    skipn (Z.to_nat 163) (content f) = s2b "hellowo".
Proof.
  eexists _, _, _, _.
  split; [vm_compute; reflexivity|].
  split; [vm_compute; reflexivity|].
  split; [reflexivity|].
  split; [vm_compute; reflexivity|].
  split; [vm_compute; reflexivity|].
  split; [vm_compute; reflexivity|].
  vm_compute; reflexivity.
Qed.

Lemma short_read_is_not_noticed_witness :
  exists st3,
    yep_extract_data rle_zlib cut_disk 1 (s2b "cut.yep") (s2b "a.txt") reader_init
    = Done ({| data := Some (map Some (s2b "hellowo") ++ [None; None; None; Some x00]);
               size := 10 |}, st3).
Proof.
  destruct cut_disk_run as (st1 & v & st2 & f & Ho & Hs & Hf & Hoff & Hsize & Hct & Hav).
  destruct (short_read_is_not_noticed rle_zlib cut_disk 1 (s2b "cut.yep") (s2b "a.txt")
              reader_init st1 v st2 f 163 10 Ho Hs Hf Hoff Hsize Hct ltac:(lia))
    as (st3 & Hx).
  - rewrite Hav. vm_compute. reflexivity.
  - rewrite Hav in Hx. exists st3. exact Hx.
Defined.

(** ** Lookups in the cached archive *)

(* The fields of the reader that no lookup in the cached archive changes. *)
Lemma seek_header_keeps handle v st found v' st' :
  _yep_seek_header handle v st = Done (found, v', st') ->
  open_streams st' = open_streams st /\ next_fd st' = next_fd st /\
  yep_file_path st' = yep_file_path st /\
  file_entry_count st' = file_entry_count st /\
  file_version_number st' = file_version_number st /\
  out st' = out st.
Proof.
  unfold _yep_seek_header. destruct (yep_file st) as [f|]; [|discriminate].
  destruct (seek_loop _ _ _ _) as [[[b w] g]| | |]; cbn [obind]; try discriminate.
  intros H. inversion H; subst. repeat split.
Qed.

Lemma extract_found_keeps zl v st info st' :
  extract_found zl v st = Done (info, st') ->
  open_streams st' = open_streams st /\ next_fd st' = next_fd st /\
  yep_file_path st' = yep_file_path st /\
  file_entry_count st' = file_entry_count st /\
  file_version_number st' = file_version_number st.
Proof.
  unfold extract_found. destruct (yep_file st) as [f|]; [|discriminate].
  destruct (use_int (v_offset v)) as [offset| | |]; cbn [obind]; try discriminate.
  destruct (use_int (v_size v)) as [size| | |]; cbn [obind]; try discriminate.
  destruct (fread size (fseek f offset)) as [got g].
  destruct (_ <? zlen got); [discriminate|].
  destruct (use_int (v_compression_type v)) as [ct| | |]; cbn [obind]; try discriminate.
  destruct (ct =? YEP_COMPRESSION_NONE).
  - destruct (_ <=? size); cbn [obind]; [discriminate|].
    destruct (ct =? YEP_COMPRESSION_ZLIB).
    + destruct (use_int (v_uncompressed_size v)) as [us| | |]; cbn [obind];
        try discriminate.
      destruct (if _ <? size then None else load _) as [input|]; [|discriminate].
      destruct (decompress_data zl input size us) as [[status d] lines].
      destruct (negb (status =? 0)); intros H; inversion H; subst; repeat split.
    + intros H. inversion H; subst. repeat split.
  - cbn [obind]. destruct (ct =? YEP_COMPRESSION_ZLIB).
    + destruct (use_int (v_uncompressed_size v)) as [us| | |]; cbn [obind];
        try discriminate.
      destruct (if _ <? size then None else load _) as [input|]; [|discriminate].
      destruct (decompress_data zl input size us) as [[status d] lines].
      destruct (negb (status =? 0)); intros H; inversion H; subst; repeat split.
    + intros H. inversion H; subst. repeat split.
Qed.

(** X26: while the path asked for is the cached one, a lookup or an
    extraction opens no file: the table of open streams, the cached path,
    the entry count and the version are the same after the call, whatever
    the handle is and whether it is found or not. *)
Theorem cached_archive_is_not_reopened zl fs V file handle st :
  yep_file_path st = Live (c_str file) ->
  (forall found st',
     yep_item_exists fs V file handle st = Done (found, st') ->
     open_streams st' = open_streams st /\ next_fd st' = next_fd st /\
     yep_file_path st' = Live (c_str file) /\
     file_entry_count st' = file_entry_count st /\
     file_version_number st' = file_version_number st) /\
  (forall info st',
     yep_extract_data zl fs V file handle st = Done (info, st') ->
     open_streams st' = open_streams st /\ next_fd st' = next_fd st /\
     yep_file_path st' = Live (c_str file) /\
     file_entry_count st' = file_entry_count st /\
     file_version_number st' = file_version_number st).
Proof.
  intros Hp. pose proof (open_cached fs V file st Hp) as Ho. split.
  - intros found st' H. unfold yep_item_exists in H. rewrite Ho in H.
    cbn [obind negb] in H.
    destruct (_yep_seek_header handle header_vars_uninit st) as [[[b w] s]| | |] eqn:Es;
      cbn [obind] in H; try discriminate.
    inversion H; subst.
    destruct (seek_header_keeps _ _ _ _ _ _ Es) as (A & B & C & D & E & _).
    rewrite C. auto.
  - intros info st' H. unfold yep_extract_data in H. rewrite Ho in H.
    cbn [obind negb] in H.
    destruct (_yep_seek_header handle header_vars_uninit st) as [[[b w] s]| | |] eqn:Es;
      cbn [obind] in H; try discriminate.
    destruct (seek_header_keeps _ _ _ _ _ _ Es) as (A & B & C & D & E & _).
    destruct b; cbn [negb] in H.
    + destruct (extract_found_keeps _ _ _ _ _ H) as (A' & B' & C' & D' & E').
      rewrite A', B', C', D', E', C. auto.
    + inversion H; subst. cbn [logged open_streams next_fd yep_file_path
                                 file_entry_count file_version_number].
      rewrite C. auto.
Qed.

Lemma cached_archive_is_not_reopened_witness :
  exists info st',
    yep_extract_data rle_zlib example_disk 1 (s2b "out.yep") (s2b "a.txt") opened_reader
    = Done (info, st') /\
    open_streams st' = [0%nat].
Proof.
  assert (Hx : exists info st',
             yep_extract_data rle_zlib example_disk 1 (s2b "out.yep") (s2b "a.txt")
                              opened_reader = Done (info, st')).
  { eexists _, _. vm_compute. reflexivity. }
  destruct Hx as (info & st' & Hx).
  exists info, st'. split; [exact Hx|].
  destruct (proj2 (cached_archive_is_not_reopened rle_zlib example_disk 1 (s2b "out.yep")
                     (s2b "a.txt") opened_reader ltac:(vm_compute; reflexivity))
              info st' Hx) as (Hs & _).
  rewrite Hs. vm_compute. reflexivity.
Defined.

(** ** yep_pack_directory on a stale archive *)



(** ** Extraction of a deflated entry *)








(** The claim C8 fails for a stream that holds more than is expected.  The
    payload of the entry y of long.yep is a sound stream of five bytes and
    the record expects four: inflate stops at the full buffer, and
    decompress_data answers as it does for the payload of z, a stream cut
    off in the middle: -1 with the line of a failing inflate.  The
    extraction of y and that of z log the same lines. *)
Lemma longer_stream_counterexample :
  rle_decode [x05; x61] = Some (repeat x61 5) /\
  rle_decode [x05] = None /\
  decompress_data rle_zlib [x05; x61] 2 4
  = (-1, None, [(yep_log_error, ErrorDecompressingData)]) /\
  decompress_data rle_zlib [x05] 1 4
  = (-1, None, [(yep_log_error, ErrorDecompressingData)]) /\
  match yep_extract_data rle_zlib long_disk 1 (s2b "long.yep") (s2b "y") reader_init,
        yep_extract_data rle_zlib long_disk 1 (s2b "long.yep") (s2b "z") reader_init with
  | Done (info_y, st_y), Done (info_z, st_z) =>
      info_y = no_data /\ info_z = no_data /\
      out st_y = [(yep_log_error, ErrorDecompressingData);
                  (yep_log_warning, ErrorDecompressingWarning)] /\
      out st_z = out st_y
  | _, _ => False
  end.
Proof.
  split; [vm_compute; reflexivity|]. split; [vm_compute; reflexivity|].
  split; [vm_compute; reflexivity|]. split; [vm_compute; reflexivity|].
  vm_compute. repeat split.
Qed.

(** ** The terminator of an extracted buffer *)

(* A record that gives 0xFFFFFFFF as the size of an entry stored
   uncompressed: size + 1 wraps to 0 in the uint32_t, malloc is asked for
   no bytes, and the terminator is stored outside the block. *)
Lemma extract_found_wrapped zl v st f o :
  yep_file st = Some f ->
  int_of_cells (v_offset v) = Some o ->
  int_of_cells (v_size v) = Some 4294967295 ->
  int_of_cells (v_compression_type v) = Some YEP_COMPRESSION_NONE ->
  extract_found zl v st = Undefined.
Proof.
  intros Hf Ho Hs Hct. unfold extract_found. rewrite Hf.
  rewrite (use_int_Some _ _ Ho), (use_int_Some _ _ Hs). cbn [obind].
  change (malloc (u32 (4294967295 + 1))) with (@nil (option byte)).
  destruct (fread 4294967295 (fseek f o)) as [got f1].
  destruct (zlen (@nil (option byte)) <? zlen got) eqn:E; [reflexivity|].
  apply Z.ltb_ge in E.
  assert (Hg : got = []).
  { destruct got; [reflexivity|]. unfold zlen in E. cbn [length] in E. lia. }
  subst got. rewrite (use_int_Some _ _ Hct). cbn [obind].
  reflexivity.
Qed.


Lemma wide_disk_run :
  exists st1 v st2,
    _yep_open_file wide_disk 1 (s2b "wide.yep") reader_init = Done (true, st1) /\
    _yep_seek_header (s2b "x") header_vars_uninit st1 = Done (true, v, st2) /\
    int_of_cells (v_offset v) = Some 81 /\
    int_of_cells (v_size v) = Some 4294967295 /\
    int_of_cells (v_compression_type v) = Some YEP_COMPRESSION_NONE.
Proof.
  eexists _, _, _.
  split; [vm_compute; reflexivity|].
  split; [vm_compute; reflexivity|].
  repeat split; vm_compute; reflexivity.
Qed.


(** The claim C10 fails for a record of compression kind none that gives
    0xFFFFFFFF as its size: no buffer of size + 1 bytes is returned, the
    block malloc is asked for has no byte, and the terminator is stored
    outside it. *)
Lemma wrapped_size_counterexample :
  file_bytes wide_disk (s2b "wide.yep") = Some wide_archive /\
  zlen wide_archive = 81 /\
  firstn 4 (skipn 71 wide_archive) = [xff; xff; xff; xff] /\
  nth_error wide_archive 75 = Some x00 /\
  u32 (le_value [xff; xff; xff; xff] + 1) = 0 /\
  yep_extract_data rle_zlib wide_disk 1 (s2b "wide.yep") (s2b "x") reader_init
  = Undefined.
Proof.
  split; [reflexivity|]. split; [reflexivity|]. split; [reflexivity|].
  split; [reflexivity|]. split; [reflexivity|].
  destruct wide_disk_run as (st1 & v & st2 & H1 & H2 & Ho & Hs & Hc).
  rewrite (yep_extract_data_found _ _ _ _ _ _ _ _ _ H1 H2).
  destruct (seek_header_file _ _ _ _ _ _ H2) as [f Hf].
  now apply (extract_found_wrapped rle_zlib v st2 f 81).
Qed.

(** ** A source of 4 GiB or more *)

Lemma huge_walk :
  exists st1,
    _yep_walk_directory_v2 huge_fs 8 (s2b "d") (walk_start (s2b "d")) = Done st1 /\
    head (yep_pack_list st1) = [huge_node] /\
    entry_count (yep_pack_list st1) = 1.
Proof. eexists. split; [lazy; reflexivity|]. split; reflexivity. Qed.

(** The claim C4 fails for a source of 4 GiB or more.  The file big of
    [huge_fs] holds 4 GiB and five bytes, far more than 256, and is stored
    with compression kind none: get_file_size measures five bytes, and the
    archive holds the first five bytes of the file as they are. *)
Lemma oversized_source_counterexample :
  file_bytes huge_fs (s2b "d/big") = Some huge_bytes /\
  zlen huge_bytes = 4294967296 + 5 /\
  exists stp,
    _yep_pack_directory rle_zlib huge_fs 1 8 (s2b "d") (s2b "out.yep") packer_init
    = Done (true, stp,
            with_file_bytes huge_fs (s2b "out.yep")
              (archive_bytes 1
                 [{| entry_name := name huge_node;
                     entry_payload := repeat x61 5;
                     entry_compression := YEP_COMPRESSION_NONE;
                     entry_uncompressed_size := 5 |}])).
Proof.
  split; [reflexivity|]. split; [exact huge_bytes_length|].
  destruct huge_walk as (st1 & Hw & Hh & Hc).
  unfold _yep_pack_directory. fold (walk_start (s2b "d")). rewrite Hw.
  cbn [obind]. change (creatable huge_fs (c_str (s2b "out.yep"))) with true.
  cbn [negb]. cbn [yep_pack_list with_root plog].
  unfold write_pack_file. cbn [yep_pack_list with_list with_root plog].
  rewrite Hc, Hh.
  assert (Hb : forall pack_file,
             file_bytes (while_writing huge_fs (c_str (s2b "out.yep")) pack_file)
                        (fullpath huge_node)
             = Some huge_bytes) by (intros pack_file; reflexivity).
  assert (Hs : get_file_size huge_bytes <= 256) by (rewrite huge_bytes_size; lia).
  match goal with
  | |- context [write_pack_loop _ _ _ ?f ?d ?k] =>
      pose proof (write_pack_loop_measured rle_zlib
                    (while_writing huge_fs (c_str (s2b "out.yep"))) huge_node [] f d k
                    huge_bytes (Hb f) Hs) as Hrun
  end.
  rewrite huge_bytes_size in Hrun. change (Z.to_nat 5) with 5%nat in Hrun.
  rewrite huge_bytes_firstn in Hrun.
  eexists. rewrite Hrun. cbn [write_pack_loop obind]. reflexivity.
Qed.
